(** * real2sim_multitask: the training orchestration, embedded and verified

    The development follows the Python sources:
    - [trainers/train_multi_task.py] (module [train_multi_task]),
    - [trainers/train_unet.py]       (module [train_unet]),
    - [test_gan.py]                  (module [test_gan]),
    - [GUI/main.py]                  (module [GUI]).

    Numbers.  Losses and metrics are floating point values in the program.
    They are modelled as rationals [Q]: the properties below concern which
    quantities are combined, compared and stored, not rounding.  Equality of
    rationals is [==] ([Qeq]).  Where the program turns a float
    quotient of integers back into an integer, [int(a / b)], the rounding
    of the quotient is modelled (module [python]); the arrays of the test
    script carry their element type, bytes or floats (module [numpy]).

    Tensors.  A batch tensor is the list of its items along axis 0; an item
    (one single-channel image) is the list of its pixel values. *)

From Stdlib Require Import QArith Qabs Qround Lqa Sorted.
From stdpp Require Import gmap strings list fin_maps.

Open Scope Q_scope.

(** ** Python exceptions that the modelled code can raise *)

Inductive exn :=
| IndexError
| KeyError
| ZeroDivisionError
| UnboundLocalError
| RuntimeError
| ValueError
| OverflowError.

Inductive result (A : Type) :=
| Ok (a : A)
| Raise (e : exn).
Arguments Ok {A} a.
Arguments Raise {A} e.

Definition rbind {A B} (r : result A) (k : A -> result B) : result B :=
  match r with
  | Ok a => k a
  | Raise e => Raise e
  end.

(** Stateful code: a method runs from a state and either returns a value
    with the new state or raises, leaving the state it had reached. *)
Inductive outcome (S A : Type) :=
| Done (a : A) (s : S)
| Raised (e : exn) (s : S).
Arguments Done {S A} a s.
Arguments Raised {S A} e s.

Definition M (S A : Type) : Type := S -> outcome S A.

Definition ret {S A} (a : A) : M S A := fun s => Done a s.

Definition bind {S A B} (m : M S A) (k : A -> M S B) : M S B :=
  fun s =>
    match m s with
    | Done a s' => k a s'
    | Raised e s' => Raised e s'
    end.

Definition raise {S A} (e : exn) : M S A := fun s => Raised e s.
Definition get {S} : M S S := fun s => Done s s.
Definition modify {S} (f : S -> S) : M S unit := fun s => Done tt (f s).

(** A pure computation that may raise, run inside a method. *)
Definition lift {S A} (r : result A) : M S A :=
  match r with
  | Ok a => ret a
  | Raise e => raise e
  end.

Notation "x <- m ;; k" := (bind m (fun x => k))
  (at level 100, m at next level, right associativity).
Notation "m ;;; k" := (bind m (fun _ => k))
  (at level 100, right associativity).

Definition final_state {S A} (o : outcome S A) : S :=
  match o with
  | Done _ s => s
  | Raised _ s => s
  end.

(** [x < y] on numbers, as a test. *)
Definition Qltb (x y : Q) : bool := negb (Qle_bool y x).

(** [for x in xs: body(x)] *)
Fixpoint for_each {S A} (xs : list A) (body : A -> M S unit) : M S unit :=
  match xs with
  | [] => ret tt
  | x :: xs' => body x ;;; for_each xs' body
  end.

(** ** Python numbers: [int(a / b)]

    [a / b] on two integers is the quotient rounded to the nearest float
    (53 significant bits, ties to the even one), and [int] cuts the
    fraction off.  A quotient too large for a float raises. *)

Module python.
Local Open Scope Z_scope.

(** The integer nearest to [n / d], for [d > 0], ties to the even one. *)
Definition round_half_even (n d : Z) : Z :=
  let q := n / d in
  let r := n mod d in
  if 2 * r <? d then q
  else if d <? 2 * r then q + 1
  else if Z.even q then q else q + 1.

(** Scaling by a power of two, up for a positive and down for a negative
    exponent. *)
Definition up (s : Z) : Z := 2 ^ Z.max 0 s.
Definition down (s : Z) : Z := 2 ^ Z.max 0 (- s).

(** For [n, d > 0], the [s] for which [n / d * 2 ^ s] lies in
    [[2 ^ 52, 2 ^ 53)]: the float nearest to [n / d] is
    [m * 2 ^ (- s)] for the integer [m] nearest to [n / d * 2 ^ s]. *)
Definition scale_of (n d : Z) : Z :=
  let s := 52 + Z.log2 d - Z.log2 n in
  if d * 2 ^ 52 * down s <=? n * up s then s else s + 1.

(** The integer part of the float nearest to [n / d], for [n, d > 0].  (For
    a quotient below the normal range the float is coarser than 53 bits;
    its integer part is 0 all the same.) *)
Definition int_of_quotient (n d : Z) : Z :=
  let s := scale_of n d in
  let m := round_half_even (n * up s) (d * down s) in
  (m * down s) / up s.

(** [int(a / b)] for an integer [a] and a count [b]. *)
Definition int_div (a : Z) (b : nat) : result Z :=
  match b with
  | O => Raise ZeroDivisionError
  | S _ =>
      if a =? 0 then Ok 0
      else
        let t := int_of_quotient (Z.abs a) (Z.of_nat b) in
        if 2 ^ 1024 <=? t then Raise OverflowError else Ok (Z.sgn a * t)
  end.

End python.

(** ** The loaders of the framework

    [DataLoader(dataset, batch_size=.., shuffle=.., num_workers=..,
    prefetch_factor=1)], as the trainers call it.  A loader is what it was
    built from; [dataset] is the number of items of the dataset.  The
    constructor refuses a negative number of workers, a [prefetch_factor]
    without workers, a shuffled sampler over an empty dataset and a batch
    size that is not positive. *)

Module torch.

Record loader := mk_loader {
  dataset : nat;
  batch_size : Z;
  shuffle : bool;
  num_workers : Z
}.

Definition DataLoader (dataset : nat) (batch_size : Z) (shuffle : bool)
    (num_workers : Z) : result loader :=
  if (num_workers <=? 0)%Z then Raise ValueError
  else if shuffle && (dataset =? 0)%nat then Raise ValueError
  else if (batch_size <=? 0)%Z then Raise ValueError
  else Ok (mk_loader dataset batch_size shuffle num_workers).

End torch.

(** [[f(x) for x in xs]] for an [f] that can raise. *)
Fixpoint rmap {A B} (f : A -> result B) (xs : list A) : result (list B) :=
  match xs with
  | [] => Ok []
  | x :: xs' => rbind (f x) (fun y => rbind (rmap f xs') (fun ys => Ok (y :: ys)))
  end.

(** ** Tensors and the framework operations used by the scripts *)

Abbreviation image := (list Q).
Abbreviation tensor := (list (list Q)).

(** A sample produced by a data loader: a dict from key to batch tensor. *)
Abbreviation Sample := (gmap string tensor).

Definition Qsum (l : list Q) : Q := foldr Qplus 0 l.

(** [x.mean()]: the sum of all entries over their number.  (On an empty
    tensor the framework gives nan; [Q] division gives 0.) *)
Definition mean (l : list Q) : Q := Qsum l / inject_Z (Z.of_nat (length l)).

(** All entries of a batch tensor, in storage order. *)
Definition entries (x : tensor) : list Q := concat x.

(** Elementwise [x - y] and [torch.square]. *)
Definition sub (x y : list Q) : list Q := zip_with Qminus x y.
Definition square (x : list Q) : list Q := (fun a => a * a) <$> x.

(** [torch.cat((x, y), axis=0)] *)
Definition cat (x y : tensor) : tensor := x ++ y.

(** [nn.MSELoss()(x, y)] and [nn.L1Loss()(x, y)], default mean reduction. *)
Definition MSELoss (x y : tensor) : Q := mean (square (sub (entries x) (entries y))).
Definition L1Loss (x y : tensor) : Q := mean (Qabs <$> sub (entries x) (entries y)).

(** [torch.ones(n, 1, s, s)] and [torch.zeros(n, 1, s, s)] *)
Definition ones (n s : nat) : tensor := replicate n (replicate (s * s) 1).
Definition zeros (n s : nat) : tensor := replicate n (replicate (s * s) 0).

(** [x.detach()]: same values, cut from the autograd graph. *)
Definition detach (x : tensor) : tensor := x.

(** The learned networks, the optimisers and the SSIM metric are library
    code; the scripts only call them.  [forward m training x] is [m(x)] for a
    generator with parameters [m] in training ([true]) or evaluation
    ([false]) mode.  An optimiser step maps the parameters (together with the
    optimiser's own state) to new ones; it depends on the learning rate,
    which is the initial one decayed [n] times, and on the batch that the
    loss was computed on. *)
Class Framework := {
  Theta : Type;
  Phi : Type;
  forward : Theta -> bool -> tensor -> tensor;
  discriminate : Phi -> tensor -> tensor -> tensor;
  out_size : Phi -> nat;
  SSIM : tensor -> tensor -> Q;
  optimiser_step : nat -> Theta -> option Phi -> tensor -> tensor -> Theta;
  optimiser_discrim_step : Phi -> tensor -> tensor -> tensor -> Phi
}.

(** Calls that leave the trainer: the saver, the scheduler, the progress of
    the epoch loop and every forward pass of the generator with the mode it
    ran in. *)
Inductive ckpt_name :=
| best_generator
| at_epoch (n : nat).

Inductive phase := Train | Val.

Inductive event :=
| EvEpoch (epoch : nat)
| EvForward (ph : phase) (training : bool)
| EvGenStep (loss : Q)
| EvDiscStep (loss : Q)
| EvSaveModel (name : ckpt_name)
| EvLogStats (epoch : nat) (mean_loss mse ssim : Q).

(** The learning-rate stages set up by both trainers. *)
Definition step_lr : list Q := [95 # 100; 98 # 100; 99 # 100; 999 # 1000; 1].
Definition step_epochs (epochs : nat) : list nat := [50%nat; 100%nat; epochs].

(** ** trainers/train_multi_task.py *)

Module train_multi_task.

(** The inner loop of [concat_samples]: for every key of [sample],
    [sample[key] = torch.cat((sample[key], other[key]), axis=0)]. *)
Fixpoint cat_keys (keys : list string) (sample other : Sample) : result Sample :=
  match keys with
  | [] => Ok sample
  | key :: keys' =>
      match sample !! key, other !! key with
      | Some a, Some b => cat_keys keys' (<[key := cat a b]> sample) other
      | _, _ => Raise KeyError
      end
  end.

(** The outer loop, [for i in range(1, len(samples))]. *)
Fixpoint cat_rest (sample : Sample) (rest : list Sample) : result Sample :=
  match rest with
  | [] => Ok sample
  | other :: rest' =>
      rbind (cat_keys (elements (dom sample)) sample other)
            (fun sample' => cat_rest sample' rest')
  end.

Definition concat_samples (samples : list Sample) : result Sample :=
  match samples with
  | [] => Raise IndexError
  | sample :: rest => cat_rest sample rest
  end.

(** [zip] over all the loaders: one batch from every loader per step, until the first
    loader that is exhausted; no loaders give no steps. *)
Fixpoint zip_steps {A} (n : nat) (loaders : list (list A)) : list (list A) :=
  match n with
  | O => []
  | S n' =>
      match mapM head loaders with
      | Some batches => batches :: zip_steps n' (tail <$> loaders)
      | None => []
      end
  end.

Definition zip_star {A} (loaders : list (list A)) : list (list A) :=
  match loaders with
  | [] => []
  | l :: _ => zip_steps (length l) loaders
  end.

Section Trainer.
Context `{Framework}.

(** The attributes of the trainer object that the methods below read or
    write.  [training] is the mode flag of [self.model]; [scheduler] counts
    the calls of [self.scheduler.step()], each of which multiplies the
    generator's learning rate by [lr_decay]; [trace] records the calls
    listed under [event], latest last.  [_last_ssim], [MSE], [epoch] and
    [val_every] are assigned by the code before it reads them. *)
Record trainer := mk_trainer {
  model : Theta;
  training : bool;
  discriminator : option Phi;
  epochs : nat;
  running_loss : list Q;
  ssim : Q;
  _last_ssim : Q;
  MSE : Q;
  step_num : nat;
  scheduler : nat;
  epoch : nat;
  val_every : nat;
  trace : list event
}.

Definition set_model (v : Theta) (t : trainer) : trainer :=
  mk_trainer v (training t) (discriminator t) (epochs t) (running_loss t) (ssim t) (_last_ssim t) (MSE t) (step_num t) (scheduler t) (epoch t) (val_every t) (trace t).
Definition set_training (v : bool) (t : trainer) : trainer :=
  mk_trainer (model t) v (discriminator t) (epochs t) (running_loss t) (ssim t) (_last_ssim t) (MSE t) (step_num t) (scheduler t) (epoch t) (val_every t) (trace t).
Definition set_discriminator (v : option Phi) (t : trainer) : trainer :=
  mk_trainer (model t) (training t) v (epochs t) (running_loss t) (ssim t) (_last_ssim t) (MSE t) (step_num t) (scheduler t) (epoch t) (val_every t) (trace t).
Definition set_epochs (v : nat) (t : trainer) : trainer :=
  mk_trainer (model t) (training t) (discriminator t) v (running_loss t) (ssim t) (_last_ssim t) (MSE t) (step_num t) (scheduler t) (epoch t) (val_every t) (trace t).
Definition set_running_loss (v : list Q) (t : trainer) : trainer :=
  mk_trainer (model t) (training t) (discriminator t) (epochs t) v (ssim t) (_last_ssim t) (MSE t) (step_num t) (scheduler t) (epoch t) (val_every t) (trace t).
Definition set_ssim (v : Q) (t : trainer) : trainer :=
  mk_trainer (model t) (training t) (discriminator t) (epochs t) (running_loss t) v (_last_ssim t) (MSE t) (step_num t) (scheduler t) (epoch t) (val_every t) (trace t).
Definition set_last_ssim (v : Q) (t : trainer) : trainer :=
  mk_trainer (model t) (training t) (discriminator t) (epochs t) (running_loss t) (ssim t) v (MSE t) (step_num t) (scheduler t) (epoch t) (val_every t) (trace t).
Definition set_MSE (v : Q) (t : trainer) : trainer :=
  mk_trainer (model t) (training t) (discriminator t) (epochs t) (running_loss t) (ssim t) (_last_ssim t) v (step_num t) (scheduler t) (epoch t) (val_every t) (trace t).
Definition set_step_num (v : nat) (t : trainer) : trainer :=
  mk_trainer (model t) (training t) (discriminator t) (epochs t) (running_loss t) (ssim t) (_last_ssim t) (MSE t) v (scheduler t) (epoch t) (val_every t) (trace t).
Definition set_scheduler (v : nat) (t : trainer) : trainer :=
  mk_trainer (model t) (training t) (discriminator t) (epochs t) (running_loss t) (ssim t) (_last_ssim t) (MSE t) (step_num t) v (epoch t) (val_every t) (trace t).
Definition set_epoch (v : nat) (t : trainer) : trainer :=
  mk_trainer (model t) (training t) (discriminator t) (epochs t) (running_loss t) (ssim t) (_last_ssim t) (MSE t) (step_num t) (scheduler t) v (val_every t) (trace t).
Definition set_val_every (v : nat) (t : trainer) : trainer :=
  mk_trainer (model t) (training t) (discriminator t) (epochs t) (running_loss t) (ssim t) (_last_ssim t) (MSE t) (step_num t) (scheduler t) (epoch t) v (trace t).
Definition set_trace (v : list event) (t : trainer) : trainer :=
  mk_trainer (model t) (training t) (discriminator t) (epochs t) (running_loss t) (ssim t) (_last_ssim t) (MSE t) (step_num t) (scheduler t) (epoch t) (val_every t) v.

Definition emit (e : event) : M trainer unit :=
  modify (fun t => set_trace (trace t ++ [e]) t).

(** [sample[key]] *)
Definition getitem (sample : Sample) (key : string) : M trainer tensor :=
  match sample !! key with
  | Some x => ret x
  | None => raise KeyError
  end.

(** [setup]: a fresh optimiser and scheduler, [self.model.train()], and the
    attributes it initialises. *)
Definition setup : M trainer unit :=
  modify (fun t =>
    set_step_num 0 (set_ssim 0 (set_running_loss [0]
      (set_training true (set_scheduler 0 t))))).

Definition train_step (sample : Sample) : M trainer unit :=
  im_real <- getitem sample "real" ;;
  im_sim <- getitem sample "sim" ;;
  t <- get ;;
  let pred_sim := forward (model t) (training t) im_real in
  emit (EvForward Train (training t)) ;;;
  match discriminator t with
  | Some d =>
      let gan_gt_real := ones (length im_real) (out_size d) in
      let gan_gt_fake := zeros (length im_real) (out_size d) in
      let pred_fake := discriminate d pred_sim im_real in
      let loss_gan := MSELoss pred_fake gan_gt_real in
      let loss_pixel := L1Loss pred_sim im_sim in
      let loss := (1 # 100) * loss_gan + loss_pixel in
      modify (set_model (optimiser_step (scheduler t) (model t) (Some d) im_real im_sim)) ;;;
      emit (EvGenStep loss) ;;;
      modify (set_running_loss (running_loss t ++ [loss])) ;;;
      (* train discriminator *)
      let pred_real := discriminate d im_sim im_real in
      let loss_real := MSELoss pred_real gan_gt_real in
      let pred_fake := discriminate d (detach pred_sim) im_real in
      let loss_fake := MSELoss pred_fake gan_gt_fake in
      let loss := (1 # 2) * (loss_real + loss_fake) in
      modify (set_discriminator
                (Some (optimiser_discrim_step d im_sim im_real (detach pred_sim)))) ;;;
      emit (EvDiscStep loss)
  | None =>
      let loss := MSELoss pred_sim im_sim in
      modify (set_model (optimiser_step (scheduler t) (model t) None im_real im_sim)) ;;;
      emit (EvGenStep loss) ;;;
      modify (set_running_loss (running_loss t ++ [loss]))
  end.

(** One validation batch: forward pass and the two metrics, appended to the
    local lists [MSEs] and [SSIMs]. *)
Definition val_batch (acc : list Q * list Q) (sample : Sample)
  : M trainer (list Q * list Q) :=
  im_real <- getitem sample "real" ;;
  im_sim <- getitem sample "sim" ;;
  t <- get ;;
  let pred_sim := forward (model t) (training t) im_real in
  emit (EvForward Val (training t)) ;;;
  let mse := mean (square (sub (entries pred_sim) (entries im_sim))) in
  let ssim := SSIM pred_sim im_sim in
  ret (acc.1 ++ [mse], acc.2 ++ [ssim]).

Fixpoint val_batches (acc : list Q * list Q) (batches : list Sample)
  : M trainer (list Q * list Q) :=
  match batches with
  | [] => ret acc
  | sample :: batches' => acc' <- val_batch acc sample ;; val_batches acc' batches'
  end.

(** [sum(xs) / len(xs)] on a Python list. *)
Definition average (xs : list Q) : M trainer Q :=
  match xs with
  | [] => raise ZeroDivisionError
  | _ => ret (Qsum xs / inject_Z (Z.of_nat (length xs)))
  end.

(** [val_all(epoch)]; [loaders] are the batches of every validation loader,
    in the order of the dict's keys.  The sample images kept for inspection
    are left out. *)
Definition val_all (epoch : nat) (loaders : list (list Sample)) : M trainer unit :=
  modify (fun t => set_last_ssim (ssim t) t) ;;;
  modify (set_training false) ;;;
  acc <- val_batches ([], []) (concat loaders) ;;
  modify (set_training true) ;;;
  mse <- average acc.1 ;;
  modify (set_MSE mse) ;;;
  s <- average acc.2 ;;
  modify (set_ssim s) ;;;
  t <- get ;;
  emit (EvLogStats epoch (mean (running_loss t)) (MSE t) (ssim t)).

Definition maybe_save_model : M trainer unit :=
  t <- get ;;
  if Qltb (_last_ssim t) (ssim t) then emit (EvSaveModel best_generator) else ret tt.

(** [xs[i]] for an index that is not negative. *)
Definition index {A} (xs : list A) (i : nat) : M trainer A :=
  match xs !! i with
  | Some x => ret x
  | None => raise IndexError
  end.

Definition check_to_lower_learning_rate : M trainer unit :=
  t <- get ;;
  threshold <- index step_lr (step_num t) ;;
  (if Qltb threshold (ssim t)
   then modify (fun t => set_step_num (S (step_num t)) (set_scheduler (S (scheduler t)) t))
   else ret tt) ;;;
  t <- get ;;
  let step_epochs := step_epochs (epochs t) in
  limit <- index step_epochs (Nat.min (length step_epochs - 1) (step_num t)) ;;
  if (limit <? epoch t)%nat
  then modify (fun t => set_scheduler (S (scheduler t)) t)
  else ret tt.

(** [a % b] on numbers that are not negative. *)
Definition pymod (a b : nat) : M trainer nat :=
  match b with
  | O => raise ZeroDivisionError
  | _ => ret (a mod b)%nat
  end.

Section Start.
(** The batches that the training loaders and the validation loaders yield
    in a given epoch, one list per task, in the order of the dicts. *)
Variable train_loaders : nat -> list (list Sample).
Variable val_loaders : nat -> list (list Sample).

(** The body of the epoch loop; [true] when it leaves the loop by [break]. *)
Definition epoch_body (e : nat) : M trainer bool :=
  emit (EvEpoch e) ;;;
  modify (set_epoch e) ;;;
  modify (set_running_loss []) ;;;
  for_each (zip_star (train_loaders e))
           (fun samples => sample <- lift (concat_samples samples) ;; train_step sample) ;;;
  t <- get ;;
  r <- pymod (epoch t) (val_every t) ;;
  (if (r =? 0)%nat
   then val_all (epoch t + 1) (val_loaders e) ;;; maybe_save_model
   else ret tt) ;;;
  check_to_lower_learning_rate ;;;
  t <- get ;;
  ret (Qltb (9999 # 10000) (ssim t)).

Fixpoint epoch_loop (es : list nat) : M trainer unit :=
  match es with
  | [] => ret tt
  | e :: es' => brk <- epoch_body e ;; if brk : bool then ret tt else epoch_loop es'
  end.

Definition start (val_every : nat) : M trainer unit :=
  setup ;;;
  modify (set_val_every val_every) ;;;
  t <- get ;;
  epoch_loop (seq 0 (epochs t)).

End Start.
End Trainer.

(** [get_data_loaders], for [self.cores], [self.batch_size], the two
    shuffle flags and the datasets of the tasks (the number of items of
    each, in the order of the keys): one loader per training task and one
    per validation task. *)
Definition get_data_loaders (cores batch_size : Z)
    (shuffle_train shuffle_val : bool) (datasets_train datasets_val : list nat)
  : result (list torch.loader * list torch.loader) :=
  rbind (python.int_div cores 2) (fun cores =>
  rbind (python.int_div batch_size (length datasets_train))
    (fun scaled_batch_size =>
  let scaled_batch_size_val := batch_size in
  rbind (rmap (fun task =>
                 torch.DataLoader task (Z.max 1 scaled_batch_size)
                   shuffle_train cores)
              datasets_train) (fun torch_dataloaders_train =>
  rbind (rmap (fun task =>
                 rbind (python.int_div scaled_batch_size_val 4) (fun quarter =>
                 torch.DataLoader task (Z.max 1 quarter) shuffle_val cores))
              datasets_val) (fun torch_dataloaders_val =>
  Ok (torch_dataloaders_train, torch_dataloaders_val))))).

End train_multi_task.

(** ** trainers/train_unet.py *)

Module train_unet.

Section Trainer.
Context `{Framework}.

(** The attributes of the supervised trainer.  [ssim], [MSE], [val_every]
    and [save_model_every] are assigned by the code before it reads them:
    the first epoch always validates. *)
Record trainer := mk_trainer {
  model : Theta;
  training : bool;
  epochs : nat;
  running_loss : list Q;
  ssim : Q;
  MSE : Q;
  scheduler : nat;
  val_every : nat;
  save_model_every : nat;
  trace : list event
}.

Definition set_model (v : Theta) (t : trainer) : trainer :=
  mk_trainer v (training t) (epochs t) (running_loss t) (ssim t) (MSE t) (scheduler t) (val_every t) (save_model_every t) (trace t).
Definition set_training (v : bool) (t : trainer) : trainer :=
  mk_trainer (model t) v (epochs t) (running_loss t) (ssim t) (MSE t) (scheduler t) (val_every t) (save_model_every t) (trace t).
Definition set_epochs (v : nat) (t : trainer) : trainer :=
  mk_trainer (model t) (training t) v (running_loss t) (ssim t) (MSE t) (scheduler t) (val_every t) (save_model_every t) (trace t).
Definition set_running_loss (v : list Q) (t : trainer) : trainer :=
  mk_trainer (model t) (training t) (epochs t) v (ssim t) (MSE t) (scheduler t) (val_every t) (save_model_every t) (trace t).
Definition set_ssim (v : Q) (t : trainer) : trainer :=
  mk_trainer (model t) (training t) (epochs t) (running_loss t) v (MSE t) (scheduler t) (val_every t) (save_model_every t) (trace t).
Definition set_MSE (v : Q) (t : trainer) : trainer :=
  mk_trainer (model t) (training t) (epochs t) (running_loss t) (ssim t) v (scheduler t) (val_every t) (save_model_every t) (trace t).
Definition set_scheduler (v : nat) (t : trainer) : trainer :=
  mk_trainer (model t) (training t) (epochs t) (running_loss t) (ssim t) (MSE t) v (val_every t) (save_model_every t) (trace t).
Definition set_val_every (v : nat) (t : trainer) : trainer :=
  mk_trainer (model t) (training t) (epochs t) (running_loss t) (ssim t) (MSE t) (scheduler t) v (save_model_every t) (trace t).
Definition set_save_model_every (v : nat) (t : trainer) : trainer :=
  mk_trainer (model t) (training t) (epochs t) (running_loss t) (ssim t) (MSE t) (scheduler t) (val_every t) v (trace t).
Definition set_trace (v : list event) (t : trainer) : trainer :=
  mk_trainer (model t) (training t) (epochs t) (running_loss t) (ssim t) (MSE t) (scheduler t) (val_every t) (save_model_every t) v.

Definition emit (e : event) : M trainer unit :=
  modify (fun t => set_trace (trace t ++ [e]) t).

Definition getitem (sample : Sample) (key : string) : M trainer tensor :=
  match sample !! key with
  | Some x => ret x
  | None => raise KeyError
  end.

(** [setup]: a fresh optimiser and scheduler, [self.model.train()], and
    [running_loss]. *)
Definition setup : M trainer unit :=
  modify (fun t => set_running_loss [0] (set_training true (set_scheduler 0 t))).

Definition train_step (sample : Sample) : M trainer unit :=
  im_real <- getitem sample "real" ;;
  im_sim <- getitem sample "sim" ;;
  t <- get ;;
  let pred_sim := forward (model t) (training t) im_real in
  emit (EvForward Train (training t)) ;;;
  let loss := MSELoss pred_sim im_sim in
  modify (set_model (optimiser_step (scheduler t) (model t) None im_real im_sim)) ;;;
  emit (EvGenStep loss) ;;;
  modify (set_running_loss (running_loss t ++ [loss])).

Definition val_batch (acc : list Q * list Q) (sample : Sample)
  : M trainer (list Q * list Q) :=
  im_real <- getitem sample "real" ;;
  im_sim <- getitem sample "sim" ;;
  t <- get ;;
  let pred_sim := forward (model t) (training t) im_real in
  emit (EvForward Val (training t)) ;;;
  let mse := mean (square (sub (entries pred_sim) (entries im_sim))) in
  let ssim := SSIM pred_sim im_sim in
  ret (acc.1 ++ [mse], acc.2 ++ [ssim]).

Fixpoint val_batches (acc : list Q * list Q) (batches : list Sample)
  : M trainer (list Q * list Q) :=
  match batches with
  | [] => ret acc
  | sample :: batches' => acc' <- val_batch acc sample ;; val_batches acc' batches'
  end.

Definition average (xs : list Q) : M trainer Q :=
  match xs with
  | [] => raise ZeroDivisionError
  | _ => ret (Qsum xs / inject_Z (Z.of_nat (length xs)))
  end.

(** [val_all(epoch)] over the batches of the validation loader. *)
Definition val_all (epoch : nat) (loader : list Sample) : M trainer unit :=
  modify (set_training false) ;;;
  acc <- val_batches ([], []) loader ;;
  modify (set_training true) ;;;
  mse <- average acc.1 ;;
  modify (set_MSE mse) ;;;
  s <- average acc.2 ;;
  modify (set_ssim s) ;;;
  t <- get ;;
  emit (EvLogStats epoch (mean (running_loss t)) (MSE t) (ssim t)).

Definition index {A} (xs : list A) (i : nat) : M trainer A :=
  match xs !! i with
  | Some x => ret x
  | None => raise IndexError
  end.

Definition pymod (a b : nat) : M trainer nat :=
  match b with
  | O => raise ZeroDivisionError
  | _ => ret (a mod b)%nat
  end.

Section Start.
Variable train_loader : nat -> list Sample.
Variable val_loader : nat -> list Sample.

(** The learning-rate block in the loop of [start] (the two tests after the
    periodic save), on the locals [epoch] and [step_num]; it returns
    [step_num]. *)
Definition lower_learning_rate (epoch step_num : nat) : M trainer nat :=
  t <- get ;;
  threshold <- index step_lr step_num ;;
  step_num <- (if Qltb threshold (ssim t)
               then modify (fun t => set_scheduler (S (scheduler t)) t) ;;;
                    ret (step_num + 1)%nat
               else ret step_num) ;;
  (* lower if training for many epochs and no improvement on SSIM *)
  t <- get ;;
  let step_epochs := step_epochs (epochs t) in
  limit <- index step_epochs (Nat.min (length step_epochs - 1) step_num) ;;
  (if (limit <? epoch)%nat
   then modify (fun t => set_scheduler (S (scheduler t)) t)
   else ret tt) ;;;
  ret step_num.

(** The body of the epoch loop of [start], from the local [step_num]; it
    returns whether the loop is left by [break], and [step_num]. *)
Definition epoch_body (epoch step_num : nat) : M trainer (bool * nat) :=
  emit (EvEpoch epoch) ;;;
  modify (set_running_loss []) ;;;
  for_each (train_loader epoch) train_step ;;;
  t <- get ;;
  r <- pymod epoch (val_every t) ;;
  (if (r =? 0)%nat then val_all epoch (val_loader epoch) else ret tt) ;;;
  t <- get ;;
  r <- pymod epoch (save_model_every t) ;;
  (if (r =? 0)%nat then emit (EvSaveModel (at_epoch (epoch + 1))) else ret tt) ;;;
  step_num <- lower_learning_rate epoch step_num ;;
  t <- get ;;
  ret (Qltb (9999 # 10000) (ssim t), step_num).

(** The loop; it returns the binding of the loop variable [epoch] that the
    code after the loop sees: none when the body never ran. *)
Fixpoint epoch_loop (es : list nat) (step_num : nat) (bound : option nat)
  : M trainer (option nat) :=
  match es with
  | [] => ret bound
  | epoch :: es' =>
      r <- epoch_body epoch step_num ;;
      if r.1 : bool then ret (Some epoch) else epoch_loop es' r.2 (Some epoch)
  end.

Definition start (save_model_every val_every : nat) : M trainer unit :=
  setup ;;;
  modify (set_val_every val_every) ;;;
  modify (set_save_model_every save_model_every) ;;;
  t <- get ;;
  bound <- epoch_loop (seq 0 (epochs t)) 0 None ;;
  (* training finished *)
  match bound with
  | Some epoch => emit (EvSaveModel (at_epoch (epoch + 1)))
  | None => raise UnboundLocalError
  end.

End Start.
End Trainer.

(** [get_data_loader]: the training loader takes [self.batch_size] as it
    is; the validation loader a quarter of it, at least 1. *)
Definition get_data_loader (cores batch_size : Z)
    (shuffle_train shuffle_val : bool) (dataset_train dataset_val : nat)
  : result (torch.loader * torch.loader) :=
  rbind (python.int_div cores 2) (fun cores =>
  rbind (torch.DataLoader dataset_train batch_size shuffle_train cores)
    (fun torch_dataloader_train =>
  rbind (python.int_div batch_size 4) (fun quarter =>
  rbind (torch.DataLoader dataset_val (Z.max 1 quarter) shuffle_val cores)
    (fun torch_dataloader_val =>
  Ok (torch_dataloader_train, torch_dataloader_val))))).

End train_unet.

(** ** numpy arrays

    The arrays of the test script: a shape and the entries in storage
    order (row-major).  An image read by [io.imread] holds [uint8] entries,
    0 to 255; other arrays hold floats, modelled as rationals. *)

Module numpy.

Inductive ndarray :=
| uint8 (shape : list nat) (data : list Z)
| float64 (shape : list nat) (data : list Q).

Definition shape (a : ndarray) : list nat :=
  match a with
  | uint8 s _ | float64 s _ => s
  end.

(** The entries as numbers. *)
Definition values (a : ndarray) : list Q :=
  match a with
  | uint8 _ d => map inject_Z d
  | float64 _ d => d
  end.

(** The number of entries of an array of a shape. *)
Definition size (s : list nat) : nat := foldr Nat.mul 1%nat s.

(** Broadcasting: the shorter shape gets leading dimensions of 1; two
    dimensions go together when they are equal or one of them is 1. *)
Definition pad (n : nat) (s : list nat) : list nat :=
  replicate (n - length s) 1%nat ++ s.

Fixpoint broadcast_dims (s1 s2 : list nat) : result (list nat) :=
  match s1, s2 with
  | [], [] => Ok []
  | d1 :: s1', d2 :: s2' =>
      rbind (broadcast_dims s1' s2') (fun s =>
      if (d1 =? d2)%nat then Ok (d1 :: s)
      else if (d1 =? 1)%nat then Ok (d2 :: s)
      else if (d2 =? 1)%nat then Ok (d1 :: s)
      else Raise ValueError)
  | _, _ => Raise ValueError
  end.

Definition broadcast_shapes (s1 s2 : list nat) : result (list nat) :=
  let n := Nat.max (length s1) (length s2) in
  broadcast_dims (pad n s1) (pad n s2).

(** The first [k] blocks of [n] entries. *)
Fixpoint chunks {A} (n k : nat) (l : list A) : list (list A) :=
  match k with
  | O => []
  | S k' => take n l :: chunks n k' (drop n l)
  end.

(** The entries of an array of shape [from] seen as an array of shape [to]:
    along a dimension of 1 that is stretched, the one block is repeated. *)
Fixpoint stretch {A} (from to : list nat) (l : list A) : list A :=
  match from, to with
  | d :: from', d' :: to' =>
      if (d =? d')%nat
      then concat (map (stretch from' to') (chunks (size from') d l))
      else concat (replicate d' (stretch from' to' l))
  | _, _ => l
  end.

Definition broadcast_to {A} (from to : list nat) (l : list A) : list A :=
  stretch (pad (length to) from) to l.

(** [x - y]: entry by entry on the broadcast arrays.  Two [uint8] arrays
    give a [uint8] array, the differences taken modulo 256; with a float
    array on either side the result is a float array. *)
Definition subtract (x y : ndarray) : result ndarray :=
  rbind (broadcast_shapes (shape x) (shape y)) (fun s =>
  match x, y with
  | uint8 sx dx, uint8 sy dy =>
      Ok (uint8 s (zip_with (fun a b => ((a - b) mod 256)%Z)
                            (broadcast_to sx s dx) (broadcast_to sy s dy)))
  | _, _ =>
      Ok (float64 s (zip_with Qminus
                       (broadcast_to (shape x) s (values x))
                       (broadcast_to (shape y) s (values y))))
  end).

(** [x.mean()], a float whatever the entries are. *)
Definition mean (a : ndarray) : Q := mean (values a).

End numpy.

(** ** test_gan.py *)

Module test_gan.

(** [get_mse(generator, im_real_pt, image_sim, ims_io)]; [to_numpy] is the
    conversion [ims_io.to_numpy] of the helper object, which is not part
    of these sources: it is a parameter, and so is the kind of array it
    returns. *)
Definition get_mse (generator : tensor -> tensor) (im_real_pt : tensor)
    (image_sim : numpy.ndarray) (to_numpy : tensor -> numpy.ndarray)
  : result (Q * tensor) :=
  let pred_sim := generator im_real_pt in
  let generated_sim_image := to_numpy pred_sim in
  rbind (numpy.subtract generated_sim_image image_sim) (fun difference =>
  let MSE := numpy.mean difference in
  Ok (MSE, pred_sim)).

End test_gan.

(** ** GUI/main.py *)

Module GUI.

(** What the callbacks can touch: the two recorded paths, the message of
    the status bar, the pictures shown by the two labels and the lines
    printed. *)
Record window := mk_window {
  image1_file : option string;
  image2_file : option string;
  status_message : option string;
  im1 : tensor;
  im2 : tensor;
  printed : list string
}.

Definition set_image1_file (v : string) (w : window) : window :=
  mk_window (Some v) (image2_file w) (status_message w) (im1 w) (im2 w) (printed w).
Definition set_image2_file (v : string) (w : window) : window :=
  mk_window (image1_file w) (Some v) (status_message w) (im1 w) (im2 w) (printed w).
Definition showMessage (v : string) : M window unit :=
  modify (fun w =>
    mk_window (image1_file w) (image2_file w) (Some v) (im1 w) (im2 w) (printed w)).
Definition print (v : string) : M window unit :=
  modify (fun w =>
    mk_window (image1_file w) (image2_file w) (status_message w) (im1 w) (im2 w)
              (printed w ++ [v])).

(** [try: body / except: handler], the bare [except] that takes every
    exception. *)
Definition try_except {S A} (body : M S A) (handler : M S A) : M S A :=
  fun s =>
    match body s with
    | Done a s' => Done a s'
    | Raised _ s' => handler s'
    end.

(** The file dialog returns the chosen path and filter (both empty when
    the user closes it) or raises. *)
Definition getOpenFileName (dialog : result (string * string)) : M window (string * string) :=
  lift dialog.

Definition choose_image1 (dialog : result (string * string)) : M window unit :=
  try_except
    (r <- getOpenFileName dialog ;;
     modify (set_image1_file r.1) ;;;
     if decide (r.1 <> "") then print "now impliment load image" else ret tt)
    (showMessage "Cancelled Load").

Definition choose_image2 (dialog : result (string * string)) : M window unit :=
  try_except
    (r <- getOpenFileName dialog ;;
     modify (set_image2_file r.1) ;;;
     if decide (r.1 <> "") then print "now impliment load image" else ret tt)
    (showMessage "Cancelled Load").

(** [init_widgets] connects the two buttons to the two callbacks; the event
    loop then runs one callback per click, each with what its file dialog
    does. *)
Inductive button := button_image1 | button_image2.

Definition clicked (b : button) (dialog : result (string * string)) : M window unit :=
  match b with
  | button_image1 => choose_image1 dialog
  | button_image2 => choose_image2 dialog
  end.

Definition event_loop (clicks : list (button * result (string * string)))
  : M window unit :=
  for_each clicks (fun c => clicked c.1 c.2).

End GUI.

(** ** The quantities the description names *)

(** The block that one task contributes under a key. *)
Definition block (key : string) (s : Sample) : tensor :=
  default ([] : tensor) (s !! key).

(** The mean of the squared differences between predicted and target
    values. *)
Definition mean_squared_error (predicted target : list Q) : Q :=
  Qsum (zip_with (fun p t => (p - t) ^ 2) predicted target)
  / inject_Z (Z.of_nat (length (zip predicted target))).

Section Losses.
Context `{Framework}.

(** The adversarial loss: the discriminator's output on the generated
    image, conditioned on the real image, scored against the "real" label. *)
Definition adversarial_loss (d : Phi) (generated im_real : tensor) : Q :=
  MSELoss (discriminate d generated im_real) (ones (length im_real) (out_size d)).

(** The real-pair loss and the fake-pair loss of the discriminator. *)
Definition real_pair_loss (d : Phi) (im_sim im_real : tensor) : Q :=
  MSELoss (discriminate d im_sim im_real) (ones (length im_real) (out_size d)).
Definition fake_pair_loss (d : Phi) (generated im_real : tensor) : Q :=
  MSELoss (discriminate d (detach generated) im_real)
          (zeros (length im_real) (out_size d)).

(** The two metrics of one validation batch for a generator [m] run in
    mode [training]. *)
Definition batch_mse (m : Theta) (training : bool) (s : Sample) : Q :=
  mean (square (sub (entries (forward m training (block "real" s)))
                    (entries (block "sim" s)))).
Definition batch_ssim (m : Theta) (training : bool) (s : Sample) : Q :=
  SSIM (forward m training (block "real" s)) (block "sim" s).

(** A batch that carries both images. *)
Definition has_images (s : Sample) : Prop :=
  is_Some (s !! "real") /\ is_Some (s !! "sim").

End Losses.

(** ** Datasets a loader can be built on *)

(** A dataset that is shuffled has an item. *)
Definition loadable (shuffle : bool) (dataset : nat) : Prop :=
  shuffle = true -> (0 < dataset)%nat.

(** ** Reading an array *)

(** An array holds as many entries as its shape says, and [uint8] entries
    are bytes. *)
Definition well_formed (a : numpy.ndarray) : Prop :=
  match a with
  | numpy.uint8 s d =>
      length d = numpy.size s /\ Forall (fun x => (0 <= x < 256)%Z) d
  | numpy.float64 s d => length d = numpy.size s
  end.

(** The number of entries where the first array is below the second. *)
Definition below (x y : list Z) : nat :=
  length (List.filter (fun p => (p.1 <? p.2)%Z) (zip x y)).

(** Two conversions of a tensor, to a flat array of floats and to a flat
    array of bytes (the entries rounded down and wrapped). *)
Definition flat_float64 (x : tensor) : numpy.ndarray :=
  numpy.float64 [length (entries x)] (entries x).
Definition flat_uint8 (x : tensor) : numpy.ndarray :=
  numpy.uint8 [length (entries x)] (map (fun q => (Qfloor q mod 256)%Z) (entries x)).

(** ** Reading a session of the window *)

(** Whether some dialog of a session raised, the path that the last dialog
    of a button returned (if one returned), and the number of selections
    that were not empty. *)
Definition dialog_raised (c : GUI.button * result (string * string)) : bool :=
  match c.2 with
  | Raise _ => true
  | Ok _ => false
  end.

Definition same_button (b b' : GUI.button) : bool :=
  match b, b' with
  | GUI.button_image1, GUI.button_image1 => true
  | GUI.button_image2, GUI.button_image2 => true
  | _, _ => false
  end.

Fixpoint last_path (b : GUI.button) (clicks : list (GUI.button * result (string * string)))
    (before : option string) : option string :=
  match clicks with
  | [] => before
  | (b', Ok (path, _)) :: clicks' =>
      last_path b clicks' (if same_button b b' then Some path else before)
  | (_, Raise _) :: clicks' => last_path b clicks' before
  end.

Definition selections (clicks : list (GUI.button * result (string * string))) : nat :=
  length (List.filter (fun c => match c.2 with
                                | Ok (path, _) => negb (String.eqb path "")
                                | Raise _ => false
                                end) clicks).

(** The shortest of the loaders' lengths; 0 when there is no loader. *)
Definition shortest {A} (loaders : list (list A)) : nat :=
  match loaders with
  | [] => O
  | l :: ls => foldr (fun l' m => Nat.min (length l') m) (length l) ls
  end.

(** ** Reading a trace *)

(** A save of the "best" checkpoint, and their number in a trace. *)
Definition is_best_save (ev : event) : bool :=
  match ev with
  | EvSaveModel best_generator => true
  | _ => false
  end.
Definition best_saves (tr : list event) : nat := length (List.filter is_best_save tr).

(** The start of an epoch. *)
Definition is_epoch (ev : event) : bool :=
  match ev with
  | EvEpoch _ => true
  | _ => false
  end.

(** A forward pass in the mode its phase asks for: training mode in a
    training step, evaluation mode in validation. *)
Definition mode_ok (ev : event) : Prop :=
  match ev with
  | EvForward Train training => training = true
  | EvForward Val training => training = false
  | _ => True
  end.

(** A logged validation whose averaged SSIM is above the cutoff. *)
Definition above_cutoff (ev : event) : bool :=
  match ev with
  | EvLogStats _ _ _ s => Qltb (9999 # 10000) s
  | _ => false
  end.

(** No epoch starts after a validation above the cutoff. *)
Fixpoint stops_after_cutoff (tr : list event) : Prop :=
  match tr with
  | [] => True
  | ev :: tr' =>
      (above_cutoff ev = true -> Forall (fun ev' => is_epoch ev' = false) tr') /\
      stops_after_cutoff tr'
  end.

(** ** Small concrete instances, used to run the definitions *)

(** Two tasks, two steps: the combined sample of the second step. *)
Definition two_task_loaders : list (list Sample) :=
  [ [ {[ "real" := [[1]]; "sim" := [[2]] ]};
      {[ "real" := [[3]; [4]]; "sim" := [[5]; [6]] ]} ];
    [ {[ "real" := [[7]]; "sim" := [[8]] ]};
      {[ "real" := [[9]]; "sim" := [[10]] ]};
      {[ "real" := [[11]]; "sim" := [[12]] ]} ] ].

(** A framework with one scalar parameter per network: the generator adds
    its parameter to every pixel (only in evaluation mode), the
    discriminator returns its first argument shifted, an optimiser step
    adds one to the parameter, and the metric reads the first pixel of the
    target, capped at 1. *)
Definition first_pixel (x : tensor) : Q :=
  match x with
  | (p :: _) :: _ => p
  | _ => 0
  end.

Definition shift (m : Q) (x : tensor) : tensor := map (map (Qplus m)) x.

Definition toy : Framework := {|
  Theta := Q;
  Phi := Q;
  forward := fun m training x => if training then x else shift m x;
  discriminate := fun d x _ => shift d x;
  out_size := fun _ => 1%nat;
  SSIM := fun _ y => if Qle_bool (first_pixel y) 1 then first_pixel y else 1;
  optimiser_step := fun _ m _ _ _ => m + 1;
  optimiser_discrim_step := fun d _ _ _ => d + 1
|}.

(** One-pixel batches; the validation scores of the first epochs, after
    which the target pixel, and with it the score, is 1. *)
Definition pixel_batch (p : Q) : Sample := {[ "real" := [[p]]; "sim" := [[p]] ]}.
Definition toy_scores : list Q := [9 # 10; 1 # 2; 6 # 10].
Definition toy_train_loader (e : nat) : list Sample := [pixel_batch (1 # 2)].
Definition toy_val_loader (e : nat) : list Sample :=
  [pixel_batch (List.nth e toy_scores 1)].
Definition toy_train_loaders (e : nat) : list (list Sample) :=
  [toy_train_loader e; toy_train_loader e].
Definition toy_val_loaders (e : nat) : list (list Sample) := [toy_val_loader e].

(** Trainers as [__init__] leaves them, with a budget of ten epochs. *)
Definition toy_multi : @train_multi_task.trainer toy :=
  @train_multi_task.mk_trainer toy 0 true (Some (1 # 2)) 10 [] 0 0 0 0 0 0 1 [].
Definition toy_unet : @train_unet.trainer toy :=
  @train_unet.mk_trainer toy 0 true 10 [] 0 0 0 1 10 [].
Definition toy_unet_no_epochs : @train_unet.trainer toy :=
  @train_unet.mk_trainer toy 0 true 0 [] 0 0 0 1 10 [].

(** Trainers in epoch 150 of 200 that have scored 0.96, with the threshold
    index still at 0. *)
Definition toy_multi_scoring : @train_multi_task.trainer toy :=
  @train_multi_task.mk_trainer toy 0 true (Some (1 # 2)) 200 [] (96 # 100) 0 0
    0 0 150 1 [].
Definition toy_unet_scoring : @train_unet.trainer toy :=
  @train_unet.mk_trainer toy 0 true 200 [] (96 # 100) 0 0 1 10 [].

(** A framework whose metric is always one half, and a multi-task trainer
    with a budget of sixty epochs. *)
Definition toy_low : Framework := {|
  Theta := Q;
  Phi := Q;
  forward := fun m training x => if training then x else shift m x;
  discriminate := fun d x _ => shift d x;
  out_size := fun _ => 1%nat;
  SSIM := fun _ _ => 1 # 2;
  optimiser_step := fun _ m _ _ _ => m + 1;
  optimiser_discrim_step := fun d _ _ _ => d + 1
|}.
Definition toy_low_multi : @train_multi_task.trainer toy_low :=
  @train_multi_task.mk_trainer toy_low 0 true None 60 [] 0 0 0 0 0 0 1 [].

(** A multi-task trainer built without a discriminator, and a batch that
    carries no "sim" image. *)
Definition toy_multi_no_discriminator : @train_multi_task.trainer toy :=
  @train_multi_task.mk_trainer toy 0 true None 10 [] 0 0 0 0 0 0 1 [].
Definition real_only : Sample := {[ "real" := [[1 # 2]] ]}.

(** The epochs started and the scores logged in a trace. *)
Definition epochs_started (tr : list event) : list nat :=
  List.flat_map (fun ev => match ev with EvEpoch e => [e] | _ => [] end) tr.
Definition scores_logged (tr : list event) : list Q :=
  List.flat_map (fun ev => match ev with EvLogStats _ _ _ s => [s] | _ => [] end) tr.
Definition models_saved (tr : list event) : list ckpt_name :=
  List.flat_map (fun ev => match ev with EvSaveModel n => [n] | _ => [] end) tr.

(** ** Predicates on states and traces used in the proofs *)

(** [hoare P m Q E]: from a state in [P], the method [m] returns [a] in a
    state satisfying [Q a], or raises [e] in a state satisfying [E e]. *)
Definition hoare {S A} (P : S -> Prop) (m : M S A) (Q : A -> S -> Prop)
    (E : exn -> S -> Prop) : Prop :=
  forall s, P s ->
    match m s with
    | Done a s' => Q a s'
    | Raised e s' => E e s'
    end.

(** Events of a training step run in mode [m]. *)
Definition train_event (m : bool) (ev : event) : Prop :=
  match ev with
  | EvForward Train m' => m' = m
  | EvGenStep _ | EvDiscStep _ => True
  | _ => False
  end.

(** Events of the body of an epoch that ends with score [s]: no start of an
    epoch, forward passes in the right mode, and a logged SSIM equal to [s]. *)
Definition body_event (s : Q) (ev : event) : Prop :=
  is_epoch ev = false /\ mode_ok ev /\
  forall e ml mse s', ev = EvLogStats e ml mse s' -> s' = s.
Definition quiet_event (ev : event) : Prop := is_epoch ev = false /\ mode_ok ev.

(** A periodic save of the supervised trainer. *)
Definition periodic_save (ev : event) : Prop :=
  exists k, ev = EvSaveModel (at_epoch k).

Section MultiTaskPredicates.
Import train_multi_task.
Context `{Framework}.

(** The attributes that steer the epoch loop. *)
Definition knobs (t : trainer) : nat * nat * nat * nat * nat :=
  (epochs t, step_num t, scheduler t, epoch t, val_every t).
Definition ctl (t : trainer) : bool * Q * Q * (nat * nat * nat * nat * nat) :=
  (training t, ssim t, _last_ssim t, knobs t).

(** [grows ok t0 t]: the trace of [t] is the trace of [t0] followed by
    events that all satisfy [ok]. *)
Definition grows (ok : event -> Prop) (t0 t : trainer) : Prop :=
  exists evs, trace t = trace t0 ++ evs /\ Forall ok evs.

(** What a training step keeps. *)
Definition train_frame (t0 t : trainer) : Prop :=
  ctl t = ctl t0 /\ grows (train_event (training t0)) t0 t.

(** Whatever the batches, the loop only appends forward passes run in the
    current mode. *)
Definition val_frame (t0 t : trainer) : Prop :=
  t = set_trace (trace t) t0 /\
  grows (fun ev => ev = EvForward Val (training t0)) t0 t.

(** What holds whenever the epoch loop starts an iteration. *)
Definition loop_inv (t : trainer) : Prop :=
  training t = true /\ Forall mode_ok (trace t) /\
  Forall (fun ev => above_cutoff ev = false) (trace t).

End MultiTaskPredicates.

Section UNetPredicates.
Import train_unet.
Context `{Framework}.

Definition unet_ctl (t : trainer) : bool * Q * nat * nat * nat * nat :=
  (training t, ssim t, epochs t, scheduler t, val_every t, save_model_every t).

Definition unet_grows (ok : event -> Prop) (t0 t : trainer) : Prop :=
  exists evs, trace t = trace t0 ++ evs /\ Forall ok evs.

Definition unet_train_frame (t0 t : trainer) : Prop :=
  unet_ctl t = unet_ctl t0 /\ unet_grows (train_event (training t0)) t0 t.

Definition unet_val_frame (t0 t : trainer) : Prop :=
  t = set_trace (trace t) t0 /\
  unet_grows (fun ev => ev = EvForward Val (training t0)) t0 t.

Definition unet_loop_inv (t : trainer) : Prop :=
  training t = true /\ Forall mode_ok (trace t) /\
  Forall (fun ev => above_cutoff ev = false) (trace t).

End UNetPredicates.

(** The window after one click. *)
Definition after_click (b : GUI.button) (dialog : result (string * string))
    (w : GUI.window) : GUI.window :=
  match dialog with
  | Raise _ =>
      GUI.mk_window (GUI.image1_file w) (GUI.image2_file w) (Some "Cancelled Load")
                (GUI.im1 w) (GUI.im2 w) (GUI.printed w)
  | Ok (path, _) =>
      GUI.mk_window
        (if same_button GUI.button_image1 b then Some path else GUI.image1_file w)
        (if same_button GUI.button_image2 b then Some path else GUI.image2_file w)
        (GUI.status_message w) (GUI.im1 w) (GUI.im2 w)
        (GUI.printed w ++ if negb (String.eqb path "")
                      then ["now impliment load image"] else [])
  end.


(** ** Relating the two trainers *)

Section TwoTrainers.
Context `{Framework}.

(** A step of the multi-task loop that can be trained on: its batches
    concatenate to a sample that carries both images. *)
Definition step_ok (samples : list Sample) : Prop :=
  exists sample,
    train_multi_task.concat_samples samples = Ok sample /\ has_images sample.

(** A multi-task trainer and a supervised trainer that agree on the
    generator, its mode, its learning rate, the losses and the trace. *)
Definition same_generator (t : train_multi_task.trainer) (u : train_unet.trainer)
  : Prop :=
  train_multi_task.model t = train_unet.model u /\
  train_multi_task.training t = train_unet.training u /\
  train_multi_task.scheduler t = train_unet.scheduler u /\
  train_multi_task.running_loss t = train_unet.running_loss u /\
  train_multi_task.trace t = train_unet.trace u.

End TwoTrainers.

(** * Properties *)

(** ** Reasoning about methods *)

Section Hoare.
Context {S : Type}.

Lemma hoare_ret {A} (P : S -> Prop) (a : A) (Q : A -> S -> Prop) E :
  (forall s, P s -> Q a s) -> hoare P (ret a) Q E.
Proof. intros HQ s Hs. simpl. auto. Qed.

Lemma hoare_raise {A} (P : S -> Prop) (e : exn) (Q : A -> S -> Prop)
    (E : exn -> S -> Prop) :
  (forall s, P s -> E e s) -> hoare P (raise e) Q E.
Proof. intros HE s Hs. simpl. auto. Qed.

Lemma hoare_get (P : S -> Prop) (Q : S -> S -> Prop) E :
  (forall s, P s -> Q s s) -> hoare P get Q E.
Proof. intros HQ s Hs. simpl. auto. Qed.

Lemma hoare_modify (P : S -> Prop) (f : S -> S) (Q : unit -> S -> Prop) E :
  (forall s, P s -> Q tt (f s)) -> hoare P (modify f) Q E.
Proof. intros HQ s Hs. simpl. auto. Qed.

Lemma hoare_bind {A B} (P : S -> Prop) (m : M S A) (k : A -> M S B)
    (R : A -> S -> Prop) (Q : B -> S -> Prop) E :
  hoare P m R E ->
  (forall a, hoare (R a) (k a) Q E) ->
  hoare P (bind m k) Q E.
Proof.
  intros Hm Hk s Hs. unfold bind. specialize (Hm s Hs).
  destruct (m s) as [a s'|e s']; [|done]. by apply Hk.
Qed.

Lemma hoare_conseq {A} (P P' : S -> Prop) (m : M S A)
    (Q Q' : A -> S -> Prop) (E E' : exn -> S -> Prop) :
  hoare P' m Q' E' ->
  (forall s, P s -> P' s) ->
  (forall a s, Q' a s -> Q a s) ->
  (forall e s, E' e s -> E e s) ->
  hoare P m Q E.
Proof.
  intros Hm HP HQ HE s Hs. specialize (Hm s (HP s Hs)).
  destruct (m s); auto.
Qed.

Lemma hoare_lift {A} (P : S -> Prop) (r : result A) (Q : A -> S -> Prop)
    (E : exn -> S -> Prop) :
  (forall s, P s ->
     match r with Ok a => Q a s | Raise e => E e s end) ->
  hoare P (lift r) Q E.
Proof. intros Hr s Hs. specialize (Hr s Hs). by destruct r. Qed.

(** A loop keeps what each of its iterations keeps. *)
Lemma hoare_for_each {A} (I : S -> Prop) (xs : list A) (body : A -> M S unit) E :
  (forall x, x ∈ xs -> hoare I (body x) (fun _ => I) E) ->
  hoare I (for_each xs body) (fun _ => I) E.
Proof.
  induction xs as [|x xs IH]; intros Hbody; simpl.
  - by apply hoare_ret.
  - eapply hoare_bind; [apply Hbody; left|]. intros []. apply IH.
    intros y Hy. apply Hbody. by right.
Qed.

End Hoare.

Lemma Qltb_lt (x y : Q) : Qltb x y = true <-> x < y.
Proof.
  unfold Qltb. rewrite negb_true_iff, <- not_true_iff_false, Qle_bool_iff.
  split; [apply Qnot_le_lt | apply Qlt_not_le].
Qed.

Lemma Qltb_ge (x y : Q) : Qltb x y = false <-> y <= x.
Proof.
  unfold Qltb. rewrite negb_false_iff. apply Qle_bool_iff.
Qed.

(** ** Batches drawn in lockstep and concatenated *)

Section ConcatSamples.
Import train_multi_task.

Lemma cat_keys_lookup (keys : list string) (sample other : Sample) :
  NoDup keys ->
  (forall k, k ∈ keys -> is_Some (sample !! k) /\ is_Some (other !! k)) ->
  exists combined,
    cat_keys keys sample other = Ok combined /\
    forall k, combined !! k =
              if decide (k ∈ keys)
              then a ← sample !! k; b ← other !! k; Some (cat a b)
              else sample !! k.
Proof.
  revert sample. induction keys as [|key keys IH]; intros sample Hnd Hin.
  - exists sample. split; [done|]. intros k. case_decide as Hk; [|done].
    by apply elem_of_nil in Hk.
  - apply NoDup_cons in Hnd as [Hkey Hnd].
    destruct (Hin key) as [[a Ha] [b Hb]]; [left|].
    simpl. rewrite Ha, Hb.
    destruct (IH (<[key := cat a b]> sample) Hnd) as (combined & Hc & Hl).
    { intros k Hk. split; [|by apply Hin; right].
      destruct (decide (key = k)) as [->|Hne]; [done|].
      rewrite lookup_insert_ne by done. by apply Hin; right. }
    exists combined. split; [done|]. intros k. rewrite Hl.
    destruct (decide (k = key)) as [->|Hne].
    + rewrite decide_False by done. rewrite decide_True by left.
      rewrite lookup_insert_eq, Ha, Hb. done.
    + rewrite lookup_insert_ne by done.
      case_decide as H1; case_decide as H2; try done.
      * exfalso. apply H2. by right.
      * exfalso. apply elem_of_cons in H2 as [?|?]; done.
Qed.

Lemma block_Some (key : string) (s : Sample) (b : tensor) :
  s !! key = Some b -> block key s = b.
Proof. unfold block. by intros ->. Qed.

Lemma cat_keys_all (sample other : Sample) :
  dom sample ⊆ dom other ->
  exists combined,
    cat_keys (elements (dom sample)) sample other = Ok combined /\
    dom combined = dom sample /\
    forall (key : string) (x : tensor), sample !! key = Some x ->
                  combined !! key = Some (x ++ block key other).
Proof.
  intros Hsub.
  destruct (cat_keys_lookup (elements (dom sample)) sample other)
    as (combined & Hc & Hl).
  { apply NoDup_elements. }
  { intros k Hk. apply elem_of_elements in Hk. split.
    - by apply elem_of_dom.
    - apply elem_of_dom. by apply Hsub. }
  exists combined. split; [done|]. split.
  - apply set_eq. intros k. rewrite !elem_of_dom, Hl.
    case_decide as Hk; [|done].
    apply elem_of_elements in Hk. pose proof Hk as Hk'.
    apply elem_of_dom in Hk as [a Ha]. apply Hsub, elem_of_dom in Hk' as [b Hb].
    rewrite Ha, Hb. simpl. split; eauto.
  - intros key x Hx. rewrite Hl.
    assert (key ∈ dom other) as [b Hb]%elem_of_dom.
    { apply Hsub, elem_of_dom. eauto. }
    case_decide as Hk.
    + rewrite (block_Some _ _ _ Hb), Hx. simpl. rewrite Hb. reflexivity.
    + exfalso. apply Hk, elem_of_elements, elem_of_dom. eauto.
Qed.

Lemma cat_rest_blocks (rest : list Sample) (sample : Sample) :
  Forall (fun other => dom sample ⊆ dom other) rest ->
  exists combined,
    cat_rest sample rest = Ok combined /\
    dom combined = dom sample /\
    forall (key : string) (x : tensor), sample !! key = Some x ->
                  combined !! key = Some (x ++ concat (block key <$> rest)).
Proof.
  revert sample. induction rest as [|other rest IH]; intros sample Hall.
  - exists sample. split; [done|]. split; [done|].
    intros key x Hx. simpl. by rewrite app_nil_r.
  - apply Forall_cons in Hall as [Hsub Hall].
    destruct (cat_keys_all sample other Hsub) as (s1 & Hs1 & Hdom1 & Hl1).
    destruct (IH s1) as (combined & Hc & Hdom & Hl).
    { rewrite Hdom1. done. }
    exists combined. simpl. rewrite Hs1. simpl. split; [done|]. split.
    + by rewrite Hdom, Hdom1.
    + intros key x Hx. rewrite (Hl key _ (Hl1 key x Hx)).
      by rewrite <- app_assoc.
Qed.

Lemma zip_steps_lookup {A} (n : nat) (loaders : list (list A)) (j : nat)
    (batches : list A) :
  zip_steps n loaders !! j = Some batches ->
  Forall2 (fun loader b => loader !! j = Some b) loaders batches.
Proof.
  revert loaders j. induction n as [|n IH]; intros loaders j; simpl; [done|].
  destruct (mapM head loaders) as [hs|] eqn:Hm; [|done].
  apply mapM_Some in Hm. destruct j as [|j]; simpl.
  - intros [= <-]. eapply Forall2_impl; [exact Hm|].
    intros l b Hb. by rewrite <- head_lookup.
  - intros Hj. apply IH in Hj. apply Forall2_fmap_l in Hj.
    eapply Forall2_impl; [exact Hj|]. intros l b Hb. simpl in Hb.
    by rewrite lookup_tail in Hb.
Qed.

Lemma zip_steps_is_Some {A} (n : nat) (loaders : list (list A)) (j : nat) :
  (j < n)%nat ->
  Forall (fun loader => (j < length loader)%nat) loaders ->
  is_Some (zip_steps n loaders !! j).
Proof.
  revert loaders j. induction n as [|n IH]; intros loaders j Hj Hall; [lia|].
  simpl. destruct (mapM head loaders) as [hs|] eqn:Hm.
  - destruct j as [|j]; simpl; [eauto|]. apply IH; [lia|].
    apply Forall_fmap. eapply Forall_impl; [exact Hall|].
    intros l Hl. simpl in *. destruct l; simpl in *; lia.
  - exfalso. apply eq_None_not_Some in Hm. apply Hm, mapM_is_Some.
    eapply Forall_impl; [exact Hall|]. intros l Hl. simpl in Hl.
    destruct l; simpl in *; [lia|eauto].
Qed.

Lemma length_concat_blocks (key : string) (samples : list Sample) :
  length (concat (block key <$> samples)) =
  sum_list_with (fun s => length (block key s)) samples.
Proof.
  induction samples as [|s samples IH]; csimpl; [done|].
  by rewrite length_app, IH.
Qed.

(** Every index below the length of all the loaders is a training step. *)
Lemma zip_star_is_Some {A} (loaders : list (list A)) (j : nat) :
  loaders <> [] ->
  Forall (fun loader => (j < length loader)%nat) loaders ->
  is_Some (zip_star loaders !! j).
Proof.
  intros Hne Hall. destruct loaders as [|l ls]; [done|]. unfold zip_star.
  apply zip_steps_is_Some; [|done]. by apply Forall_cons in Hall as [? _].
Qed.

(** C4.  The [j]-th training step of an epoch receives the [j]-th batch of
    every task's loader; when the batches carry the same keys,
    [concat_samples] returns a sample with exactly those keys, whose tensor
    under each key is the concatenation along the batch axis of the tasks'
    blocks in loader order, so that its batch size is the sum of theirs. *)
Theorem concat_samples_lockstep (loaders : list (list Sample)) (j : nat)
    (samples : list Sample) (keys : gset string) :
  zip_star loaders !! j = Some samples ->
  Forall (Forall (fun s : Sample => dom s = keys)) loaders ->
  Forall2 (fun loader s => loader !! j = Some s) loaders samples /\
  exists combined,
    concat_samples samples = Ok combined /\
    dom combined = keys /\
    forall key, key ∈ keys ->
      combined !! key = Some (concat (block key <$> samples)) /\
      length (block key combined) =
      sum_list_with (fun s => length (block key s)) samples.
Proof.
  intros Hj Hkeys. destruct loaders as [|l ls]; [done|].
  unfold zip_star in Hj. apply zip_steps_lookup in Hj.
  split; [done|].
  assert (Forall (fun s : Sample => dom s = keys) samples) as Hdom.
  { apply Forall_forall. intros s Hs.
    apply list_elem_of_lookup in Hs as [i Hi].
    destruct (Forall2_lookup_r _ _ _ _ _ Hj Hi) as (loader & Hloader & Hs).
    eapply Forall_lookup_1 in Hkeys; [|exact Hloader].
    eapply Forall_forall in Hkeys; [exact Hkeys|].
    apply list_elem_of_lookup. eauto. }
  inversion Hj as [|l' s0 ls' rest _ _ E1 E2]; subst.
  apply Forall_cons in Hdom as [Hs0 Hrest].
  destruct (cat_rest_blocks rest s0) as (combined & Hc & Hd & Hl).
  { eapply Forall_impl; [exact Hrest|]. intros o Ho. simpl in Ho.
    by rewrite Hs0, Ho. }
  exists combined. split; [done|]. split; [by rewrite Hd|].
  intros key Hkey. subst keys. apply elem_of_dom in Hkey as [x Hx].
  assert (combined !! key = Some (concat (block key <$> s0 :: rest))) as Hcomb.
  { rewrite (Hl key x Hx). simpl. by rewrite (block_Some _ _ _ Hx). }
  split; [done|].
  rewrite (block_Some _ _ _ Hcomb). apply length_concat_blocks.
Qed.

Lemma concat_samples_lockstep_witness :
  exists combined,
    concat_samples [ {[ "real" := [[3]; [4]]; "sim" := [[5]; [6]] ]};
                     {[ "real" := [[9]]; "sim" := [[10]] ]} ] = Ok combined /\
    combined !! "real" = Some [[3]; [4]; [9]] /\
    combined !! "sim" = Some [[5]; [6]; [10]].
Proof.
  destruct (concat_samples_lockstep two_task_loaders 1
              [ {[ "real" := [[3]; [4]]; "sim" := [[5]; [6]] ]};
                {[ "real" := [[9]]; "sim" := [[10]] ]} ]
              {[ "real"; "sim" ]})
    as (_ & combined & Hc & _ & Hl).
  - reflexivity.
  - unfold two_task_loaders. repeat constructor; set_solver.
  - exists combined. split.
    + exact Hc.
    + split.
      * destruct (Hl "real") as [Hreal _]; [set_solver|]. exact Hreal.
      * destruct (Hl "sim") as [Hsim _]; [set_solver|]. exact Hsim.
Defined.

End ConcatSamples.

(** ** The adversarial training step *)

Section TrainStep.
Import train_multi_task.
Context `{Framework}.

(** What one step with a discriminator does to the trainer. *)
Lemma train_step_gan (t : trainer) (sample : Sample) (d : Phi)
    (im_real im_sim : tensor) :
  discriminator t = Some d ->
  sample !! "real" = Some im_real ->
  sample !! "sim" = Some im_sim ->
  let pred_sim := forward (model t) (training t) im_real in
  let gan_gt_real := ones (length im_real) (out_size d) in
  let gan_gt_fake := zeros (length im_real) (out_size d) in
  let loss :=
    (1 # 100) * MSELoss (discriminate d pred_sim im_real) gan_gt_real
    + L1Loss pred_sim im_sim in
  let loss_d :=
    (1 # 2) * (MSELoss (discriminate d im_sim im_real) gan_gt_real
               + MSELoss (discriminate d (detach pred_sim) im_real) gan_gt_fake) in
  train_step sample t =
  Done tt
    (set_trace (trace t ++ [EvForward Train (training t); EvGenStep loss;
                            EvDiscStep loss_d])
       (set_discriminator
          (Some (optimiser_discrim_step d im_sim im_real (detach pred_sim)))
          (set_running_loss (running_loss t ++ [loss])
             (set_model
                (optimiser_step (scheduler t) (model t) (Some d) im_real im_sim)
                t)))).
Proof.
  intros Hd Hreal Hsim. cbv zeta.
  unfold train_step, getitem, bind, get, emit, modify, ret.
  rewrite Hreal, Hsim. simpl. rewrite Hd.
  unfold set_trace, set_discriminator, set_running_loss, set_model. simpl.
  rewrite <- !app_assoc. reflexivity.
Qed.

(** C5.  With a discriminator, the loss that a training step minimises for
    the generator (and appends to [running_loss]) is 0.01 times the
    adversarial loss of the generated image plus 1 times the L1 loss between
    the generated and the target simulated image. *)
Theorem generator_loss_weighted (t : trainer) (sample : Sample) (d : Phi)
    (im_real im_sim : tensor) :
  discriminator t = Some d ->
  sample !! "real" = Some im_real ->
  sample !! "sim" = Some im_sim ->
  let pred_sim := forward (model t) (training t) im_real in
  exists t' loss loss_d,
    train_step sample t = Done tt t' /\
    trace t' = trace t ++ [EvForward Train (training t); EvGenStep loss;
                           EvDiscStep loss_d] /\
    running_loss t' = running_loss t ++ [loss] /\
    loss == (1 # 100) * adversarial_loss d pred_sim im_real
            + 1 * L1Loss pred_sim im_sim.
Proof.
  intros Hd Hreal Hsim pred_sim.
  eexists _, _, _. split; [exact (train_step_gan t sample d _ _ Hd Hreal Hsim)|].
  split; [reflexivity|]. split; [reflexivity|].
  unfold adversarial_loss. fold pred_sim. ring.
Qed.

(** C6.  In the same step, after the generator's update, the discriminator
    is updated on its own: the generator's parameters are the ones its own
    step produced, and the discriminator's loss is 0.5 times the sum of the
    real-pair loss and the fake-pair loss, the latter on the detached
    output that the generator gave before its update, both conditioned on
    the same real image. *)
Theorem discriminator_loss_blend (t : trainer) (sample : Sample) (d : Phi)
    (im_real im_sim : tensor) :
  discriminator t = Some d ->
  sample !! "real" = Some im_real ->
  sample !! "sim" = Some im_sim ->
  let pred_sim := forward (model t) (training t) im_real in
  exists t' loss loss_d,
    train_step sample t = Done tt t' /\
    trace t' = trace t ++ [EvForward Train (training t); EvGenStep loss;
                           EvDiscStep loss_d] /\
    model t' = optimiser_step (scheduler t) (model t) (Some d) im_real im_sim /\
    discriminator t' =
      Some (optimiser_discrim_step d im_sim im_real (detach pred_sim)) /\
    loss_d == (1 # 2) * (real_pair_loss d im_sim im_real
                         + fake_pair_loss d pred_sim im_real).
Proof.
  intros Hd Hreal Hsim pred_sim.
  eexists _, _, _. split; [exact (train_step_gan t sample d _ _ Hd Hreal Hsim)|].
  split; [reflexivity|]. split; [reflexivity|]. split; [reflexivity|].
  unfold real_pair_loss, fake_pair_loss. fold pred_sim. reflexivity.
Qed.

End TrainStep.

(** ** The multi-task trainer: what each method keeps and what it logs *)

Section MultiTaskFrames.
Import train_multi_task.
Context `{Framework}.

Lemma grows_refl ok t : grows ok t t.
Proof. exists []. by rewrite app_nil_r. Qed.

Lemma grows_emit ok t0 t ev :
  grows ok t0 t -> ok ev -> grows ok t0 (set_trace (trace t ++ [ev]) t).
Proof.
  intros (evs & Ht & Hok) Hev. exists (evs ++ [ev]). simpl.
  rewrite Ht, app_assoc. split; [done|]. apply Forall_app. auto.
Qed.

Lemma grows_trans ok t0 t1 t2 : grows ok t0 t1 -> grows ok t1 t2 -> grows ok t0 t2.
Proof.
  intros (evs1 & H1 & Hok1) (evs2 & H2 & Hok2). exists (evs1 ++ evs2).
  rewrite H2, H1, app_assoc. split; [done|]. apply Forall_app. auto.
Qed.

Lemma grows_weaken (ok ok' : event -> Prop) t0 t :
  (forall ev, ok ev -> ok' ev) -> grows ok t0 t -> grows ok' t0 t.
Proof.
  intros Himp (evs & Ht & Hok). exists evs. split; [done|].
  eapply Forall_impl; eauto.
Qed.

Lemma train_step_frame (t0 : trainer) (sample : Sample) :
  hoare (train_frame t0) (train_step sample)
        (fun _ => train_frame t0) (fun _ => train_frame t0).
Proof.
  intros t (Hc & Hg).
  assert (training t = training t0) as Hm by (unfold ctl in Hc; congruence).
  unfold train_step, getitem, bind, get, emit, modify, ret, raise.
  destruct (sample !! "real") as [im_real|]; [|done].
  destruct (sample !! "sim") as [im_sim|]; [|done]. simpl.
  destruct (discriminator t) as [d|]; simpl.
  - split; [exact Hc|].
    apply (grows_trans _ _ t); [done|].
    eexists. simpl. split; [rewrite <- !app_assoc; reflexivity|].
    simpl. repeat constructor. done.
  - split; [exact Hc|].
    apply (grows_trans _ _ t); [done|].
    eexists. simpl. split; [rewrite <- !app_assoc; reflexivity|].
    simpl. repeat constructor. done.
Qed.

Lemma train_loop_frame (t0 : trainer) (steps : list (list Sample)) :
  hoare (train_frame t0)
        (for_each steps
           (fun samples => sample <- lift (concat_samples samples) ;; train_step sample))
        (fun _ => train_frame t0) (fun _ => train_frame t0).
Proof.
  apply hoare_for_each. intros samples _.
  eapply hoare_bind with (R := fun _ => train_frame t0).
  - apply hoare_lift. intros s Hs. by destruct (concat_samples samples).
  - intros sample. apply train_step_frame.
Qed.

(** *** Validation *)

Lemma set_trace_id (t : trainer) : set_trace (trace t) t = t.
Proof. by destruct t. Qed.

Lemma set_trace_same (t0 t : trainer) (tr : list event) :
  t = set_trace (trace t) t0 -> set_trace tr t = set_trace tr t0.
Proof. intros ->. reflexivity. Qed.

(** With both images in every batch, the validation loop returns the
    metrics of all batches and logs one forward pass per batch, in the mode
    the model is in. *)
Lemma val_batches_Done (batches : list Sample) (acc : list Q * list Q)
    (t : trainer) :
  Forall has_images batches ->
  val_batches acc batches t =
  Done (acc.1 ++ (batch_mse (model t) (training t) <$> batches),
        acc.2 ++ (batch_ssim (model t) (training t) <$> batches))
       (set_trace (trace t ++ replicate (length batches)
                                        (EvForward Val (training t))) t).
Proof.
  revert acc t. induction batches as [|s batches IH]; intros acc t Hall.
  - simpl. rewrite !app_nil_r, set_trace_id. by destruct acc.
  - apply Forall_cons in Hall as [[[im_real Hr] [im_sim Hs]] Hall].
    simpl. unfold bind at 1. unfold val_batch, getitem, bind, get, emit, modify, ret.
    rewrite Hr, Hs. simpl. rewrite (IH _ _ Hall). simpl.
    unfold batch_mse, batch_ssim.
    rewrite (block_Some _ _ _ Hr), (block_Some _ _ _ Hs).
    rewrite <- !app_assoc. simpl. unfold set_trace. simpl.
    rewrite <- ?app_assoc. reflexivity.
Qed.

Lemma val_batches_frame (t0 : trainer) (batches : list Sample)
    (acc : list Q * list Q) :
  hoare (val_frame t0) (val_batches acc batches)
        (fun _ => val_frame t0) (fun _ => val_frame t0).
Proof.
  revert acc. induction batches as [|s batches IH]; intros acc; simpl.
  - by apply hoare_ret.
  - eapply hoare_bind; [|intros acc'; apply IH].
    intros t [Ht Hg]. unfold val_batch, getitem, bind, get, emit, modify, ret, raise.
    destruct (s !! "real"); [|done]. destruct (s !! "sim"); [|done]. simpl.
    split.
    + simpl. by apply set_trace_same.
    + apply grows_emit; [done|]. rewrite Ht. reflexivity.
Qed.

(** [val_all] on a validation set that is not empty. *)
Lemma val_all_Done (e : nat) (loaders : list (list Sample)) (t : trainer) :
  concat loaders <> [] ->
  Forall has_images (concat loaders) ->
  let batches := concat loaders in
  let n := inject_Z (Z.of_nat (length batches)) in
  let mse := Qsum (batch_mse (model t) false <$> batches) / n in
  let s := Qsum (batch_ssim (model t) false <$> batches) / n in
  val_all e loaders t =
  Done tt
    (set_trace (trace t ++ replicate (length batches) (EvForward Val false)
                        ++ [EvLogStats e (mean (running_loss t)) mse s])
       (set_ssim s (set_MSE mse (set_training true
          (set_last_ssim (ssim t) t))))).
Proof.
  intros Hne Hall. cbv zeta.
  unfold val_all, bind at 1 2 3, modify at 1 2.
  rewrite (val_batches_Done _ _ _ Hall). simpl.
  destruct (concat loaders) as [|b batches]; [done|]. simpl.
  rewrite !length_fmap. unfold emit, bind, modify, ret, get, set_trace.
  cbn [trace model training discriminator epochs running_loss ssim _last_ssim
       MSE step_num scheduler epoch val_every set_training set_MSE set_ssim
       set_last_ssim].
  rewrite <- ?app_assoc. reflexivity.
Qed.

(** [val_all] in general: when it returns, the model is back in training
    mode, the previous score is kept in [_last_ssim], and the trace has
    grown by forward passes in evaluation mode and the logged averages;
    when it raises, only such forward passes were added. *)
Lemma val_all_outcome (e : nat) (loaders : list (list Sample)) (t0 : trainer) :
  match val_all e loaders t0 with
  | Done _ t =>
      training t = true /\ _last_ssim t = ssim t0 /\ knobs t = knobs t0 /\
      exists evs ml,
        trace t = trace t0 ++ evs ++ [EvLogStats e ml (MSE t) (ssim t)] /\
        Forall (fun ev => ev = EvForward Val false) evs
  | Raised _ t => grows (fun ev => ev = EvForward Val false) t0 t
  end.
Proof.
  unfold val_all, bind at 1 2 3, modify at 1 2.
  set (t1 := set_training false (set_last_ssim (ssim t0) t0)).
  pose proof (val_batches_frame t1 (concat loaders) ([], []) t1) as Hv.
  destruct (val_batches ([], []) (concat loaders) t1) as [acc t2|ex t2].
  - destruct Hv as [Ht2 (evs & Htr & Hevs)].
    { split; [by rewrite set_trace_id | apply grows_refl]. }
    assert (grows (fun ev => ev = EvForward Val false) t0 (set_training true t2))
      as Hg by (by exists evs).
    unfold bind, modify, average, get, emit, ret, raise. simpl.
    destruct acc.1 as [|m ms]; [exact Hg|]. simpl.
    destruct acc.2 as [|s ss]; [exact Hg|]. simpl.
    rewrite Ht2. simpl. split; [done|]. split; [done|]. split; [done|].
    eexists evs, _. rewrite Htr. simpl. rewrite <- app_assoc. done.
  - destruct Hv as [_ (evs & Htr & Hevs)].
    { split; [by rewrite set_trace_id | apply grows_refl]. }
    by exists evs.
Qed.

End MultiTaskFrames.

(** ** Learning-rate staging *)

Section LearningRate.
Context `{Framework}.

Lemma step_lr_sorted : StronglySorted Qlt step_lr.
Proof.
  unfold step_lr. repeat constructor; reflexivity.
Qed.

Lemma step_epochs_clamped (epochs step_num : nat) :
  exists limit,
    step_epochs epochs !! Nat.min (length (step_epochs epochs) - 1)%nat step_num
    = Some limit.
Proof.
  apply lookup_lt_is_Some_2. unfold step_epochs. cbn [length]. lia.
Qed.

(** The method of the multi-task trainer. *)
Lemma check_to_lower_learning_rate_spec (t : train_multi_task.trainer) :
  (train_multi_task.step_num t < length step_lr)%nat ->
  exists threshold limit t',
    step_lr !! train_multi_task.step_num t = Some threshold /\
    train_multi_task.check_to_lower_learning_rate t = Done tt t' /\
    train_multi_task.step_num t' =
      (train_multi_task.step_num t
       + Nat.b2n (Qltb threshold (train_multi_task.ssim t)))%nat /\
    step_epochs (train_multi_task.epochs t)
      !! Nat.min (length (step_epochs (train_multi_task.epochs t)) - 1)%nat
                 (train_multi_task.step_num t') = Some limit /\
    train_multi_task.scheduler t' =
      (train_multi_task.scheduler t
       + Nat.b2n (Qltb threshold (train_multi_task.ssim t))
       + Nat.b2n (limit <? train_multi_task.epoch t))%nat /\
    train_multi_task.ssim t' = train_multi_task.ssim t /\
    train_multi_task.trace t' = train_multi_task.trace t /\
    train_multi_task.training t' = train_multi_task.training t /\
    train_multi_task.epochs t' = train_multi_task.epochs t /\
    train_multi_task.val_every t' = train_multi_task.val_every t.
Proof.
  intros Hlt. apply lookup_lt_is_Some in Hlt as [threshold Hthr].
  unfold train_multi_task.check_to_lower_learning_rate, train_multi_task.index,
    bind, get, modify, ret.
  rewrite Hthr.
  destruct (Qltb threshold (train_multi_task.ssim t)) eqn:Hb; simpl.
  - destruct (step_epochs_clamped (train_multi_task.epochs t)
                (S (train_multi_task.step_num t))) as [limit Hlim].
    simpl in Hlim. rewrite Hlim.
    exists threshold, limit. rewrite Hb.
    destruct (limit <? train_multi_task.epoch t)%nat; simpl;
      eexists; repeat split; simpl; try rewrite Nat.add_1_r;
      try rewrite Nat.add_0_r; try done; lia.
  - destruct (step_epochs_clamped (train_multi_task.epochs t)
                (train_multi_task.step_num t)) as [limit Hlim].
    simpl in Hlim. rewrite Hlim.
    exists threshold, limit. rewrite Hb.
    destruct (limit <? train_multi_task.epoch t)%nat; simpl;
      eexists; repeat split; simpl; try rewrite Nat.add_0_r; try done; lia.
Qed.

(** The same block in the loop of the supervised trainer. *)
Lemma lower_learning_rate_spec (t : train_unet.trainer) (epoch step_num : nat) :
  (step_num < length step_lr)%nat ->
  exists threshold limit step_num' t',
    step_lr !! step_num = Some threshold /\
    train_unet.lower_learning_rate epoch step_num t = Done step_num' t' /\
    step_num' = (step_num + Nat.b2n (Qltb threshold (train_unet.ssim t)))%nat /\
    step_epochs (train_unet.epochs t)
      !! Nat.min (length (step_epochs (train_unet.epochs t)) - 1)%nat step_num'
      = Some limit /\
    train_unet.scheduler t' =
      (train_unet.scheduler t
       + Nat.b2n (Qltb threshold (train_unet.ssim t))
       + Nat.b2n (limit <? epoch))%nat /\
    train_unet.ssim t' = train_unet.ssim t /\
    train_unet.trace t' = train_unet.trace t /\
    train_unet.training t' = train_unet.training t /\
    train_unet.epochs t' = train_unet.epochs t /\
    train_unet.val_every t' = train_unet.val_every t /\
    train_unet.save_model_every t' = train_unet.save_model_every t.
Proof.
  intros Hlt. apply lookup_lt_is_Some in Hlt as [threshold Hthr].
  unfold train_unet.lower_learning_rate, train_unet.index,
    bind, get, modify, ret.
  rewrite Hthr.
  destruct (Qltb threshold (train_unet.ssim t)) eqn:Hb; simpl.
  - destruct (step_epochs_clamped (train_unet.epochs t) (step_num + 1))
      as [limit Hlim].
    simpl in Hlim. rewrite Hlim.
    exists threshold, limit. rewrite Hb.
    destruct (limit <? epoch)%nat; simpl;
      eexists _, _; repeat split; simpl; try rewrite Nat.add_0_r; try done; lia.
  - destruct (step_epochs_clamped (train_unet.epochs t) step_num) as [limit Hlim].
    simpl in Hlim. rewrite Hlim.
    exists threshold, limit. rewrite Hb.
    destruct (limit <? epoch)%nat; simpl;
      eexists _, _; repeat split; simpl; try rewrite Nat.add_0_r; try done; lia.
Qed.

(** C3.  Both trainers keep the sorted list [step_lr] of SSIM thresholds and
    an index into it.  In every epoch, exactly when the current SSIM exceeds
    the threshold at the index, the scheduler takes one decay step and the
    index advances by one: with [threshold < ssim] the index is the next
    one, with [ssim <= threshold] it stays.  Apart from that, exactly when
    the epoch exceeds the entry of [step_epochs] that the index (as it then
    stands, clamped to the last entry) selects, the scheduler takes one
    more decay step and the index stays: the four cases give two, one, one
    and no decay step. *)
Theorem learning_rate_staging (t : train_multi_task.trainer)
    (u : train_unet.trainer) (epoch step_num : nat) :
  (train_multi_task.step_num t < length step_lr)%nat ->
  (step_num < length step_lr)%nat ->
  StronglySorted Qlt step_lr /\
  (exists threshold limit t',
     step_lr !! train_multi_task.step_num t = Some threshold /\
     train_multi_task.check_to_lower_learning_rate t = Done tt t' /\
     (threshold < train_multi_task.ssim t ->
      train_multi_task.step_num t' = S (train_multi_task.step_num t)) /\
     (train_multi_task.ssim t <= threshold ->
      train_multi_task.step_num t' = train_multi_task.step_num t) /\
     step_epochs (train_multi_task.epochs t)
       !! Nat.min (length (step_epochs (train_multi_task.epochs t)) - 1)%nat
                  (train_multi_task.step_num t') = Some limit /\
     (threshold < train_multi_task.ssim t ->
      (limit < train_multi_task.epoch t)%nat ->
      train_multi_task.scheduler t' = (train_multi_task.scheduler t + 2)%nat) /\
     (threshold < train_multi_task.ssim t ->
      (train_multi_task.epoch t <= limit)%nat ->
      train_multi_task.scheduler t' = (train_multi_task.scheduler t + 1)%nat) /\
     (train_multi_task.ssim t <= threshold ->
      (limit < train_multi_task.epoch t)%nat ->
      train_multi_task.scheduler t' = (train_multi_task.scheduler t + 1)%nat) /\
     (train_multi_task.ssim t <= threshold ->
      (train_multi_task.epoch t <= limit)%nat ->
      train_multi_task.scheduler t' = train_multi_task.scheduler t)) /\
  (exists threshold limit step_num' u',
     step_lr !! step_num = Some threshold /\
     train_unet.lower_learning_rate epoch step_num u = Done step_num' u' /\
     (threshold < train_unet.ssim u -> step_num' = S step_num) /\
     (train_unet.ssim u <= threshold -> step_num' = step_num) /\
     step_epochs (train_unet.epochs u)
       !! Nat.min (length (step_epochs (train_unet.epochs u)) - 1)%nat step_num'
       = Some limit /\
     (threshold < train_unet.ssim u -> (limit < epoch)%nat ->
      train_unet.scheduler u' = (train_unet.scheduler u + 2)%nat) /\
     (threshold < train_unet.ssim u -> (epoch <= limit)%nat ->
      train_unet.scheduler u' = (train_unet.scheduler u + 1)%nat) /\
     (train_unet.ssim u <= threshold -> (limit < epoch)%nat ->
      train_unet.scheduler u' = (train_unet.scheduler u + 1)%nat) /\
     (train_unet.ssim u <= threshold -> (epoch <= limit)%nat ->
      train_unet.scheduler u' = train_unet.scheduler u)).
Proof.
  intros Ht Hu. split; [apply step_lr_sorted|]. split.
  - destruct (check_to_lower_learning_rate_spec t Ht)
      as (threshold & limit & t' & Hthr & Hrun & Hidx & Hlim & Hsched & _).
    exists threshold, limit, t'.
    split; [exact Hthr|]. split; [exact Hrun|].
    rewrite Hidx, Hsched.
    split; [intros Habove%Qltb_lt; rewrite Habove; simpl; lia|].
    split; [intros Hbelow%Qltb_ge; rewrite Hbelow; simpl; lia|].
    split; [by rewrite <- Hidx|].
    split; [|split; [|split]].
    + intros Habove%Qltb_lt Hlate%Nat.ltb_lt. rewrite Habove, Hlate. simpl. lia.
    + intros Habove%Qltb_lt Hearly%Nat.ltb_ge. rewrite Habove, Hearly. simpl. lia.
    + intros Hbelow%Qltb_ge Hlate%Nat.ltb_lt. rewrite Hbelow, Hlate. simpl. lia.
    + intros Hbelow%Qltb_ge Hearly%Nat.ltb_ge. rewrite Hbelow, Hearly. simpl. lia.
  - destruct (lower_learning_rate_spec u epoch step_num Hu)
      as (threshold & limit & n' & u' & Hthr & Hrun & Hidx & Hlim & Hsched & _).
    exists threshold, limit, n', u'.
    split; [exact Hthr|]. split; [exact Hrun|].
    rewrite Hsched.
    split; [intros Habove%Qltb_lt; rewrite Hidx, Habove; simpl; lia|].
    split; [intros Hbelow%Qltb_ge; rewrite Hidx, Hbelow; simpl; lia|].
    split; [exact Hlim|].
    split; [|split; [|split]].
    + intros Habove%Qltb_lt Hlate%Nat.ltb_lt. rewrite Habove, Hlate. simpl. lia.
    + intros Habove%Qltb_lt Hearly%Nat.ltb_ge. rewrite Habove, Hearly. simpl. lia.
    + intros Hbelow%Qltb_ge Hlate%Nat.ltb_lt. rewrite Hbelow, Hlate. simpl. lia.
    + intros Hbelow%Qltb_ge Hearly%Nat.ltb_ge. rewrite Hbelow, Hearly. simpl. lia.
Qed.

End LearningRate.

(** ** The multi-task trainer: one epoch *)

Section MultiTaskEpoch.
Import train_multi_task.
Context `{Framework}.

Lemma bind_eq {S A B} (m : M S A) (k : A -> M S B) (s : S) :
  bind m k s =
  match m s with
  | Done a s' => k a s'
  | Raised e s' => Raised e s'
  end.
Proof. reflexivity. Qed.

Lemma maybe_save_model_eq (t : trainer) :
  maybe_save_model t =
  Done tt (if Qltb (_last_ssim t) (ssim t)
           then set_trace (trace t ++ [EvSaveModel best_generator]) t
           else t).
Proof.
  unfold maybe_save_model, bind, get. by destruct (Qltb _ _).
Qed.

(** The learning-rate check touches neither the score nor the trace, and
    raises only when the index has left the list. *)
Lemma check_to_lower_learning_rate_outcome (t : trainer) :
  match check_to_lower_learning_rate t with
  | Done _ t' =>
      (step_num t < length step_lr)%nat /\
      ssim t' = ssim t /\ trace t' = trace t /\ training t' = training t /\
      epochs t' = epochs t /\ val_every t' = val_every t
  | Raised _ t' => (length step_lr <= step_num t)%nat /\ t' = t
  end.
Proof.
  destruct (decide (step_num t < length step_lr)%nat) as [Hlt|Hge].
  - destruct (check_to_lower_learning_rate_spec t Hlt)
      as (thr & lim & t' & _ & -> & _ & _ & _ & ? & ? & ? & ? & ?).
    done.
  - unfold check_to_lower_learning_rate, index, bind, get, raise.
    rewrite (lookup_ge_None_2 step_lr (step_num t)) by lia.
    split; [lia|done].
Qed.

Lemma best_saves_app (tr1 tr2 : list event) :
  best_saves (tr1 ++ tr2) = (best_saves tr1 + best_saves tr2)%nat.
Proof. unfold best_saves. by rewrite List.filter_app, length_app. Qed.

Lemma best_saves_none (ok : event -> Prop) (tr : list event) :
  (forall ev, ok ev -> is_best_save ev = false) ->
  Forall ok tr -> best_saves tr = 0%nat.
Proof.
  intros Hok. induction 1 as [|ev tr Hev _ IH]; [done|].
  unfold best_saves in *. simpl. by rewrite (Hok ev Hev).
Qed.

Lemma train_event_body (s : Q) (ev : event) : train_event true ev -> body_event s ev.
Proof. destruct ev as [| [] ? | | | |]; simpl; try done. Qed.

Lemma val_event_body (s : Q) (ev : event) : ev = EvForward Val false -> body_event s ev.
Proof. intros ->. done. Qed.

Lemma body_event_quiet (s : Q) (ev : event) : body_event s ev -> quiet_event ev.
Proof. intros (? & ? & _). done. Qed.

Lemma train_event_not_save (ev : event) : train_event true ev -> is_best_save ev = false.
Proof. by destruct ev as [| [] ? | | | |]. Qed.

Lemma val_event_not_save (ev : event) : ev = EvForward Val false -> is_best_save ev = false.
Proof. by intros ->. Qed.

Lemma train_events_quiet (evs : list event) :
  Forall (train_event true) evs -> Forall quiet_event evs.
Proof.
  intros Hevs. eapply Forall_impl; [exact Hevs|]. intros ev Hev.
  exact (body_event_quiet 0 _ (train_event_body 0 _ Hev)).
Qed.

Lemma val_events_quiet (evs : list event) :
  Forall (fun ev => ev = EvForward Val false) evs -> Forall quiet_event evs.
Proof.
  intros Hevs. eapply Forall_impl; [exact Hevs|]. intros ev Hev.
  exact (body_event_quiet 0 _ (val_event_body 0 _ Hev)).
Qed.

(** The end of the loop body: the learning-rate check and the test of the
    cutoff. *)
Lemma epoch_tail_outcome (t : trainer) :
  match (check_to_lower_learning_rate ;;;
         t <- get ;; ret (Qltb (9999 # 10000) (ssim t))) t with
  | Done brk t' =>
      brk = Qltb (9999 # 10000) (ssim t') /\ ssim t' = ssim t /\
      trace t' = trace t /\ training t' = training t /\
      epochs t' = epochs t /\ val_every t' = val_every t
  | Raised _ t' => t' = t
  end.
Proof.
  rewrite bind_eq. pose proof (check_to_lower_learning_rate_outcome t) as Hc.
  destruct (check_to_lower_learning_rate t) as [[] t'|ex t'].
  - destruct Hc as (_ & ? & ? & ? & ? & ?). unfold bind, get, ret. done.
  - by destruct Hc.
Qed.

(** One pass through the loop body, started in training mode. *)
Lemma epoch_body_outcome (train_loaders val_loaders : nat -> list (list Sample))
    (e : nat) (t0 : trainer) :
  training t0 = true ->
  match epoch_body train_loaders val_loaders e t0 with
  | Done brk t =>
      training t = true /\ brk = Qltb (9999 # 10000) (ssim t) /\
      val_every t = val_every t0 /\ epochs t = epochs t0 /\
      exists evs,
        trace t = trace t0 ++ EvEpoch e :: evs /\
        Forall (body_event (ssim t)) evs /\
        ((e mod val_every t0 = 0)%nat ->
         best_saves evs = Nat.b2n (Qltb (ssim t0) (ssim t))) /\
        ((e mod val_every t0 <> 0)%nat ->
         ssim t = ssim t0 /\ best_saves evs = 0%nat)
  | Raised _ t =>
      exists evs, trace t = trace t0 ++ EvEpoch e :: evs /\ Forall quiet_event evs
  end.
Proof.
  intros Hmode. unfold epoch_body.
  rewrite bind_eq. unfold emit at 1, modify at 1.
  rewrite bind_eq. unfold modify at 1.
  rewrite bind_eq. unfold modify at 1.
  set (t1 := set_running_loss [] (set_epoch e (set_trace (trace t0 ++ [EvEpoch e]) t0))).
  rewrite bind_eq.
  pose proof (train_loop_frame t1 (zip_star (train_loaders e)) t1
                (conj eq_refl (grows_refl _ _))) as Htrain.
  assert (forall t2, train_frame t1 t2 ->
            training t2 = true /\ ssim t2 = ssim t0 /\ epoch t2 = e /\
            val_every t2 = val_every t0 /\ epochs t2 = epochs t0 /\
            exists evs1, trace t2 = trace t0 ++ EvEpoch e :: evs1 /\
                         Forall (train_event true) evs1) as Hframe.
  { intros t2 [Hc (evs1 & Htr & Hevs)]. unfold ctl, knobs in Hc.
    injection Hc as Hc1 Hc2 Hc3 Hc4 Hc5 Hc6 Hc7 Hc8.
    simpl in *. rewrite Hmode in *. repeat split; try done.
    exists evs1. rewrite Htr, <- app_assoc. done. }
  destruct (for_each _ _ t1) as [[] t2|ex t2]; apply Hframe in Htrain
    as (Hm2 & Hs2 & He2 & Hv2 & Hep2 & evs1 & Htr2 & Hevs1); clear Hframe.
  2:{ exists evs1. split; [done|]. by apply train_events_quiet. }
  rewrite bind_eq. unfold get at 1. rewrite bind_eq. rewrite He2, Hv2.
  unfold pymod. destruct (val_every t0) as [|v] eqn:Hv.
  { exists evs1. split; [done|]. by apply train_events_quiet. }
  unfold ret at 1. rewrite bind_eq.
  destruct (e mod S v =? 0)%nat eqn:Hmod.
  - apply Nat.eqb_eq in Hmod.
    rewrite bind_eq.
    pose proof (val_all_outcome (e + 1) (val_loaders e) t2) as Hval.
    destruct (val_all (e + 1) (val_loaders e) t2) as [[] t3|ex t3].
    2:{ destruct Hval as (evs2 & Htr3 & Hevs2). exists (evs1 ++ evs2).
        rewrite Htr3, Htr2, <- app_assoc. split; [done|].
        apply Forall_app. split;
          [by apply train_events_quiet | by apply val_events_quiet]. }
    destruct Hval as (Hm3 & Hl3 & Hk3 & evs2 & ml & Htr3 & Hevs2).
    rewrite maybe_save_model_eq.
    set (t4 := if Qltb (_last_ssim t3) (ssim t3)
               then set_trace (trace t3 ++ [EvSaveModel best_generator]) t3
               else t3).
    set (saves := if Qltb (ssim t0) (ssim t3)
                  then [EvSaveModel best_generator] else []).
    assert (training t4 = true /\ ssim t4 = ssim t3 /\
            val_every t4 = S v /\ epochs t4 = epochs t0 /\
            trace t4 = trace t0 ++ EvEpoch e ::
              (evs1 ++ evs2 ++ [EvLogStats (e + 1) ml (MSE t3) (ssim t3)] ++ saves))
      as (Hm4 & Hs4 & Hv4 & Hep4 & Htr4).
    { unfold knobs in Hk3. injection Hk3 as Hk1 Hk2 Hk3 Hk4 Hk5.
      subst t4 saves. rewrite Hl3, Hs2.
      destruct (Qltb (ssim t0) (ssim t3)); simpl;
        rewrite Htr3, Htr2; repeat split; try congruence;
        rewrite <- ?app_assoc; simpl; rewrite <- ?app_assoc;
        try rewrite app_nil_r; reflexivity. }
    clearbody t4.
    pose proof (epoch_tail_outcome t4) as Htail.
    destruct ((check_to_lower_learning_rate ;;; _) t4) as [brk t5|ex t5].
    + destruct Htail as (Hb & Hs5 & Htr5 & Hm5 & Hep5 & Hv5).
      split; [congruence|]. split; [done|]. split; [congruence|].
      split; [congruence|]. eexists. split; [rewrite Htr5; exact Htr4|].
      rewrite Hs5, Hs4. split; [|split; [|done]].
      * apply Forall_app. split.
        { eapply Forall_impl; [exact Hevs1|]. intros ev. apply train_event_body. }
        apply Forall_app. split.
        { eapply Forall_impl; [exact Hevs2|]. intros ev. apply val_event_body. }
        apply Forall_app. split.
        { constructor; [|done]. split; [done|]. split; [done|].
          intros ? ? ? ? [= _ _ _ <-]. done. }
        subst saves. destruct (Qltb _ _); [|done].
        constructor; [|done]. done.
      * intros _. rewrite !best_saves_app.
        rewrite (best_saves_none _ _ train_event_not_save Hevs1).
        rewrite (best_saves_none _ _ val_event_not_save Hevs2).
        subst saves. by destruct (Qltb _ _).
    + subst t5. eexists. split; [exact Htr4|].
      apply Forall_app. split; [by apply train_events_quiet|].
      apply Forall_app. split; [by apply val_events_quiet|].
      apply Forall_app. split; [by constructor|].
      subst saves. destruct (Qltb _ _); [|done]. by constructor.
  - apply Nat.eqb_neq in Hmod. unfold ret at 1.
    pose proof (epoch_tail_outcome t2) as Htail.
    destruct ((check_to_lower_learning_rate ;;; _) t2) as [brk t5|ex t5].
    + destruct Htail as (Hb & Hs5 & Htr5 & Hm5 & Hep5 & Hv5).
      split; [congruence|]. split; [done|]. split; [congruence|].
      split; [congruence|]. exists evs1. split; [congruence|].
      split; [|split; [done|]].
      * eapply Forall_impl; [exact Hevs1|]. intros ev. apply train_event_body.
      * intros _. split; [congruence|].
        exact (best_saves_none _ _ train_event_not_save Hevs1).
    + subst t5. exists evs1. split; [done|]. by apply train_events_quiet.
Qed.

(** A validation followed by [maybe_save_model], as [start] calls them. *)
Lemma validate_and_save (e : nat) (loaders : list (list Sample)) (t : trainer) :
  concat loaders <> [] ->
  Forall has_images (concat loaders) ->
  let batches := concat loaders in
  let s := Qsum (batch_ssim (model t) false <$> batches)
           / inject_Z (Z.of_nat (length batches)) in
  exists t' ml mse,
    (val_all e loaders ;;; maybe_save_model) t = Done tt t' /\
    ssim t' = s /\
    trace t' = trace t ++ replicate (length batches) (EvForward Val false)
                       ++ EvLogStats e ml mse s
                          :: (if Qltb (ssim t) s
                              then [EvSaveModel best_generator] else []).
Proof.
  intros Hne Hall. cbv zeta.
  rewrite bind_eq, (val_all_Done e loaders t Hne Hall). cbv zeta.
  rewrite maybe_save_model_eq.
  cbn [_last_ssim ssim trace set_trace set_ssim set_MSE set_training set_last_ssim].
  destruct (Qltb (ssim t) _);
    eexists _, _, _; (split; [reflexivity|]); (split; [reflexivity|]);
    cbn [_last_ssim ssim trace set_trace set_ssim set_MSE set_training
         set_last_ssim];
    rewrite <- ?app_assoc; reflexivity.
Qed.

(** C1.  A validation on a validation set that is not empty is followed by
    exactly one save of the "best" checkpoint when its averaged SSIM is
    strictly above the SSIM the trainer held before it, and by none
    otherwise.  The SSIM held before it is the one of the preceding
    validation: an epoch that returns changes [ssim] only by validating, and
    saves "best" nowhere else. *)
Theorem best_checkpoint_policy (train_loaders val_loaders : nat -> list (list Sample))
    (e : nat) (t0 : trainer) :
  training t0 = true ->
  concat (val_loaders e) <> [] ->
  Forall has_images (concat (val_loaders e)) ->
  (exists t' evs,
     (val_all (e + 1) (val_loaders e) ;;; maybe_save_model) t0 = Done tt t' /\
     trace t' = trace t0 ++ evs /\
     (ssim t0 < ssim t' -> best_saves evs = 1%nat) /\
     (~ ssim t0 < ssim t' -> best_saves evs = 0%nat)) /\
  (forall brk t,
     epoch_body train_loaders val_loaders e t0 = Done brk t ->
     exists evs,
       trace t = trace t0 ++ EvEpoch e :: evs /\
       ((e mod val_every t0 = 0)%nat ->
        (ssim t0 < ssim t -> best_saves evs = 1%nat) /\
        (~ ssim t0 < ssim t -> best_saves evs = 0%nat)) /\
       ((e mod val_every t0 <> 0)%nat ->
        ssim t = ssim t0 /\ best_saves evs = 0%nat)).
Proof.
  intros Hmode Hne Hall. split.
  - destruct (validate_and_save (e + 1) (val_loaders e) t0 Hne Hall)
      as (t' & ml & mse & Hrun & Hs & Htr).
    exists t'. eexists. split; [exact Hrun|]. split; [exact Htr|].
    rewrite Hs. rewrite !best_saves_app.
    rewrite (best_saves_none (fun ev => ev = EvForward Val false))
      by (apply val_event_not_save || apply Forall_replicate; done).
    split; intros Hlt.
    + apply Qltb_lt in Hlt. by rewrite Hlt.
    + destruct (Qltb _ _) eqn:Hb; [|done]. by apply Qltb_lt in Hb.
  - intros brk t Hrun.
    pose proof (epoch_body_outcome train_loaders val_loaders e t0 Hmode) as Hb.
    rewrite Hrun in Hb. destruct Hb as (_ & _ & _ & _ & evs & Htr & _ & Hval & Hno).
    exists evs. split; [done|]. split; [|done].
    intros Hmod. rewrite (Hval Hmod). split; intros Hlt.
    + apply Qltb_lt in Hlt. by rewrite Hlt.
    + destruct (Qltb _ _) eqn:Hq; [|done]. by apply Qltb_lt in Hq.
Qed.

End MultiTaskEpoch.

(** ** The mean squared error *)

Section MSE.

Lemma Qsum_squares (x y : list Q) :
  Qsum (square (sub x y)) == Qsum (zip_with (fun p t => (p - t) ^ 2) x y).
Proof.
  revert y. induction x as [|a x IH]; intros [|b y]; try reflexivity.
  change (Qsum (square (sub (a :: x) (b :: y))))
    with ((a - b) * (a - b) + Qsum (square (sub x y))).
  change (Qsum (zip_with (fun p t => (p - t) ^ 2) (a :: x) (b :: y)))
    with ((a - b) ^ 2 + Qsum (zip_with (fun p t => (p - t) ^ 2) x y)).
  rewrite IH. ring.
Qed.

(** The per-batch validation metric of both trainers,
    [torch.square(pred_sim - im_sim).mean()], is the mean squared error. *)
Lemma validation_mse_is_mean_squared_error (pred_sim im_sim : tensor) :
  mean (square (sub (entries pred_sim) (entries im_sim)))
  == mean_squared_error (entries pred_sim) (entries im_sim).
Proof.
  unfold mean, mean_squared_error. rewrite Qsum_squares.
  assert (length (square (sub (entries pred_sim) (entries im_sim)))
          = length (zip (entries pred_sim) (entries im_sim))) as ->; [|reflexivity].
  unfold square, sub. by rewrite length_fmap, length_zip_with, length_zip.
Qed.

(** C2.  [get_mse] does not return the mean squared error: for a generated
    pixel 3 and a target pixel 1 it returns 2, the mean difference, where
    the mean of the squared differences is 4; so it is whether the
    generated image arrives as bytes or as floats.  (The validation metric
    of both trainers is the mean squared error, see
    [validation_mse_is_mean_squared_error].) *)
Theorem get_mse_not_squared :
  let generated := [[3]] in
  let image_sim := numpy.uint8 [1%nat] [1%Z] in
  (exists score,
     test_gan.get_mse (fun x => x) generated image_sim flat_uint8
       = Ok (score, generated) /\
     score == 2 /\
     ~ score == mean_squared_error (entries generated) (numpy.values image_sim)) /\
  (exists score,
     test_gan.get_mse (fun x => x) generated image_sim flat_float64
       = Ok (score, generated) /\
     score == 2 /\
     ~ score == mean_squared_error (entries generated) (numpy.values image_sim)) /\
  mean_squared_error (entries generated) (numpy.values image_sim) == 4.
Proof.
  cbv zeta. split; [|split].
  - eexists. split; [reflexivity|]. split; [reflexivity|].
    intros Heq. discriminate Heq.
  - eexists. split; [reflexivity|]. split; [reflexivity|].
    intros Heq. discriminate Heq.
  - reflexivity.
Qed.

End MSE.

(** ** The callbacks of the window *)

Section Callbacks.
Import GUI.

Lemma choose_image1_outcome (dialog : result (string * string)) (w : window) :
  exists w',
    choose_image1 dialog w = Done tt w' /\
    im1 w' = im1 w /\ im2 w' = im2 w /\
    match dialog with
    | Raise _ =>
        status_message w' = Some "Cancelled Load" /\
        image1_file w' = image1_file w /\ printed w' = printed w
    | Ok (path, _) =>
        image1_file w' = Some path /\ status_message w' = status_message w
    end.
Proof.
  unfold choose_image1, try_except, getOpenFileName, lift, bind, raise, ret,
    modify, showMessage, print.
  destruct dialog as [[path filter]|ex]; simpl.
  - destruct (decide (path <> "")); simpl; eexists; eauto.
  - eexists. eauto 10.
Qed.

Lemma choose_image2_outcome (dialog : result (string * string)) (w : window) :
  exists w',
    choose_image2 dialog w = Done tt w' /\
    im1 w' = im1 w /\ im2 w' = im2 w /\
    match dialog with
    | Raise _ =>
        status_message w' = Some "Cancelled Load" /\
        image2_file w' = image2_file w /\ printed w' = printed w
    | Ok (path, _) =>
        image2_file w' = Some path /\ status_message w' = status_message w
    end.
Proof.
  unfold choose_image2, try_except, getOpenFileName, lift, bind, raise, ret,
    modify, showMessage, print.
  destruct dialog as [[path filter]|ex]; simpl.
  - destruct (decide (path <> "")); simpl; eexists; eauto.
  - eexists. eauto 10.
Qed.

(** Whatever the file dialog does, each of the two callbacks returns: an
    exception raised by the dialog is taken by the handler of the callback,
    which puts "Cancelled Load" on the status bar; after a selection the
    path is recorded and the two pictures shown stay as they were. *)
Lemma callbacks_recover (dialog : result (string * string)) (w : window) :
  (exists w1,
     choose_image1 dialog w = Done tt w1 /\
     im1 w1 = im1 w /\ im2 w1 = im2 w /\
     (forall ex, dialog = Raise ex -> status_message w1 = Some "Cancelled Load") /\
     (forall path filter, dialog = Ok (path, filter) ->
        image1_file w1 = Some path /\ status_message w1 = status_message w)) /\
  (exists w2,
     choose_image2 dialog w = Done tt w2 /\
     im1 w2 = im1 w /\ im2 w2 = im2 w /\
     (forall ex, dialog = Raise ex -> status_message w2 = Some "Cancelled Load") /\
     (forall path filter, dialog = Ok (path, filter) ->
        image2_file w2 = Some path /\ status_message w2 = status_message w)).
Proof.
  split.
  - destruct (choose_image1_outcome dialog w) as (w1 & Hrun & H1 & H2 & Hd).
    exists w1. split; [done|]. split; [done|]. split; [done|]. split.
    + intros ex ->. by destruct Hd.
    + intros path filter ->. exact Hd.
  - destruct (choose_image2_outcome dialog w) as (w2 & Hrun & H1 & H2 & Hd).
    exists w2. split; [done|]. split; [done|]. split; [done|]. split.
    + intros ex ->. by destruct Hd.
    + intros path filter ->. exact Hd.
Qed.

End Callbacks.

(** ** The supervised trainer: what each method keeps and what it logs *)

Section UNetFrames.
Import train_unet.
Context `{Framework}.

Lemma unet_grows_refl ok t : unet_grows ok t t.
Proof. exists []. by rewrite app_nil_r. Qed.

Lemma unet_grows_emit ok t0 t ev :
  unet_grows ok t0 t -> ok ev -> unet_grows ok t0 (set_trace (trace t ++ [ev]) t).
Proof.
  intros (evs & Ht & Hok) Hev. exists (evs ++ [ev]). simpl.
  rewrite Ht, app_assoc. split; [done|]. apply Forall_app. auto.
Qed.

Lemma unet_grows_trans ok t0 t1 t2 :
  unet_grows ok t0 t1 -> unet_grows ok t1 t2 -> unet_grows ok t0 t2.
Proof.
  intros (evs1 & H1 & Hok1) (evs2 & H2 & Hok2). exists (evs1 ++ evs2).
  rewrite H2, H1, app_assoc. split; [done|]. apply Forall_app. auto.
Qed.

(** A training step keeps the frame; it raises only on a batch that lacks
    an image. *)
Lemma unet_train_step_frame (t0 : trainer) (sample : Sample) :
  hoare (unet_train_frame t0) (train_step sample)
        (fun _ => unet_train_frame t0)
        (fun _ t => unet_train_frame t0 t /\ ~ has_images sample).
Proof.
  intros t (Hc & Hg).
  assert (training t = training t0) as Hm by (unfold unet_ctl in Hc; congruence).
  unfold train_step, getitem, bind, get, emit, modify, ret, raise.
  destruct (sample !! "real") as [im_real|] eqn:Hr.
  2:{ split; [done|]. intros [[? ?] _]. congruence. }
  destruct (sample !! "sim") as [im_sim|] eqn:Hs.
  2:{ split; [done|]. intros [_ [? ?]]. congruence. }
  simpl. split; [exact Hc|].
  apply (unet_grows_trans _ _ t); [done|].
  eexists. simpl. split; [rewrite <- !app_assoc; reflexivity|].
  simpl. repeat constructor. done.
Qed.

Lemma unet_train_loop_frame (t0 : trainer) (samples : list Sample) :
  hoare (unet_train_frame t0) (for_each samples train_step)
        (fun _ => unet_train_frame t0)
        (fun _ t => unet_train_frame t0 t /\ ~ Forall has_images samples).
Proof.
  induction samples as [|s samples IH]; simpl.
  - by apply hoare_ret.
  - eapply hoare_bind.
    + eapply hoare_conseq; [apply (unet_train_step_frame t0 s)|done|done|].
      intros ex t [Hf Hno]. split; [done|]. intros Hall.
      apply Forall_cons in Hall as [? _]. done.
    + intros []. eapply hoare_conseq; [apply IH|done|done|].
      intros ex t [Hf Hno]. split; [done|]. intros Hall.
      apply Forall_cons in Hall as [_ ?]. done.
Qed.

(** *** Validation *)

Lemma unet_set_trace_id (t : trainer) : set_trace (trace t) t = t.
Proof. by destruct t. Qed.

Lemma unet_set_trace_same (t0 t : trainer) (tr : list event) :
  t = set_trace (trace t) t0 -> set_trace tr t = set_trace tr t0.
Proof. intros ->. reflexivity. Qed.

Lemma unet_val_batches_Done (batches : list Sample) (acc : list Q * list Q)
    (t : trainer) :
  Forall has_images batches ->
  val_batches acc batches t =
  Done (acc.1 ++ (batch_mse (model t) (training t) <$> batches),
        acc.2 ++ (batch_ssim (model t) (training t) <$> batches))
       (set_trace (trace t ++ replicate (length batches)
                                        (EvForward Val (training t))) t).
Proof.
  revert acc t. induction batches as [|s batches IH]; intros acc t Hall.
  - simpl. rewrite !app_nil_r, unet_set_trace_id. by destruct acc.
  - apply Forall_cons in Hall as [[[im_real Hr] [im_sim Hs]] Hall].
    simpl. unfold bind at 1. unfold val_batch, getitem, bind, get, emit, modify, ret.
    rewrite Hr, Hs. simpl. rewrite (IH _ _ Hall). simpl.
    unfold batch_mse, batch_ssim.
    rewrite (block_Some _ _ _ Hr), (block_Some _ _ _ Hs).
    rewrite <- !app_assoc. simpl. unfold set_trace. simpl.
    rewrite <- ?app_assoc. reflexivity.
Qed.

Lemma unet_val_batches_frame (t0 : trainer) (batches : list Sample)
    (acc : list Q * list Q) :
  hoare (unet_val_frame t0) (val_batches acc batches)
        (fun _ t => unet_val_frame t0 t /\ Forall has_images batches)
        (fun _ t => unet_val_frame t0 t /\ ~ Forall has_images batches).
Proof.
  revert acc. induction batches as [|s batches IH]; intros acc; simpl.
  - apply hoare_ret. done.
  - eapply hoare_bind with
      (R := fun _ t => unet_val_frame t0 t /\ has_images s).
    + intros t [Ht Hg].
      unfold val_batch, getitem, bind, get, emit, modify, ret, raise.
      destruct (s !! "real") eqn:Hr.
      2:{ split; [done|]. intros [[[? ?] _] _]%Forall_cons. congruence. }
      destruct (s !! "sim") eqn:Hs.
      2:{ split; [done|]. intros [[_ [? ?]] _]%Forall_cons. congruence. }
      simpl. split; [|by split; eauto]. split.
      * simpl. by apply unet_set_trace_same.
      * apply unet_grows_emit; [done|]. rewrite Ht. reflexivity.
    + intros acc' t [Hf Hs]. specialize (IH acc' t Hf).
      destruct (val_batches acc' batches t) as [a t'|ex t'].
      * destruct IH as [? ?]. split; [done|]. by constructor.
      * destruct IH as [? Hno]. split; [done|].
        intros [_ ?]%Forall_cons. done.
Qed.

(** [val_all] returns exactly on a validation loader that is not empty and
    whose batches carry both images. *)
Lemma unet_val_all_outcome (e : nat) (loader : list Sample) (t0 : trainer) :
  match val_all e loader t0 with
  | Done _ t =>
      loader <> [] /\ Forall has_images loader /\
      let n := inject_Z (Z.of_nat (length loader)) in
      let mse := Qsum (batch_mse (model t0) false <$> loader) / n in
      let s := Qsum (batch_ssim (model t0) false <$> loader) / n in
      t = set_trace (trace t0 ++ replicate (length loader) (EvForward Val false)
                             ++ [EvLogStats e (mean (running_loss t0)) mse s])
            (set_ssim s (set_MSE mse (set_training true t0)))
  | Raised _ t =>
      unet_grows (fun ev => ev = EvForward Val false) t0 t /\
      (loader = [] \/ ~ Forall has_images loader)
  end.
Proof.
  unfold val_all, bind at 1 2, modify at 1.
  set (t1 := set_training false t0).
  pose proof (unet_val_batches_frame t1 loader ([], []) t1) as Hv.
  destruct (val_batches ([], []) loader t1) as [acc t2|ex t2] eqn:Hrun.
  - destruct Hv as [_ Hall].
    { split; [by rewrite unet_set_trace_id | apply unet_grows_refl]. }
    rewrite (unet_val_batches_Done _ _ _ Hall) in Hrun.
    injection Hrun as <- <-. simpl.
    destruct loader as [|b batches].
    + simpl. split; [|by left]. exists []. by rewrite app_nil_r.
    + split; [done|]. split; [done|]. cbv zeta. simpl.
      rewrite !length_fmap. unfold emit, bind, modify, ret, get, set_trace.
      cbn [trace model training epochs running_loss ssim MSE scheduler
           val_every save_model_every set_training set_MSE set_ssim].
      rewrite <- ?app_assoc. reflexivity.
  - destruct Hv as [[_ (evs & Htr & Hevs)] Hno].
    { split; [by rewrite unet_set_trace_id | apply unet_grows_refl]. }
    split; [by exists evs | by right].
Qed.

(** *** The bound on the score and on the index *)

Lemma Qsum_le_length (l : list Q) :
  Forall (fun x => x <= 1) l -> Qsum l <= inject_Z (Z.of_nat (length l)).
Proof.
  induction 1 as [|x l Hx _ IH]; [by compute|].
  change (Qsum (x :: l)) with (x + Qsum l).
  rewrite length_cons, Nat2Z.inj_succ, <- Z.add_1_l, inject_Z_plus.
  change (inject_Z 1) with 1. lra.
Qed.

Lemma average_le_1 (l : list Q) :
  l <> [] -> Forall (fun x => x <= 1) l ->
  Qsum l / inject_Z (Z.of_nat (length l)) <= 1.
Proof.
  intros Hne Hall. apply Qle_shift_div_r.
  - destruct l; [done|]. rewrite length_cons. change 0 with (inject_Z 0).
    rewrite <- Zlt_Qlt. lia.
  - rewrite Qmult_1_l. by apply Qsum_le_length.
Qed.

(** With a score of at most 1 the index stays inside [step_lr]. *)
Lemma staged_index_bound (n : nat) (threshold s : Q) :
  step_lr !! n = Some threshold -> s <= 1 ->
  (n + Nat.b2n (Qltb threshold s) < length step_lr)%nat.
Proof.
  intros Hthr Hs. assert (n < 5)%nat as Hn.
  { apply lookup_lt_Some in Hthr. exact Hthr. }
  destruct (Qltb threshold s) eqn:Hb; simpl; [|lia].
  apply Qltb_lt in Hb.
  destruct n as [|[|[|[|[|n]]]]]; simpl; try lia.
  injection Hthr as <-. lra.
Qed.

Lemma lower_learning_rate_outcome (t : trainer) (e n : nat) :
  match lower_learning_rate e n t with
  | Done n' t' =>
      (exists threshold, step_lr !! n = Some threshold /\
                         n' = (n + Nat.b2n (Qltb threshold (ssim t)))%nat) /\
      ssim t' = ssim t /\ trace t' = trace t /\ training t' = training t /\
      epochs t' = epochs t /\ val_every t' = val_every t /\
      save_model_every t' = save_model_every t
  | Raised _ t' => (length step_lr <= n)%nat /\ t' = t
  end.
Proof.
  destruct (decide (n < length step_lr)%nat) as [Hlt|Hge].
  - destruct (lower_learning_rate_spec t e n Hlt)
      as (thr & lim & n' & t' & Hthr & -> & Hn & _ & _ & ? & ? & ? & ? & ? & ?).
    split; [by exists thr|done].
  - unfold lower_learning_rate, index, bind, get, raise.
    rewrite (lookup_ge_None_2 step_lr n) by lia.
    split; [lia|done].
Qed.

(** *** One epoch *)

Lemma periodic_save_body (s : Q) (ev : event) : periodic_save ev -> body_event s ev.
Proof. intros [k ->]. done. Qed.

(** The loop body after the validation: the periodic save, the
    learning-rate block and the test of the cutoff. *)
Lemma unet_epoch_tail_outcome (e n : nat) (t : trainer) :
  match (t <- get ;;
         r <- pymod e (save_model_every t) ;;
         (if (r =? 0)%nat then emit (EvSaveModel (at_epoch (e + 1))) else ret tt) ;;;
         step_num <- lower_learning_rate e n ;;
         t <- get ;;
         ret (Qltb (9999 # 10000) (ssim t), step_num)) t with
  | Done r t' =>
      r.1 = Qltb (9999 # 10000) (ssim t') /\ ssim t' = ssim t /\
      training t' = training t /\ epochs t' = epochs t /\
      val_every t' = val_every t /\ save_model_every t' = save_model_every t /\
      (exists threshold, step_lr !! n = Some threshold /\
                         r.2 = (n + Nat.b2n (Qltb threshold (ssim t)))%nat) /\
      unet_grows periodic_save t t'
  | Raised _ t' =>
      unet_grows periodic_save t t' /\
      (save_model_every t = 0%nat \/ (length step_lr <= n)%nat)
  end.
Proof.
  rewrite bind_eq. unfold get at 1. rewrite bind_eq. unfold pymod.
  destruct (save_model_every t) as [|k] eqn:Hk.
  { split; [apply unet_grows_refl | by left]. }
  unfold ret at 1. rewrite bind_eq.
  set (t1 := if (e mod S k =? 0)%nat
             then set_trace (trace t ++ [EvSaveModel (at_epoch (e + 1))]) t
             else t).
  assert ((if (e mod S k =? 0)%nat
           then emit (EvSaveModel (at_epoch (e + 1))) else ret tt) t
          = Done tt t1) as ->.
  { subst t1. by destruct (e mod S k =? 0)%nat. }
  assert (ssim t1 = ssim t /\ training t1 = training t /\ epochs t1 = epochs t /\
          val_every t1 = val_every t /\ save_model_every t1 = save_model_every t /\
          unet_grows periodic_save t t1) as (Hs1 & Hm1 & He1 & Hv1 & Hsv1 & Hg1).
  { subst t1. destruct (e mod S k =? 0)%nat; simpl; repeat split; try done.
    - apply unet_grows_emit; [apply unet_grows_refl|]. by eexists.
    - apply unet_grows_refl. }
  clearbody t1. rewrite bind_eq.
  pose proof (lower_learning_rate_outcome t1 e n) as Hlr.
  destruct (lower_learning_rate e n t1) as [n' t2|ex t2].
  - destruct Hlr as ((thr & Hthr & Hn') & Hs2 & Htr2 & Hm2 & He2 & Hv2 & Hsv2).
    unfold bind, get, ret. simpl.
    repeat split; try congruence.
    + exists thr. split; [done|]. congruence.
    + destruct Hg1 as (evs & Htr1 & Hevs). exists evs. split; [congruence|done].
  - destruct Hlr as [Hge ->]. split; [done | by right].
Qed.

Lemma unet_epoch_body_outcome (train_loader val_loader : nat -> list Sample)
    (e n : nat) (t0 : trainer) :
  training t0 = true ->
  match epoch_body train_loader val_loader e n t0 with
  | Done r t =>
      training t = true /\ r.1 = Qltb (9999 # 10000) (ssim t) /\
      val_every t = val_every t0 /\ save_model_every t = save_model_every t0 /\
      epochs t = epochs t0 /\
      (exists evs, trace t = trace t0 ++ EvEpoch e :: evs /\
                   Forall (body_event (ssim t)) evs) /\
      (exists threshold, step_lr !! n = Some threshold /\
                         r.2 = (n + Nat.b2n (Qltb threshold (ssim t)))%nat) /\
      ((forall x y, SSIM x y <= 1) ->
       (e mod val_every t0 = 0)%nat \/ ssim t0 <= 1 -> ssim t <= 1)
  | Raised _ t =>
      (exists evs, trace t = trace t0 ++ EvEpoch e :: evs /\
                   Forall quiet_event evs) /\
      (val_every t0 = 0%nat \/ save_model_every t0 = 0%nat \/
       ~ Forall has_images (train_loader e) \/
       ((e mod val_every t0 = 0)%nat /\
        (val_loader e = [] \/ ~ Forall has_images (val_loader e))) \/
       (length step_lr <= n)%nat)
  end.
Proof.
  intros Hmode. unfold epoch_body.
  rewrite bind_eq. unfold emit at 1, modify at 1.
  rewrite bind_eq. unfold modify at 1.
  set (t1 := set_running_loss [] (set_trace (trace t0 ++ [EvEpoch e]) t0)).
  rewrite bind_eq.
  pose proof (unet_train_loop_frame t1 (train_loader e) t1
                (conj eq_refl (unet_grows_refl _ _))) as Htrain.
  assert (forall t2, unet_train_frame t1 t2 ->
            training t2 = true /\ ssim t2 = ssim t0 /\
            val_every t2 = val_every t0 /\
            save_model_every t2 = save_model_every t0 /\ epochs t2 = epochs t0 /\
            exists evs1, trace t2 = trace t0 ++ EvEpoch e :: evs1 /\
                         Forall (train_event true) evs1) as Hframe.
  { intros t2 [Hc (evs1 & Htr & Hevs)]. unfold unet_ctl in Hc.
    injection Hc as Hc1 Hc2 Hc3 Hc4 Hc5 Hc6.
    simpl in *. rewrite Hmode in *. repeat split; try done.
    exists evs1. rewrite Htr, <- app_assoc. done. }
  destruct (for_each _ _ t1) as [[] t2|ex t2].
  2:{ destruct Htrain as [Hf Hno].
      apply Hframe in Hf as (_ & _ & _ & _ & _ & evs1 & Htr2 & Hevs1).
      split; [|auto]. exists evs1. split; [done|]. by apply train_events_quiet. }
  apply Hframe in Htrain
    as (Hm2 & Hs2 & Hv2 & Hsv2 & Hep2 & evs1 & Htr2 & Hevs1); clear Hframe.
  rewrite bind_eq. unfold get at 1. rewrite bind_eq. rewrite Hv2.
  unfold pymod at 1. destruct (val_every t0) as [|v] eqn:Hv.
  { split; [|auto]. exists evs1. split; [done|]. by apply train_events_quiet. }
  unfold ret at 1. rewrite bind_eq.
  destruct (e mod S v =? 0)%nat eqn:Hmod.
  - apply Nat.eqb_eq in Hmod.
    pose proof (unet_val_all_outcome e (val_loader e) t2) as Hval.
    destruct (val_all e (val_loader e) t2) as [[] t3|ex t3].
    2:{ destruct Hval as ((evs2 & Htr3 & Hevs2) & Hcause). split; [|auto 10].
        exists (evs1 ++ evs2). rewrite Htr3, Htr2, <- app_assoc. split; [done|].
        apply Forall_app. split;
          [by apply train_events_quiet | by apply val_events_quiet]. }
    destruct Hval as (Hne & Hall & Ht3). cbv zeta in Ht3.
    pose proof (unet_epoch_tail_outcome e n t3) as Htail.
    destruct ((t <- get ;; _) t3) as [r t4|ex t4].
    + destruct Htail
        as (Hb & Hs4 & Hm4 & Hep4 & Hv4 & Hsv4 & Hidx & evs3 & Htr4 & Hevs3).
      rewrite Ht3 in Hs4, Hm4, Hep4, Hv4, Hsv4, Hidx, Htr4. simpl in *.
      split; [done|]. split; [done|]. split; [congruence|].
      split; [congruence|]. split; [congruence|]. split; [|split].
      * eexists. split.
        { rewrite Htr4, Htr2. rewrite <- !app_assoc. simpl. reflexivity. }
        apply Forall_app. split.
        { eapply Forall_impl; [exact Hevs1|]. intros ev. apply train_event_body. }
        apply Forall_app. split.
        { apply Forall_replicate. done. }
        apply Forall_cons. split.
        { split; [done|]. split; [done|]. intros ? ? ? ? [= _ _ _ <-]. done. }
        eapply Forall_impl; [exact Hevs3|]. intros ev. apply periodic_save_body.
      * destruct Hidx as (thr & Hthr & Hn'). exists thr. split; [done|].
        by rewrite Hs4.
      * intros Hbound _. rewrite Hs4.
        rewrite <- (length_fmap (batch_ssim (model t2) false) (val_loader e)).
        apply average_le_1.
        { by intros Hnil%fmap_nil_inv. }
        apply Forall_fmap. apply Forall_forall. intros b _. apply Hbound.
    + destruct Htail as [(evs3 & Htr4 & Hevs3) Hcause].
      rewrite Ht3 in Htr4, Hcause. simpl in Htr4, Hcause. split.
      * eexists. split.
        { rewrite Htr4, Htr2. rewrite <- !app_assoc. simpl. reflexivity. }
        apply Forall_app. split; [by apply train_events_quiet|].
        apply Forall_app. split; [by apply Forall_replicate|].
        apply Forall_cons. split; [done|].
        eapply Forall_impl; [exact Hevs3|]. intros ev [k ->]. done.
      * destruct Hcause as [?|?]; [right; left; congruence | auto 10].
  - apply Nat.eqb_neq in Hmod. unfold ret at 1.
    pose proof (unet_epoch_tail_outcome e n t2) as Htail.
    destruct ((t <- get ;; _) t2) as [r t4|ex t4].
    + destruct Htail
        as (Hb & Hs4 & Hm4 & Hep4 & Hv4 & Hsv4 & Hidx & evs3 & Htr4 & Hevs3).
      split; [congruence|]. split; [done|]. split; [congruence|].
      split; [congruence|]. split; [congruence|]. split; [|split].
      * exists (evs1 ++ evs3). split.
        { rewrite Htr4, Htr2. rewrite <- !app_assoc. reflexivity. }
        apply Forall_app. split.
        { eapply Forall_impl; [exact Hevs1|]. intros ev. apply train_event_body. }
        eapply Forall_impl; [exact Hevs3|]. intros ev. apply periodic_save_body.
      * destruct Hidx as (thr & Hthr & Hn'). exists thr. split; [done|].
        by rewrite Hs4.
      * intros _ [?|Hle]; [done|]. by rewrite Hs4, Hs2.
    + destruct Htail as [(evs3 & Htr4 & Hevs3) Hcause]. split.
      * exists (evs1 ++ evs3). split.
        { rewrite Htr4, Htr2. rewrite <- !app_assoc. reflexivity. }
        apply Forall_app. split; [by apply train_events_quiet|].
        eapply Forall_impl; [exact Hevs3|]. intros ev [k ->]. done.
      * destruct Hcause as [?|?]; [right; left; congruence | auto 10].
Qed.

End UNetFrames.

(** ** Traces of whole runs *)

Section Traces.

Lemma stops_no_epoch (evs : list event) :
  Forall (fun ev => is_epoch ev = false) evs -> stops_after_cutoff evs.
Proof.
  induction 1 as [|ev evs Hev Hevs IH]; simpl; [done|]. split; [done|]. exact IH.
Qed.

Lemma stops_app_below (tr tr' : list event) :
  Forall (fun ev => above_cutoff ev = false) tr ->
  stops_after_cutoff tr' -> stops_after_cutoff (tr ++ tr').
Proof.
  induction 1 as [|ev tr Hev _ IH]; intros Htr'; simpl; [done|].
  split; [|by apply IH]. intros Habove. congruence.
Qed.

Lemma quiet_events_no_epoch (evs : list event) :
  Forall quiet_event evs -> Forall (fun ev => is_epoch ev = false) evs.
Proof. intros Hevs. eapply Forall_impl; [exact Hevs|]. by intros ev [? _]. Qed.

Lemma quiet_events_mode_ok (evs : list event) :
  Forall quiet_event evs -> Forall mode_ok evs.
Proof. intros Hevs. eapply Forall_impl; [exact Hevs|]. by intros ev [_ ?]. Qed.

Lemma body_events_quiet (s : Q) (evs : list event) :
  Forall (body_event s) evs -> Forall quiet_event evs.
Proof.
  intros Hevs. eapply Forall_impl; [exact Hevs|]. intros ev. apply body_event_quiet.
Qed.

(** After an epoch that ends at or below the cutoff, nothing logged in it is
    above the cutoff. *)
Lemma body_events_below (s : Q) (evs : list event) :
  Qltb (9999 # 10000) s = false ->
  Forall (body_event s) evs -> Forall (fun ev => above_cutoff ev = false) evs.
Proof.
  intros Hs Hevs. eapply Forall_impl; [exact Hevs|]. intros ev (_ & _ & Hlog).
  destruct ev; try done. simpl. by rewrite (Hlog _ _ _ _ eq_refl).
Qed.

(** The trace of a run that has started one more epoch. *)
Lemma trace_one_more_epoch (tr evs : list event) (e : nat) :
  Forall mode_ok tr ->
  Forall (fun ev => above_cutoff ev = false) tr ->
  Forall quiet_event evs ->
  Forall mode_ok (tr ++ EvEpoch e :: evs) /\
  stops_after_cutoff (tr ++ EvEpoch e :: evs).
Proof.
  intros Hmodes Hbelow Hquiet. split.
  - apply Forall_app. split; [done|]. constructor; [done|].
    by apply quiet_events_mode_ok.
  - apply stops_app_below; [done|]. simpl. split; [done|].
    by apply stops_no_epoch, quiet_events_no_epoch.
Qed.

End Traces.

Section MultiTaskRun.
Import train_multi_task.
Context `{Framework}.
Variable train_loaders : nat -> list (list Sample).
Variable val_loaders : nat -> list (list Sample).

Lemma epoch_loop_outcome (es : list nat) (t0 : trainer) :
  loop_inv t0 ->
  match epoch_loop train_loaders val_loaders es t0 with
  | Done _ t =>
      training t = true /\ Forall mode_ok (trace t) /\
      stops_after_cutoff (trace t)
  | Raised _ t => Forall mode_ok (trace t) /\ stops_after_cutoff (trace t)
  end.
Proof.
  revert t0. induction es as [|e es IH]; intros t0 (Hm & Hmodes & Hbelow).
  - simpl. split; [done|]. split; [done|].
    rewrite <- (app_nil_r (trace t0)). by apply stops_app_below.
  - simpl. rewrite bind_eq.
    pose proof (epoch_body_outcome train_loaders val_loaders e t0 Hm) as Hbody.
    destruct (epoch_body train_loaders val_loaders e t0) as [brk t|ex t].
    + destruct Hbody as (Hm' & Hbrk & _ & _ & evs & Htr & Hevs & _).
      destruct brk.
      * simpl. split; [done|]. rewrite Htr.
        apply trace_one_more_epoch; try done. by eapply body_events_quiet.
      * apply IH. split; [done|]. rewrite Htr. split.
        { apply trace_one_more_epoch; try done. by eapply body_events_quiet. }
        apply Forall_app. split; [done|]. constructor; [done|].
        by eapply body_events_below.
    + destruct Hbody as (evs & Htr & Hevs). rewrite Htr.
      by apply trace_one_more_epoch.
Qed.

(** A run of [start] from a trainer that has logged nothing yet. *)
Lemma start_outcome (every : nat) (t0 : trainer) :
  trace t0 = [] ->
  match start train_loaders val_loaders every t0 with
  | Done _ t =>
      training t = true /\ Forall mode_ok (trace t) /\
      stops_after_cutoff (trace t)
  | Raised _ t => Forall mode_ok (trace t) /\ stops_after_cutoff (trace t)
  end.
Proof.
  intros Htr. unfold start, setup.
  rewrite bind_eq. unfold modify at 1. rewrite bind_eq. unfold modify at 1.
  rewrite bind_eq. unfold get at 1.
  apply epoch_loop_outcome. unfold loop_inv. simpl. rewrite Htr. done.
Qed.

End MultiTaskRun.

Section UNetRun.
Import train_unet.
Context `{Framework}.
Variable train_loader : nat -> list Sample.
Variable val_loader : nat -> list Sample.

Lemma stops_snoc (tr : list event) (ev : event) :
  stops_after_cutoff tr -> is_epoch ev = false -> stops_after_cutoff (tr ++ [ev]).
Proof.
  intros Htr Hev. induction tr as [|ev' tr IH]; simpl in *; [done|].
  destruct Htr as [Hafter Htr]. split; [|by apply IH].
  intros Habove. apply Forall_app. split; [by apply Hafter|]. by constructor.
Qed.

Lemma unet_epoch_loop_outcome (es : list nat) (n : nat) (bound : option nat)
    (t0 : trainer) :
  unet_loop_inv t0 ->
  match epoch_loop train_loader val_loader es n bound t0 with
  | Done _ t =>
      training t = true /\ Forall mode_ok (trace t) /\
      stops_after_cutoff (trace t)
  | Raised _ t => Forall mode_ok (trace t) /\ stops_after_cutoff (trace t)
  end.
Proof.
  revert n bound t0.
  induction es as [|e es IH]; intros n bound t0 (Hm & Hmodes & Hbelow).
  - simpl. split; [done|]. split; [done|].
    rewrite <- (app_nil_r (trace t0)). by apply stops_app_below.
  - simpl. rewrite bind_eq.
    pose proof (unet_epoch_body_outcome train_loader val_loader e n t0 Hm) as Hbody.
    destruct (epoch_body train_loader val_loader e n t0) as [[brk n'] t|ex t].
    + destruct Hbody as (Hm' & Hbrk & _ & _ & _ & (evs & Htr & Hevs) & _).
      simpl in Hbrk. simpl. destruct brk.
      * simpl. split; [done|]. rewrite Htr.
        apply trace_one_more_epoch; try done. by eapply body_events_quiet.
      * apply IH. split; [done|]. rewrite Htr. split.
        { apply trace_one_more_epoch; try done. by eapply body_events_quiet. }
        apply Forall_app. split; [done|]. constructor; [done|].
        by eapply body_events_below.
    + destruct Hbody as [(evs & Htr & Hevs) _]. rewrite Htr.
      by apply trace_one_more_epoch.
Qed.

Lemma unet_start_outcome (save_every every : nat) (t0 : trainer) :
  trace t0 = [] ->
  match start train_loader val_loader save_every every t0 with
  | Done _ t =>
      training t = true /\ Forall mode_ok (trace t) /\
      stops_after_cutoff (trace t)
  | Raised _ t => Forall mode_ok (trace t) /\ stops_after_cutoff (trace t)
  end.
Proof.
  intros Htr. unfold start, setup.
  rewrite bind_eq. unfold modify at 1. rewrite bind_eq. unfold modify at 1.
  rewrite bind_eq. unfold modify at 1. rewrite bind_eq. unfold get at 1.
  rewrite bind_eq.
  match goal with
  | |- context [epoch_loop _ _ ?es ?n ?b ?t] =>
      pose proof (unet_epoch_loop_outcome es n b t) as Hloop;
      destruct (epoch_loop train_loader val_loader es n b t) as [bound t1|ex t1]
  end.
  - destruct Hloop as (Hm & Hmodes & Hstops).
    { unfold unet_loop_inv. simpl. rewrite Htr. done. }
    destruct bound as [e|]; simpl.
    + split; [done|]. split.
      * apply Forall_app. split; [done|]. by constructor.
      * by apply stops_snoc.
    + done.
  - apply Hloop. unfold unet_loop_inv. simpl. rewrite Htr. done.
Qed.

(** *** A run on data that is all there *)

Section Total.
Hypothesis train_images : forall e, Forall has_images (train_loader e).
Hypothesis val_images :
  forall e, val_loader e <> [] /\ Forall has_images (val_loader e).
Hypothesis SSIM_le_1 : forall x y, SSIM x y <= 1.

Lemma unet_epoch_loop_total (m : nat) :
  forall (k n : nat) (bound : option nat) (t0 : trainer),
    training t0 = true ->
    (0 < val_every t0)%nat -> (0 < save_model_every t0)%nat ->
    (n < length step_lr)%nat ->
    (k mod val_every t0 = 0)%nat \/ ssim t0 <= 1 ->
    exists r t,
      epoch_loop train_loader val_loader (seq k m) n bound t0 = Done r t /\
      match m with
      | O => r = bound /\ t = t0
      | S _ =>
          exists e_last,
            r = Some e_last /\ (k <= e_last < k + m)%nat /\
            ((e_last + 1 = k + m)%nat \/ Qltb (9999 # 10000) (ssim t) = true)
      end.
Proof.
  induction m as [|m IH]; intros k n bound t0 Hm Hv Hsv Hn Hs.
  - exists bound, t0. done.
  - simpl. rewrite bind_eq.
    pose proof (unet_epoch_body_outcome train_loader val_loader k n t0 Hm) as Hbody.
    destruct (epoch_body train_loader val_loader k n t0) as [[brk n'] t|ex t].
    + destruct Hbody as (Hm' & Hbrk & Hv' & Hsv' & _ & _ & (thr & Hthr & Hn') & Hle).
      simpl in Hbrk, Hn'. simpl. specialize (Hle SSIM_le_1 Hs).
      destruct brk.
      * exists (Some k), t. split; [done|]. exists k.
        split; [done|]. split; [lia|]. by right.
      * destruct (IH (S k) n' (Some k) t) as (r & t' & Hrun & Hlast).
        { done. } { by rewrite Hv'. } { by rewrite Hsv'. }
        { rewrite Hn'. by apply staged_index_bound. }
        { by right. }
        exists r, t'. split; [done|]. destruct m as [|m].
        { destruct Hlast as [-> ->]. exists k. split; [done|]. split; lia. }
        destruct Hlast as (e_last & -> & Hrange & Hend).
        exists e_last. split; [done|]. split; [lia|].
        destruct Hend as [?|?]; [left; lia | by right].
    + exfalso. destruct Hbody as [_ Hcause].
      destruct Hcause as [?|[?|[Hno|[[_ [Hnil|Hno]]|?]]]]; try lia.
      * by apply Hno.
      * by destruct (val_images k).
      * apply Hno. by destruct (val_images k).
Qed.

End Total.
End UNetRun.

(** ** Validation mode, early exit and the final save *)

Section Runs.
Context `{Framework}.

Lemma unet_val_all_Done (e : nat) (loader : list Sample) (u : train_unet.trainer) :
  loader <> [] ->
  Forall has_images loader ->
  let n := inject_Z (Z.of_nat (length loader)) in
  let mse := Qsum (batch_mse (train_unet.model u) false <$> loader) / n in
  let s := Qsum (batch_ssim (train_unet.model u) false <$> loader) / n in
  train_unet.val_all e loader u =
  Done tt
    (train_unet.set_trace
       (train_unet.trace u ++ replicate (length loader) (EvForward Val false)
          ++ [EvLogStats e (mean (train_unet.running_loss u)) mse s])
       (train_unet.set_ssim s
          (train_unet.set_MSE mse (train_unet.set_training true u)))).
Proof.
  intros Hne Hall. cbv zeta.
  pose proof (unet_val_all_outcome e loader u) as Hval.
  destruct (train_unet.val_all e loader u) as [[] u'|ex u'].
  - destruct Hval as (_ & _ & ->). reflexivity.
  - destruct Hval as [_ [?|?]]; done.
Qed.

(** C7.  In both trainers [val_all], on a validation set that is not empty,
    runs every validation batch through the model in evaluation mode, sets
    [MSE] and [ssim] to the sums of the per-batch values over the number of
    batches, and returns with the model in training mode.  In a whole run of
    [start] every forward pass of a training step happens in training mode
    and every forward pass of a validation in evaluation mode, and a run
    that returns leaves the model in training mode. *)
Theorem validation_in_eval_mode
    (t t0 : train_multi_task.trainer) (u u0 : train_unet.trainer) (e : nat)
    (loaders : list (list Sample)) (loader : list Sample)
    (train_loaders val_loaders : nat -> list (list Sample))
    (train_loader val_loader : nat -> list Sample)
    (val_every save_model_every : nat) :
  concat loaders <> [] -> Forall has_images (concat loaders) ->
  loader <> [] -> Forall has_images loader ->
  train_multi_task.trace t0 = [] -> train_unet.trace u0 = [] ->
  (exists t',
     train_multi_task.val_all e loaders t = Done tt t' /\
     train_multi_task.training t' = true /\
     train_multi_task.MSE t' =
       Qsum (batch_mse (train_multi_task.model t) false <$> concat loaders)
       / inject_Z (Z.of_nat (length (concat loaders))) /\
     train_multi_task.ssim t' =
       Qsum (batch_ssim (train_multi_task.model t) false <$> concat loaders)
       / inject_Z (Z.of_nat (length (concat loaders))) /\
     exists ml,
       train_multi_task.trace t' =
       train_multi_task.trace t
       ++ replicate (length (concat loaders)) (EvForward Val false)
       ++ [EvLogStats e ml (train_multi_task.MSE t') (train_multi_task.ssim t')]) /\
  (exists u',
     train_unet.val_all e loader u = Done tt u' /\
     train_unet.training u' = true /\
     train_unet.MSE u' =
       Qsum (batch_mse (train_unet.model u) false <$> loader)
       / inject_Z (Z.of_nat (length loader)) /\
     train_unet.ssim u' =
       Qsum (batch_ssim (train_unet.model u) false <$> loader)
       / inject_Z (Z.of_nat (length loader)) /\
     exists ml,
       train_unet.trace u' =
       train_unet.trace u ++ replicate (length loader) (EvForward Val false)
       ++ [EvLogStats e ml (train_unet.MSE u') (train_unet.ssim u')]) /\
  (Forall mode_ok
     (train_multi_task.trace
        (final_state (train_multi_task.start train_loaders val_loaders
                        val_every t0))) /\
   forall t', train_multi_task.start train_loaders val_loaders val_every t0
              = Done tt t' ->
              train_multi_task.training t' = true) /\
  (Forall mode_ok
     (train_unet.trace
        (final_state (train_unet.start train_loader val_loader
                        save_model_every val_every u0))) /\
   forall u', train_unet.start train_loader val_loader save_model_every
                val_every u0 = Done tt u' ->
              train_unet.training u' = true).
Proof.
  intros Hne Hall Hne' Hall' Ht0 Hu0. split; [|split; [|split]].
  - eexists. split; [exact (val_all_Done e loaders t Hne Hall)|].
    split; [done|]. split; [done|]. split; [done|]. eexists. reflexivity.
  - eexists. split; [exact (unet_val_all_Done e loader u Hne' Hall')|].
    split; [done|]. split; [done|]. split; [done|]. eexists. reflexivity.
  - pose proof (start_outcome train_loaders val_loaders val_every t0 Ht0) as Hrun.
    destruct (train_multi_task.start _ _ _ t0) as [[] t'|ex t']; simpl.
    + destruct Hrun as (Hm & Hmodes & _). split; [done|]. by intros ? [= <-].
    + destruct Hrun as (Hmodes & _). split; [done|]. done.
  - pose proof (unet_start_outcome train_loader val_loader save_model_every
                  val_every u0 Hu0) as Hrun.
    destruct (train_unet.start _ _ _ _ u0) as [[] u'|ex u']; simpl.
    + destruct Hrun as (Hm & Hmodes & _). split; [done|]. by intros ? [= <-].
    + destruct Hrun as (Hmodes & _). split; [done|]. done.
Qed.

(** C8.  In both trainers the loop body ends by [break] exactly when the
    SSIM is above 0.9999, and the loop then returns in the state reached at
    the end of that epoch, whatever epochs remain.  In the trace of a run
    of [start], no epoch starts after a validation that logged an averaged
    SSIM above 0.9999. *)
Theorem early_exit_on_cutoff
    (t t0 : train_multi_task.trainer) (u u0 : train_unet.trainer)
    (train_loaders val_loaders : nat -> list (list Sample))
    (train_loader val_loader : nat -> list Sample)
    (val_every save_model_every : nat) :
  train_multi_task.training t = true -> train_unet.training u = true ->
  train_multi_task.trace t0 = [] -> train_unet.trace u0 = [] ->
  (forall e es brk t',
     train_multi_task.epoch_body train_loaders val_loaders e t = Done brk t' ->
     (brk = true <-> 9999 # 10000 < train_multi_task.ssim t') /\
     (brk = true ->
      train_multi_task.epoch_loop train_loaders val_loaders (e :: es) t
      = Done tt t')) /\
  (forall e es n bound brk n' u',
     train_unet.epoch_body train_loader val_loader e n u = Done (brk, n') u' ->
     (brk = true <-> 9999 # 10000 < train_unet.ssim u') /\
     (brk = true ->
      train_unet.epoch_loop train_loader val_loader (e :: es) n bound u
      = Done (Some e) u')) /\
  stops_after_cutoff
    (train_multi_task.trace
       (final_state (train_multi_task.start train_loaders val_loaders
                       val_every t0))) /\
  stops_after_cutoff
    (train_unet.trace
       (final_state (train_unet.start train_loader val_loader
                       save_model_every val_every u0))).
Proof.
  intros Ht Hu Ht0 Hu0. split; [|split; [|split]].
  - intros e es brk t' Hrun.
    pose proof (epoch_body_outcome train_loaders val_loaders e t Ht) as Hbody.
    rewrite Hrun in Hbody. destruct Hbody as (_ & Hbrk & _).
    split.
    + rewrite Hbrk. apply Qltb_lt.
    + intros ->. simpl. rewrite bind_eq, Hrun. reflexivity.
  - intros e es n bound brk n' u' Hrun.
    pose proof (unet_epoch_body_outcome train_loader val_loader e n u Hu) as Hbody.
    rewrite Hrun in Hbody. destruct Hbody as (_ & Hbrk & _). simpl in Hbrk.
    split.
    + rewrite Hbrk. apply Qltb_lt.
    + intros ->. simpl. rewrite bind_eq, Hrun. reflexivity.
  - pose proof (start_outcome train_loaders val_loaders val_every t0 Ht0) as Hrun.
    destruct (train_multi_task.start _ _ _ t0) as [[] t'|ex t']; simpl.
    + by destruct Hrun as (_ & _ & ?).
    + by destruct Hrun as (_ & ?).
  - pose proof (unet_start_outcome train_loader val_loader save_model_every
                  val_every u0 Hu0) as Hrun.
    destruct (train_unet.start _ _ _ _ u0) as [[] u'|ex u']; simpl.
    + by destruct Hrun as (_ & _ & ?).
    + by destruct Hrun as (_ & ?).
Qed.

(** C10.  [start] of the supervised trainer with no epochs raises at the
    final save, whose argument reads the loop variable that was never
    bound, and logs nothing.  With at least one epoch, on data that is all
    there and with a metric that is at most 1, it returns, and the last
    thing it does is the final save, named after the last epoch that ran:
    the last of the budget, or the one that ended above the cutoff. *)
Theorem final_save_needs_an_epoch
    (u0 : train_unet.trainer) (train_loader val_loader : nat -> list Sample)
    (save_model_every val_every : nat) :
  (forall e, Forall has_images (train_loader e)) ->
  (forall e, val_loader e <> [] /\ Forall has_images (val_loader e)) ->
  (forall x y, SSIM x y <= 1) ->
  (0 < val_every)%nat -> (0 < save_model_every)%nat ->
  (train_unet.epochs u0 = 0%nat ->
   exists u',
     train_unet.start train_loader val_loader save_model_every val_every u0
     = Raised UnboundLocalError u' /\
     train_unet.trace u' = train_unet.trace u0) /\
  ((0 < train_unet.epochs u0)%nat ->
   exists u' tr e_last,
     train_unet.start train_loader val_loader save_model_every val_every u0
     = Done tt u' /\
     train_unet.trace u' = tr ++ [EvSaveModel (at_epoch (e_last + 1))] /\
     (e_last < train_unet.epochs u0)%nat /\
     ((e_last + 1 = train_unet.epochs u0)%nat \/
      9999 # 10000 < train_unet.ssim u')).
Proof.
  intros Htrain Hval Hssim Hv Hsv. split.
  - intros Hepochs. unfold train_unet.start, train_unet.setup.
    rewrite bind_eq. unfold modify at 1. rewrite bind_eq. unfold modify at 1.
    rewrite bind_eq. unfold modify at 1. rewrite bind_eq. unfold get at 1.
    simpl. rewrite Hepochs. simpl. eexists. split; [reflexivity|]. reflexivity.
  - intros Hepochs. unfold train_unet.start, train_unet.setup.
    rewrite bind_eq. unfold modify at 1. rewrite bind_eq. unfold modify at 1.
    rewrite bind_eq. unfold modify at 1. rewrite bind_eq. unfold get at 1.
    rewrite bind_eq.
    match goal with
    | |- context [train_unet.epoch_loop _ _ (seq 0 ?m) ?n ?b ?u] =>
        destruct (unet_epoch_loop_total train_loader val_loader Htrain Hval
                    Hssim m 0 n b u) as (r & u1 & Hrun & Hlast)
    end; try done.
    { simpl. lia. }
    { left. simpl. apply Nat.Div0.mod_0_l. }
    rewrite Hrun. simpl in Hlast.
    destruct (train_unet.epochs u0) as [|m] eqn:Hm; [lia|].
    destruct Hlast as (e_last & -> & Hrange & Hend).
    eexists _, _, e_last. split; [reflexivity|]. split; [reflexivity|].
    split; [lia|]. destruct Hend as [?|Hcut]; [left; lia|].
    right. simpl. by apply Qltb_lt.
Qed.

End Runs.

(** ** Runs of the concrete instances *)

Section Instances.

Lemma toy_has_images (p : Q) : @has_images (pixel_batch p).
Proof. split; eexists; reflexivity. Defined.

Lemma toy_SSIM_le_1 (x y : tensor) : @SSIM toy x y <= 1.
Proof.
  simpl. destruct (Qle_bool (first_pixel y) 1) eqn:Hle.
  - by apply Qle_bool_iff.
  - apply Qle_refl.
Defined.

(** A run of the multi-task trainer: the score goes 0.9, 0.5, 0.6, 1.  The
    "best" checkpoint is saved after the first, the third and the fourth
    validation, so the third save replaces a checkpoint that scored 0.9 by
    one that scored 0.6; the run stops after the fourth of ten epochs. *)
Example multi_task_run :
  let tr := train_multi_task.trace
              (final_state (@train_multi_task.start toy toy_train_loaders
                              toy_val_loaders 1 toy_multi)) in
  epochs_started tr = [0; 1; 2; 3]%nat /\
  Forall2 Qeq (scores_logged tr) [9 # 10; 1 # 2; 6 # 10; 1] /\
  models_saved tr = [best_generator; best_generator; best_generator] /\
  Forall2 (fun ev b => is_best_save ev = b)
          (List.filter (fun ev => match ev with
                                  | EvLogStats _ _ _ _ | EvSaveModel _ => true
                                  | _ => false
                                  end) tr)
          [false; true; false; false; true; false; true].
Proof.
  vm_compute. split; [reflexivity|]. split.
  - repeat constructor.
  - split; [reflexivity|]. repeat constructor.
Qed.

(** The supervised trainer on the same scores: it saves at epoch 0 (the
    periodic save), stops after the fourth of ten epochs and then writes
    the final checkpoint, numbered 4. *)
Example unet_run :
  let tr := train_unet.trace
              (final_state (@train_unet.start toy toy_train_loader
                              toy_val_loader 10 1 toy_unet)) in
  epochs_started tr = [0; 1; 2; 3]%nat /\
  models_saved tr = [at_epoch 1; at_epoch 4].
Proof. vm_compute. split; reflexivity. Qed.

(** With a budget of no epochs it raises and saves nothing. *)
Example unet_run_no_epochs :
  exists u',
    @train_unet.start toy toy_train_loader toy_val_loader 10 1 toy_unet_no_epochs
    = Raised UnboundLocalError u' /\
    train_unet.trace u' = [].
Proof. eexists. split; reflexivity. Qed.

Lemma best_checkpoint_policy_witness :
  exists t' evs,
    (@train_multi_task.val_all toy 1 (toy_val_loaders 0) ;;;
     train_multi_task.maybe_save_model) toy_multi = Done tt t' /\
    train_multi_task.trace t' = train_multi_task.trace toy_multi ++ evs.
Proof.
  destruct (@best_checkpoint_policy toy toy_train_loaders toy_val_loaders 0
              toy_multi) as [(t' & evs & Hrun & Htr & _) _].
  - reflexivity.
  - discriminate.
  - repeat constructor; apply toy_has_images.
  - exists t', evs. split; assumption.
Defined.

Lemma learning_rate_staging_witness :
  exists t' step_num' u',
    @train_multi_task.check_to_lower_learning_rate toy toy_multi_scoring
      = Done tt t' /\
    train_multi_task.step_num t' = 1%nat /\
    train_multi_task.scheduler t' = 2%nat /\
    @train_unet.lower_learning_rate toy 150 0 toy_unet_scoring
      = Done step_num' u' /\
    step_num' = 1%nat /\
    train_unet.scheduler u' = 2%nat.
Proof.
  destruct (@learning_rate_staging toy toy_multi_scoring toy_unet_scoring 150 0)
    as (_ & (thr & lim & t' & Hthr & Hrun & Hup & _ & Hlim & Htwo & _)
          & (thr' & lim' & n' & u' & Hthr' & Hrun' & Hup' & _ & Hlim' & Htwo' & _)).
  - simpl. lia.
  - simpl. lia.
  - injection Hthr as <-. injection Hthr' as <-.
    assert (95 # 100 < 96 # 100) as Habove by reflexivity.
    specialize (Hup Habove). specialize (Hup' Habove).
    rewrite Hup in Hlim. rewrite Hup' in Hlim'.
    injection Hlim as <-. injection Hlim' as <-.
    exists t', n', u'.
    split; [exact Hrun|]. split; [exact Hup|].
    split; [apply (Htwo Habove); simpl; lia|].
    split; [exact Hrun'|]. split; [exact Hup'|].
    apply (Htwo' Habove). lia.
Defined.

(** A batch with one real pixel 1 and one simulated pixel 3. *)
Lemma generator_loss_weighted_witness :
  exists t' loss,
    @train_multi_task.train_step toy {[ "real" := [[1]]; "sim" := [[3]] ]} toy_multi
    = Done tt t' /\
    train_multi_task.running_loss t' = [loss] /\
    loss == 801 # 400.
Proof.
  destruct (@generator_loss_weighted toy toy_multi
              {[ "real" := [[1]]; "sim" := [[3]] ]} (1 # 2) [[1]] [[3]])
    as (t' & loss & loss_d & Hrun & _ & Hrl & Hloss).
  - reflexivity.
  - reflexivity.
  - reflexivity.
  - exists t', loss. split; [exact Hrun|]. split; [exact Hrl|].
    rewrite Hloss. reflexivity.
Defined.

Lemma discriminator_loss_blend_witness :
  exists t' loss loss_d,
    @train_multi_task.train_step toy {[ "real" := [[1]]; "sim" := [[3]] ]} toy_multi
    = Done tt t' /\
    train_multi_task.trace t' =
      [EvForward Train true; EvGenStep loss; EvDiscStep loss_d] /\
    loss_d == 17 # 4.
Proof.
  destruct (@discriminator_loss_blend toy toy_multi
              {[ "real" := [[1]]; "sim" := [[3]] ]} (1 # 2) [[1]] [[3]])
    as (t' & loss & loss_d & Hrun & Htr & _ & _ & Hloss).
  - reflexivity.
  - reflexivity.
  - reflexivity.
  - exists t', loss, loss_d. split; [exact Hrun|]. split; [exact Htr|].
    rewrite Hloss. reflexivity.
Defined.

Lemma validation_in_eval_mode_witness :
  Forall mode_ok
    (train_multi_task.trace
       (final_state (@train_multi_task.start toy toy_train_loaders
                       toy_val_loaders 1 toy_multi))) /\
  Forall mode_ok
    (train_unet.trace
       (final_state (@train_unet.start toy toy_train_loader toy_val_loader
                       10 1 toy_unet))).
Proof.
  destruct (@validation_in_eval_mode toy toy_multi toy_multi toy_unet toy_unet 1
              (toy_val_loaders 0) (toy_val_loader 0)
              toy_train_loaders toy_val_loaders toy_train_loader toy_val_loader
              1 10) as (_ & _ & [Hmulti _] & [Hunet _]).
  - discriminate.
  - repeat constructor; apply toy_has_images.
  - discriminate.
  - repeat constructor; apply toy_has_images.
  - reflexivity.
  - reflexivity.
  - split; assumption.
Defined.

Lemma early_exit_on_cutoff_witness :
  stops_after_cutoff
    (train_multi_task.trace
       (final_state (@train_multi_task.start toy toy_train_loaders
                       toy_val_loaders 1 toy_multi))) /\
  stops_after_cutoff
    (train_unet.trace
       (final_state (@train_unet.start toy toy_train_loader toy_val_loader
                       10 1 toy_unet))).
Proof.
  destruct (@early_exit_on_cutoff toy toy_multi toy_multi toy_unet toy_unet
              toy_train_loaders toy_val_loaders toy_train_loader toy_val_loader
              1 10) as (_ & _ & Hmulti & Hunet).
  - reflexivity.
  - reflexivity.
  - reflexivity.
  - reflexivity.
  - split; assumption.
Defined.

Lemma final_save_needs_an_epoch_witness :
  exists u' tr e_last,
    @train_unet.start toy toy_train_loader toy_val_loader 10 1 toy_unet
    = Done tt u' /\
    train_unet.trace u' = tr ++ [EvSaveModel (at_epoch (e_last + 1))].
Proof.
  destruct (@final_save_needs_an_epoch toy toy_unet toy_train_loader
              toy_val_loader 10 1) as [_ Hrun].
  - intros e. repeat constructor; apply toy_has_images.
  - intros e. split; [discriminate|]. repeat constructor; apply toy_has_images.
  - apply toy_SSIM_le_1.
  - lia.
  - lia.
  - destruct Hrun as (u' & tr & e_last & Hstart & Htr & _); [simpl; lia|].
    exists u', tr, e_last. split; assumption.
Defined.

End Instances.

(** * Further properties of the scripts *)

(** ** Steps of an epoch and failures of [concat_samples] *)

Section Steps.
Import train_multi_task.

Lemma foldr_min_lt {A} (ls : list (list A)) (b j : nat) :
  (j < foldr (fun l' m => Nat.min (length l') m) b ls)%nat <->
  (j < b)%nat /\ Forall (fun l' => (j < length l')%nat) ls.
Proof.
  induction ls as [|l' ls IH]; simpl.
  - split; [by intros ?; split | by intros [? _]].
  - rewrite Forall_cons. split.
    + intros Hj. apply Nat.min_glb_lt_iff in Hj as [? Hj]. apply IH in Hj. tauto.
    + intros (? & ? & ?). apply Nat.min_glb_lt; [done|]. apply IH. done.
Qed.

Lemma shortest_lt {A} (l : list A) (ls : list (list A)) (j : nat) :
  (j < shortest (l :: ls))%nat <-> Forall (fun l' => (j < length l')%nat) (l :: ls).
Proof. unfold shortest. rewrite foldr_min_lt, Forall_cons. done. Qed.

Lemma zip_star_length {A} (loaders : list (list A)) :
  length (zip_star loaders) = shortest loaders.
Proof.
  destruct loaders as [|l ls]; [done|].
  assert (forall j, (j < length (zip_star (l :: ls)))%nat
                    <-> (j < shortest (l :: ls))%nat) as Hiff.
  { intros j. rewrite shortest_lt. split.
    - intros [samples Hj]%lookup_lt_is_Some_2.
      unfold zip_star in Hj. apply zip_steps_lookup in Hj.
      apply Forall_forall. intros l' [i Hi]%list_elem_of_lookup.
      destruct (Forall2_lookup_l _ _ _ _ _ Hj Hi) as (b & _ & Hb).
      by apply lookup_lt_Some in Hb.
    - intros Hall. apply lookup_lt_is_Some_1.
      by apply zip_star_is_Some. }
  destruct (Nat.lt_trichotomy (length (zip_star (l :: ls))) (shortest (l :: ls)))
    as [Hlt|[Heq|Hgt]]; [|done|].
  - apply Hiff in Hlt. lia.
  - apply Hiff in Hgt. lia.
Qed.

(** X1.  An epoch of the multi-task trainer makes as many training steps as
    the shortest task loader has batches (none when there is no loader),
    and every step receives one batch per loader. *)
Theorem zip_star_steps {A} (loaders : list (list A)) :
  length (zip_star loaders) = shortest loaders /\
  Forall (fun samples => length samples = length loaders) (zip_star loaders).
Proof.
  split; [apply zip_star_length|].
  apply Forall_forall. intros samples [j Hj]%list_elem_of_lookup.
  destruct loaders as [|l ls]; [done|].
  unfold zip_star in Hj. apply zip_steps_lookup in Hj.
  symmetry. by eapply Forall2_length.
Qed.

(** How the inner loop of [concat_samples] ends. *)
Lemma cat_keys_outcome (keys : list string) (sample other : Sample) :
  (forall k, k ∈ keys -> is_Some (sample !! k)) ->
  match cat_keys keys sample other with
  | Ok combined => forall k, k ∈ keys -> is_Some (other !! k)
  | Raise e => e = KeyError /\ exists k, k ∈ keys /\ other !! k = None
  end.
Proof.
  revert sample. induction keys as [|key keys IH]; intros sample Hin; simpl.
  - intros k Hk. by apply elem_of_nil in Hk.
  - destruct (Hin key) as [a Ha]; [left|]. rewrite Ha.
    destruct (other !! key) as [b|] eqn:Hb.
    + specialize (IH (<[key := cat a b]> sample)).
      destruct (cat_keys keys (<[key := cat a b]> sample) other) as [c|e].
      * intros k [->|Hk]%elem_of_cons; [by eauto|]. apply IH; [|done].
        intros k' Hk'. destruct (decide (key = k')) as [->|Hne].
        { rewrite lookup_insert_eq. eauto. }
        rewrite lookup_insert_ne by done. apply Hin. by right.
      * destruct IH as [-> (k & Hk & Hnone)].
        { intros k' Hk'. destruct (decide (key = k')) as [->|Hne].
          - rewrite lookup_insert_eq. eauto.
          - rewrite lookup_insert_ne by done. apply Hin. by right. }
        split; [done|]. exists k. split; [by right|done].
    + split; [done|]. exists key. split; [left|done].
Qed.

Lemma cat_rest_outcome (rest : list Sample) (sample : Sample) :
  match cat_rest sample rest with
  | Ok combined =>
      Forall (fun other => dom sample ⊆ dom other) rest /\
      dom combined = dom sample
  | Raise e =>
      e = KeyError /\ ~ Forall (fun other => dom sample ⊆ dom other) rest
  end.
Proof.
  revert sample. induction rest as [|other rest IH]; intros sample; simpl.
  - done.
  - pose proof (cat_keys_outcome (elements (dom sample)) sample other) as Hk.
    destruct (cat_keys (elements (dom sample)) sample other) as [s1|e] eqn:Hrun.
    + assert (dom sample ⊆ dom other) as Hsub.
      { intros k Hk'. apply elem_of_dom. apply Hk.
        - intros k' Hk''. by apply elem_of_dom, elem_of_elements.
        - by apply elem_of_elements. }
      destruct (cat_keys_all sample other Hsub) as (s1' & Hs1 & Hdom & _).
      rewrite Hrun in Hs1. injection Hs1 as <-.
      simpl. specialize (IH s1). destruct (cat_rest s1 rest) as [c|e].
      * destruct IH as [Hall Hd]. rewrite Hdom in Hall, Hd.
        split; [by constructor|done].
      * destruct IH as [-> Hno]. split; [done|]. rewrite Hdom in Hno.
        intros [_ ?]%Forall_cons. done.
    + simpl. destruct Hk as [-> (k & Hk & Hnone)].
      { intros k' Hk''. by apply elem_of_dom, elem_of_elements. }
      split; [done|]. intros [Hsub _]%Forall_cons.
      apply elem_of_elements, Hsub, elem_of_dom in Hk as [? ?]. congruence.
Qed.

(** X2.  [concat_samples] returns exactly when it is given at least one
    sample and every later sample has all the keys of the first; the result
    then has the keys of the first sample and no other, whatever further
    keys the later samples carry.  With no sample it raises [IndexError],
    with a key missing from a later sample [KeyError]. *)
Theorem concat_samples_outcome (samples : list Sample) :
  match concat_samples samples with
  | Ok combined =>
      exists first rest,
        samples = first :: rest /\
        Forall (fun other => dom first ⊆ dom other) rest /\
        dom combined = dom first
  | Raise e =>
      (samples = [] /\ e = IndexError) \/
      (exists first rest,
         samples = first :: rest /\
         ~ Forall (fun other => dom first ⊆ dom other) rest /\
         e = KeyError)
  end.
Proof.
  destruct samples as [|first rest]; simpl; [by left|].
  pose proof (cat_rest_outcome rest first) as Hrest.
  destruct (cat_rest first rest) as [combined|e].
  - destruct Hrest. by exists first, rest.
  - destruct Hrest as [-> ?]. right. by exists first, rest.
Qed.

End Steps.

(** ** Batch sizes of the data loaders *)

Section LoaderSizes.
Local Open Scope Z_scope.

Lemma quot_quarter_le (b : Z) : Z.max 1 (Z.quot b 4) <= Z.max 1 b.
Proof.
  destruct (Z_lt_le_dec b 0) as [Hneg|Hpos].
  - pose proof (Z.quot_opp_l b 4 ltac:(lia)) as Hq.
    assert (0 <= Z.quot (- b) 4) by (apply Z.quot_pos; lia). lia.
  - rewrite Z.quot_div_nonneg by lia.
    assert (b / 4 <= b) by (apply Z.div_le_upper_bound; lia). lia.
Qed.

(** Rounding to the nearest integer moves up by less than one, and only
    from the upper half. *)
Lemma round_half_even_bounds (n d : Z) :
  0 < d ->
  n / d <= python.round_half_even n d <= n / d + 1 /\
  (python.round_half_even n d = n / d + 1 -> d <= 2 * (n mod d)).
Proof.
  intros Hd. unfold python.round_half_even.
  destruct (2 * (n mod d) <? d) eqn:Hlow.
  - apply Z.ltb_lt in Hlow. lia.
  - apply Z.ltb_ge in Hlow.
    destruct (d <? 2 * (n mod d)); [lia|]. destruct (Z.even (n / d)); lia.
Qed.

(** The scale of a quotient whose numerator fits a float. *)
Lemma scale_of_small (n d : Z) :
  0 < n < 2 ^ 53 -> 0 < d ->
  0 <= python.scale_of n d /\ d * 2 ^ 52 <= n * 2 ^ python.scale_of n d.
Proof.
  intros [Hn Hn53] Hd.
  pose proof (Z.log2_spec n Hn) as [Hln _].
  pose proof (Z.log2_spec d Hd) as [_ Hld].
  pose proof (Z.log2_nonneg n) as Hln0.
  pose proof (Z.log2_nonneg d) as Hld0.
  assert (Z.log2 n < 53) as Hln53 by (by apply Z.log2_lt_pow2).
  unfold python.scale_of.
  set (s := 52 + Z.log2 d - Z.log2 n).
  assert (0 <= s) as Hs by (unfold s; lia).
  unfold python.up, python.down.
  rewrite (Z.max_r 0 s), (Z.max_l 0 (- s)) by lia.
  rewrite Z.pow_0_r, Z.mul_1_r.
  destruct (d * 2 ^ 52 <=? n * 2 ^ s) eqn:Hfit.
  - apply Z.leb_le in Hfit. split; [done|exact Hfit].
  - split; [lia|].
    assert (2 ^ Z.log2 n * 2 ^ (s + 1) = 2 ^ 52 * 2 ^ Z.succ (Z.log2 d)) as Hpow.
    { rewrite <- !Z.pow_add_r by lia. f_equal. unfold s. lia. }
    assert (0 < 2 ^ (s + 1)) as Hpos by (apply Z.pow_pos_nonneg; lia).
    assert (2 ^ Z.log2 n * 2 ^ (s + 1) <= n * 2 ^ (s + 1)) as Hle.
    { apply Z.mul_le_mono_nonneg_r; lia. }
    assert (d * 2 ^ 52 <= 2 ^ 52 * 2 ^ Z.succ (Z.log2 d)) as Hd52.
    { rewrite (Z.mul_comm d). apply Z.mul_le_mono_nonneg_l; lia. }
    lia.
Qed.

(** While the numerator fits a float, the float quotient has the integer
    part of the exact quotient. *)
Lemma int_of_quotient_small (n d : Z) :
  0 < n < 2 ^ 53 -> 0 < d -> python.int_of_quotient n d = n / d.
Proof.
  intros Hn Hd.
  destruct (scale_of_small n d Hn Hd) as [Hs Hfit].
  unfold python.int_of_quotient, python.up, python.down.
  rewrite (Z.max_r 0 (python.scale_of n d)),
    (Z.max_l 0 (- python.scale_of n d)) by lia.
  rewrite Z.pow_0_r, !Z.mul_1_r.
  set (P := 2 ^ python.scale_of n d) in *.
  assert (0 < P) as HP by (apply Z.pow_pos_nonneg; lia).
  destruct (round_half_even_bounds (n * P) d Hd) as [[Hlo Hhi] Hup].
  set (m := python.round_half_even (n * P) d) in *.
  pose proof (Z.div_mod n d ltac:(lia)) as Hnd.
  pose proof (Z.mod_pos_bound n d Hd) as Hr.
  pose proof (Z.div_mod (n * P) d ltac:(lia)) as HNd.
  pose proof (Z.mod_pos_bound (n * P) d Hd) as HR.
  set (k := n / d) in *. set (r := n mod d) in *.
  set (Q := n * P / d) in *. set (R := (n * P) mod d) in *.
  assert (n * P = d * (k * P) + r * P) as Hsplit by (rewrite Hnd at 1; ring).
  assert (0 <= r * P) as HrP by (apply Z.mul_nonneg_nonneg; lia).
  assert (r * P + P <= d * P) as HrP'.
  { replace (r * P + P) with ((r + 1) * P) by ring.
    apply Z.mul_le_mono_nonneg_r; lia. }
  assert (k * P <= Q) as HQlo.
  { apply Z.div_le_lower_bound; lia. }
  assert (Q < (k + 1) * P) as HQhi.
  { apply Z.div_lt_upper_bound; [lia|].
    replace (d * ((k + 1) * P)) with (d * (k * P) + d * P) by ring. lia. }
  assert (d < 2 * P) as HdP.
  { assert (n * P < 2 ^ 53 * P) as HnP by (apply Z.mul_lt_mono_pos_r; lia).
    change (2 ^ 53) with (2 * 2 ^ 52) in HnP.
    assert (d * 2 ^ 52 < (2 * P) * 2 ^ 52) as Hlt by lia.
    eapply Z.mul_lt_mono_pos_r; [|exact Hlt]. lia. }
  assert (m < (k + 1) * P) as Hmhi.
  { destruct (Z.eq_dec m (Q + 1)) as [Hm|Hm]; [|lia].
    specialize (Hup Hm).
    destruct (Z.eq_dec (Q + 1) ((k + 1) * P)) as [Hfull|Hfull]; [|lia].
    assert (d * Q = d * (k * P) + d * P - d) as HdQ.
    { replace Q with ((k + 1) * P - 1) by lia. ring. }
    lia. }
  symmetry. apply Z.div_unique with (r := m - k * P); lia.
Qed.

(** [int(a / b)] is the quotient rounded towards zero while [a] fits a float. *)
Lemma int_div_small (a : Z) (b : nat) :
  Z.abs a < 2 ^ 53 -> (0 < b)%nat ->
  python.int_div a b = Ok (Z.quot a (Z.of_nat b)).
Proof.
  intros Ha Hb. unfold python.int_div. destruct b as [|b']; [lia|].
  set (d := Z.of_nat (S b')). assert (0 < d) as Hd by (unfold d; lia).
  destruct (a =? 0) eqn:Hzero.
  - apply Z.eqb_eq in Hzero. subst a. by rewrite Z.quot_0_l by lia.
  - apply Z.eqb_neq in Hzero.
    rewrite int_of_quotient_small by lia.
    assert (Z.abs a / d <= Z.abs a) as Hle.
    { apply Z.div_le_upper_bound; [lia|]. nia. }
    assert (2 ^ 53 < 2 ^ 1024) as Hbig by (apply Z.pow_lt_mono_r; lia).
    destruct (2 ^ 1024 <=? Z.abs a / d) eqn:Hover.
    { apply Z.leb_le in Hover. lia. }
    f_equal. rewrite (Z.quot_div a d) by lia.
    rewrite (Z.sgn_pos d), (Z.abs_eq d) by lia. ring.
Qed.

Lemma DataLoader_returns (task : nat) (size workers : Z) (shuffle : bool) :
  0 < workers -> 0 < size -> loadable shuffle task ->
  torch.DataLoader task size shuffle workers
  = Ok (torch.mk_loader task size shuffle workers).
Proof.
  intros Hw Hsize Hload. unfold torch.DataLoader.
  rewrite (proj2 (Z.leb_gt workers 0)), (proj2 (Z.leb_gt size 0)) by lia.
  destruct shuffle; [|done].
  specialize (Hload eq_refl).
  by rewrite (proj2 (Nat.eqb_neq task 0)) by lia.
Qed.

Lemma DataLoader_no_workers (task : nat) (size workers : Z) (shuffle : bool) :
  workers <= 0 -> torch.DataLoader task size shuffle workers = Raise ValueError.
Proof.
  intros Hw. unfold torch.DataLoader.
  by rewrite (proj2 (Z.leb_le workers 0)) by lia.
Qed.

Lemma rmap_ext {A B} (f g : A -> result B) (xs : list A) :
  (forall x, f x = g x) -> rmap f xs = rmap g xs.
Proof.
  intros Hfg. induction xs as [|x xs IH]; [done|]. simpl. by rewrite Hfg, IH.
Qed.

Lemma rmap_DataLoader (size workers : Z) (shuffle : bool) (tasks : list nat) :
  0 < workers -> 0 < size -> Forall (loadable shuffle) tasks ->
  rmap (fun task => torch.DataLoader task size shuffle workers) tasks
  = Ok (map (fun task => torch.mk_loader task size shuffle workers) tasks).
Proof.
  intros Hw Hsize. induction 1 as [|task tasks Htask _ IH]; [done|].
  simpl. by rewrite DataLoader_returns, IH.
Qed.

Lemma quot_half (cores : Z) :
  (cores < 2 -> Z.quot cores 2 <= 0) /\ (2 <= cores -> 0 < Z.quot cores 2).
Proof.
  split; intros Hc.
  - destruct (Z_lt_le_dec cores 0) as [Hneg|Hpos].
    + pose proof (Z.quot_opp_l cores 2 ltac:(lia)) as Hq.
      assert (0 <= Z.quot (- cores) 2) by (apply Z.quot_pos; lia). lia.
    + rewrite Z.quot_small; lia.
  - rewrite Z.quot_div_nonneg by lia.
    assert (1 <= cores / 2) by (apply Z.div_le_lower_bound; lia). lia.
Qed.

(** X3.  The loaders that the two trainers build, for a number of cores
    and a batch size that fit a float.  With no training task
    [get_data_loaders] raises [ZeroDivisionError]; with fewer than two
    cores neither trainer can build a loader: the framework refuses
    [prefetch_factor] without workers.  Otherwise the multi-task trainer
    builds one loader per task, all with half the cores as workers.  Every
    training loader has the same batch size, at least 1 whatever
    [batch_size] is: the batches of a step together hold at most
    [batch_size] items and more than [batch_size - n] when [batch_size] is
    at least the number [n] of tasks, and one item per task, more than
    asked for, when it is smaller.  The validation batch size is a quarter
    of [batch_size], at least 1, in both trainers, whatever the number of
    tasks.  The supervised trainer hands [batch_size] to its training
    loader as it is, and so raises [ValueError] when it is not positive,
    where the multi-task trainer goes on with 1. *)
Theorem get_data_loaders_sizes (cores batch_size : Z)
    (shuffle_train shuffle_val : bool) (datasets_train datasets_val : list nat)
    (dataset_train dataset_val : nat) :
  Z.abs cores < 2 ^ 53 -> Z.abs batch_size < 2 ^ 53 ->
  let n := Z.of_nat (length datasets_train) in
  let workers := Z.quot cores 2 in
  let train_size := Z.max 1 (Z.quot batch_size n) in
  let val_size := Z.max 1 (Z.quot batch_size 4) in
  let multi := train_multi_task.get_data_loaders cores batch_size shuffle_train
                 shuffle_val datasets_train datasets_val in
  let supervised := train_unet.get_data_loader cores batch_size shuffle_train
                      shuffle_val dataset_train dataset_val in
  (datasets_train = [] -> multi = Raise ZeroDivisionError) /\
  (cores < 2 ->
   (datasets_train <> [] -> multi = Raise ValueError) /\
   supervised = Raise ValueError) /\
  (2 <= cores -> datasets_train <> [] ->
   Forall (loadable shuffle_train) datasets_train ->
   Forall (loadable shuffle_val) datasets_val ->
   multi = Ok (map (fun task => torch.mk_loader task train_size shuffle_train
                                  workers) datasets_train,
               map (fun task => torch.mk_loader task val_size shuffle_val
                                  workers) datasets_val) /\
   (n <= batch_size -> batch_size - n < n * train_size <= batch_size) /\
   (batch_size < n -> train_size = 1) /\
   val_size <= Z.max 1 batch_size) /\
  (2 <= cores -> loadable shuffle_train dataset_train ->
   loadable shuffle_val dataset_val ->
   (1 <= batch_size ->
    supervised = Ok (torch.mk_loader dataset_train batch_size shuffle_train
                       workers,
                     torch.mk_loader dataset_val val_size shuffle_val workers)) /\
   (batch_size <= 0 -> supervised = Raise ValueError)).
Proof.
  intros Hcores Hbatch. cbv zeta.
  unfold train_multi_task.get_data_loaders, train_unet.get_data_loader.
  rewrite (int_div_small cores 2 Hcores) by lia.
  change (Z.of_nat 2) with 2. cbn [rbind].
  destruct (quot_half cores) as [Hfew Hmany].
  assert (python.int_div batch_size 4 = Ok (Z.quot batch_size 4)) as Hquarter.
  { by rewrite (int_div_small batch_size 4 Hbatch) by lia. }
  split; [|split; [|split]].
  - intros ->. reflexivity.
  - intros Hc. specialize (Hfew Hc). split.
    + intros Hne. destruct datasets_train as [|task tasks]; [done|].
      rewrite (int_div_small batch_size _ Hbatch) by (simpl; lia).
      cbn [rbind rmap]. by rewrite DataLoader_no_workers.
    + by rewrite DataLoader_no_workers.
  - intros Hc Hne Htrain Hval. specialize (Hmany Hc).
    assert (0 < Z.of_nat (length datasets_train)) as Hn.
    { destruct datasets_train; [done|]. simpl. lia. }
    rewrite (int_div_small batch_size _ Hbatch) by lia. cbn [rbind].
    rewrite (rmap_DataLoader (Z.max 1 (Z.quot batch_size (Z.of_nat (length datasets_train))))
               (Z.quot cores 2) shuffle_train datasets_train Hmany ltac:(lia) Htrain).
    cbn [rbind].
    rewrite (rmap_ext _ (fun task =>
               torch.DataLoader task (Z.max 1 (Z.quot batch_size 4))
                 shuffle_val (Z.quot cores 2))).
    2:{ intros task. by rewrite Hquarter. }
    rewrite (rmap_DataLoader (Z.max 1 (Z.quot batch_size 4)) (Z.quot cores 2)
               shuffle_val datasets_val Hmany ltac:(lia) Hval).
    cbn [rbind].
    split; [reflexivity|].
    set (n := Z.of_nat (length datasets_train)) in *.
    split; [|split].
    + intros Hle. rewrite Z.quot_div_nonneg by lia.
      pose proof (Z.div_mod batch_size n ltac:(lia)) as Hdm.
      pose proof (Z.mod_pos_bound batch_size n ltac:(lia)) as Hm.
      assert (1 <= batch_size / n) by (apply Z.div_le_lower_bound; lia).
      rewrite Z.max_r by lia. lia.
    + intros Hlt. destruct (Z_lt_le_dec batch_size 0) as [Hneg|Hpos].
      * pose proof (Z.quot_opp_l batch_size n ltac:(lia)) as Hq.
        assert (0 <= Z.quot (- batch_size) n) by (apply Z.quot_pos; lia).
        lia.
      * rewrite Z.quot_small by lia. lia.
    + apply quot_quarter_le.
  - intros Hc Htrain Hval. specialize (Hmany Hc). split.
    + intros Hpos.
      rewrite (DataLoader_returns dataset_train batch_size (Z.quot cores 2)
                 shuffle_train Hmany ltac:(lia) Htrain).
      cbn [rbind]. rewrite Hquarter. cbn [rbind].
      by rewrite (DataLoader_returns dataset_val (Z.max 1 (Z.quot batch_size 4))
                    (Z.quot cores 2) shuffle_val Hmany ltac:(lia) Hval).
    + intros Hneg. unfold torch.DataLoader.
      rewrite (proj2 (Z.leb_gt (Z.quot cores 2) 0)) by lia.
      rewrite (proj2 (Z.leb_le batch_size 0)) by lia.
      by destruct (shuffle_train && (dataset_train =? 0)%nat).
Qed.

(** Beyond the floats that are exact the quotient is rounded before it is
    cut: a batch size of [2 ^ 53 + 1] for one task gives [2 ^ 53]. *)
Example int_div_rounds : python.int_div (2 ^ 53 + 1) 1 = Ok (2 ^ 53).
Proof. vm_compute. reflexivity. Qed.

Lemma get_data_loaders_sizes_witness :
  train_multi_task.get_data_loaders 8 64 true false [100; 50; 70; 20]%nat
    [10; 10]%nat
  = Ok (map (fun task => torch.mk_loader task 16 true 4) [100; 50; 70; 20]%nat,
        map (fun task => torch.mk_loader task 16 false 4) [10; 10]%nat) /\
  train_unet.get_data_loader 8 64 true false 100 10
  = Ok (torch.mk_loader 100 64 true 4, torch.mk_loader 10 16 false 4).
Proof.
  destruct (get_data_loaders_sizes 8 64 true false [100; 50; 70; 20]%nat
              [10; 10]%nat 100 10) as (_ & _ & Hmulti & Hsupervised).
  - reflexivity.
  - reflexivity.
  - split.
    + destruct Hmulti as [Hrun _].
      * lia.
      * discriminate.
      * repeat constructor; intros _; lia.
      * repeat constructor; intros Hs; discriminate Hs.
      * exact Hrun.
    + destruct Hsupervised as [Hrun _].
      * lia.
      * intros _. lia.
      * intros Hs. discriminate Hs.
      * apply Hrun. lia.
Defined.

End LoaderSizes.

(** ** Sessions of the window *)

Section Sessions.
Import GUI.

Lemma clicked_eq (b : button) (dialog : result (string * string)) (w : window) :
  clicked b dialog w = Done tt (after_click b dialog w).
Proof.
  unfold clicked, choose_image1, choose_image2, try_except, getOpenFileName,
    lift, bind, raise, ret, modify, showMessage, print, after_click.
  destruct b, dialog as [[path filter]|ex]; simpl; try reflexivity.
  - destruct (decide (path <> "")) as [Hne|Heq]; simpl.
    + apply String.eqb_neq in Hne. rewrite Hne. reflexivity.
    + apply dec_stable in Heq. subst path. simpl. rewrite app_nil_r.
      by destruct w.
  - destruct (decide (path <> "")) as [Hne|Heq]; simpl.
    + apply String.eqb_neq in Hne. rewrite Hne. reflexivity.
    + apply dec_stable in Heq. subst path. simpl. rewrite app_nil_r.
      by destruct w.
Qed.

Lemma event_loop_state (clicks : list (button * result (string * string)))
    (w : window) :
  exists w',
    event_loop clicks w = Done tt w' /\
    im1 w' = im1 w /\ im2 w' = im2 w /\
    status_message w' =
      (if existsb dialog_raised clicks then Some "Cancelled Load"
       else status_message w) /\
    printed w' = printed w ++ replicate (selections clicks)
                                        "now impliment load image" /\
    image1_file w' = last_path button_image1 clicks (image1_file w) /\
    image2_file w' = last_path button_image2 clicks (image2_file w).
Proof.
  revert w. induction clicks as [|[b dialog] clicks IH]; intros w.
  - exists w. simpl. rewrite app_nil_r. done.
  - unfold event_loop. simpl. rewrite bind_eq, clicked_eq.
    destruct (IH (after_click b dialog w))
      as (w' & Hrun & H1 & H2 & Hst & Hpr & Hf1 & Hf2).
    exists w'. split; [exact Hrun|].
    rewrite H1, H2, Hst, Hpr, Hf1, Hf2. unfold selections, dialog_raised.
    destruct dialog as [[path filter]|ex]; simpl.
    + split; [done|]. split; [done|]. split; [done|]. split.
      * destruct (negb (String.eqb path "")); simpl; by rewrite <- app_assoc.
      * by destruct b.
    + split; [done|]. split; [done|]. split.
      * by destruct (existsb _ clicks).
      * done.
Qed.

(** X4.  A session of clicks never raises and never changes the two
    pictures shown.  The status bar shows "Cancelled Load" from the first
    dialog that raises on, also after later selections: nothing clears it;
    without such a dialog it keeps its message.  One line is printed per
    selection that is not empty. *)
Theorem event_loop_status (clicks : list (button * result (string * string)))
    (w : window) :
  exists w',
    event_loop clicks w = Done tt w' /\
    im1 w' = im1 w /\ im2 w' = im2 w /\
    status_message w' =
      (if existsb dialog_raised clicks then Some "Cancelled Load"
       else status_message w) /\
    printed w' = printed w ++ replicate (selections clicks)
                                        "now impliment load image".
Proof.
  destruct (event_loop_state clicks w) as (w' & ? & ? & ? & ? & ? & _).
  by exists w'.
Qed.

(** X5.  After a session each recorded path is what the last dialog of its
    button that returned gave, the empty path of a closed dialog included:
    closing the dialog replaces an earlier selection by the empty path.
    Clicks of the other button and dialogs that raise leave it alone. *)
Theorem event_loop_paths (clicks : list (button * result (string * string)))
    (w : window) :
  exists w',
    event_loop clicks w = Done tt w' /\
    image1_file w' = last_path button_image1 clicks (image1_file w) /\
    image2_file w' = last_path button_image2 clicks (image2_file w).
Proof.
  destruct (event_loop_state clicks w) as (w' & ? & _ & _ & _ & _ & ? & ?).
  by exists w'.
Qed.

(** X6.  The two callbacks commute: clicking the two buttons in either
    order, each with its dialog's outcome, leaves the same window. *)
Theorem callbacks_commute (dialog1 dialog2 : result (string * string))
    (w : window) :
  (choose_image1 dialog1 ;;; choose_image2 dialog2) w
  = (choose_image2 dialog2 ;;; choose_image1 dialog1) w.
Proof.
  rewrite !bind_eq.
  change (choose_image1 dialog1) with (clicked button_image1 dialog1).
  change (choose_image2 dialog2) with (clicked button_image2 dialog2).
  rewrite !clicked_eq. f_equal. unfold after_click.
  destruct dialog1 as [[p1 f1]|e1], dialog2 as [[p2 f2]|e2]; simpl; try done.
  destruct (negb (String.eqb p1 "")), (negb (String.eqb p2 "")); simpl;
    rewrite ?app_nil_r; done.
Qed.

End Sessions.

(** ** Training steps: missing images, and the step without a discriminator *)

Section StepEdges.
Context `{Framework}.

Lemma not_has_images (sample : Sample) :
  ~ has_images sample -> sample !! "real" = None \/ sample !! "sim" = None.
Proof.
  intros Hno. destruct (sample !! "real") as [x|] eqn:Hr; [|by left].
  destruct (sample !! "sim") as [y|] eqn:Hs; [|by right].
  exfalso. apply Hno. split; [rewrite Hr | rewrite Hs]; eauto.
Qed.

Lemma multi_train_step_KeyError (t : train_multi_task.trainer) (sample : Sample) :
  ~ has_images sample ->
  train_multi_task.train_step sample t = Raised KeyError t.
Proof.
  intros Hno. unfold train_multi_task.train_step, train_multi_task.getitem.
  rewrite bind_eq.
  destruct (not_has_images sample Hno) as [Hr|Hs].
  - rewrite Hr. reflexivity.
  - destruct (sample !! "real") as [x|]; [|reflexivity].
    unfold ret at 1. rewrite bind_eq, Hs. reflexivity.
Qed.

Lemma unet_train_step_KeyError (u : train_unet.trainer) (sample : Sample) :
  ~ has_images sample ->
  train_unet.train_step sample u = Raised KeyError u.
Proof.
  intros Hno. unfold train_unet.train_step, train_unet.getitem.
  rewrite bind_eq.
  destruct (not_has_images sample Hno) as [Hr|Hs].
  - rewrite Hr. reflexivity.
  - destruct (sample !! "real") as [x|]; [|reflexivity].
    unfold ret at 1. rewrite bind_eq, Hs. reflexivity.
Qed.

Lemma multi_train_step_supervised (t : train_multi_task.trainer)
    (sample : Sample) (im_real im_sim : tensor) :
  train_multi_task.discriminator t = None ->
  sample !! "real" = Some im_real ->
  sample !! "sim" = Some im_sim ->
  let pred_sim :=
    forward (train_multi_task.model t) (train_multi_task.training t) im_real in
  let loss := MSELoss pred_sim im_sim in
  train_multi_task.train_step sample t =
  Done tt
    (train_multi_task.set_trace
       (train_multi_task.trace t
        ++ [EvForward Train (train_multi_task.training t); EvGenStep loss])
       (train_multi_task.set_running_loss
          (train_multi_task.running_loss t ++ [loss])
          (train_multi_task.set_model
             (optimiser_step (train_multi_task.scheduler t)
                (train_multi_task.model t) None im_real im_sim) t))).
Proof.
  intros Hd Hreal Hsim. cbv zeta.
  unfold train_multi_task.train_step, train_multi_task.getitem, bind, get,
    train_multi_task.emit, modify, ret.
  rewrite Hreal, Hsim. simpl. rewrite Hd.
  unfold train_multi_task.set_trace, train_multi_task.set_running_loss,
    train_multi_task.set_model. simpl.
  rewrite <- !app_assoc. reflexivity.
Qed.

Lemma unet_train_step_eq (u : train_unet.trainer) (sample : Sample)
    (im_real im_sim : tensor) :
  sample !! "real" = Some im_real ->
  sample !! "sim" = Some im_sim ->
  let pred_sim := forward (train_unet.model u) (train_unet.training u) im_real in
  let loss := MSELoss pred_sim im_sim in
  train_unet.train_step sample u =
  Done tt
    (train_unet.set_trace
       (train_unet.trace u
        ++ [EvForward Train (train_unet.training u); EvGenStep loss])
       (train_unet.set_running_loss (train_unet.running_loss u ++ [loss])
          (train_unet.set_model
             (optimiser_step (train_unet.scheduler u) (train_unet.model u)
                None im_real im_sim) u))).
Proof.
  intros Hreal Hsim. cbv zeta.
  unfold train_unet.train_step, train_unet.getitem, bind, get,
    train_unet.emit, modify, ret.
  rewrite Hreal, Hsim. simpl.
  unfold train_unet.set_trace, train_unet.set_running_loss,
    train_unet.set_model. simpl.
  rewrite <- !app_assoc. reflexivity.
Qed.

(** X7.  Without a discriminator a training step of the multi-task trainer
    is the training step of the supervised trainer: from trainers that
    agree on the generator, both raise [KeyError] or both return, with the
    same loss, the same update of the generator and the same events, and
    the multi-task trainer still has no discriminator. *)
Theorem train_step_without_discriminator (t : train_multi_task.trainer)
    (u : train_unet.trainer) (sample : Sample) :
  train_multi_task.discriminator t = None ->
  same_generator t u ->
  match train_multi_task.train_step sample t, train_unet.train_step sample u with
  | Done _ t', Done _ u' =>
      same_generator t' u' /\ train_multi_task.discriminator t' = None /\
      length (train_unet.running_loss u') = S (length (train_unet.running_loss u))
  | Raised e t', Raised e' u' => e = KeyError /\ e' = KeyError /\ t' = t /\ u' = u
  | _, _ => False
  end.
Proof.
  intros Hd (Hm & Hmode & Hsched & Hrl & Htr).
  destruct (sample !! "real") as [im_real|] eqn:Hreal.
  - destruct (sample !! "sim") as [im_sim|] eqn:Hsim.
    + rewrite (multi_train_step_supervised t sample _ _ Hd Hreal Hsim).
      rewrite (unet_train_step_eq u sample _ _ Hreal Hsim). cbv zeta.
      unfold same_generator. simpl. rewrite Hm, Hmode, Hsched, Hrl, Htr.
      repeat split; try done. rewrite length_app. simpl. lia.
    + rewrite multi_train_step_KeyError, unet_train_step_KeyError; try done.
      all: intros [_ [? ?]]; congruence.
  - rewrite multi_train_step_KeyError, unet_train_step_KeyError; try done.
    all: intros [[? ?] _]; congruence.
Qed.

(** X8.  In both trainers a batch that lacks the "real" or the "sim" image
    makes [train_step] raise [KeyError] before anything happens: no forward
    pass, no optimiser step, no loss recorded; the trainer is as it was,
    with or without a discriminator. *)
Theorem train_step_missing_image (t : train_multi_task.trainer)
    (u : train_unet.trainer) (sample : Sample) :
  sample !! "real" = None \/ sample !! "sim" = None ->
  train_multi_task.train_step sample t = Raised KeyError t /\
  train_unet.train_step sample u = Raised KeyError u.
Proof.
  intros Hmiss.
  assert (~ has_images sample) as Hno.
  { intros [[? Hr] [? Hs]]. destruct Hmiss; congruence. }
  split; [by apply multi_train_step_KeyError | by apply unet_train_step_KeyError].
Qed.

End StepEdges.

(** ** Validation that cannot finish *)

Section ValidationEdges.
Context `{Framework}.

Lemma multi_val_batches_app (l1 l2 : list Sample) (acc : list Q * list Q)
    (t : train_multi_task.trainer) :
  train_multi_task.val_batches acc (l1 ++ l2) t =
  (acc' <- train_multi_task.val_batches acc l1 ;;
   train_multi_task.val_batches acc' l2) t.
Proof.
  revert acc t. induction l1 as [|s l1 IH]; intros acc t; [reflexivity|].
  simpl. rewrite !bind_eq.
  destruct (train_multi_task.val_batch acc s t) as [acc' t'|ex t']; [|reflexivity].
  rewrite IH, bind_eq. reflexivity.
Qed.

Lemma unet_val_batches_app (l1 l2 : list Sample) (acc : list Q * list Q)
    (u : train_unet.trainer) :
  train_unet.val_batches acc (l1 ++ l2) u =
  (acc' <- train_unet.val_batches acc l1 ;; train_unet.val_batches acc' l2) u.
Proof.
  revert acc u. induction l1 as [|s l1 IH]; intros acc u; [reflexivity|].
  simpl. rewrite !bind_eq.
  destruct (train_unet.val_batch acc s u) as [acc' u'|ex u']; [|reflexivity].
  rewrite IH, bind_eq. reflexivity.
Qed.

Lemma multi_val_batch_KeyError (acc : list Q * list Q) (sample : Sample)
    (t : train_multi_task.trainer) :
  ~ has_images sample ->
  train_multi_task.val_batch acc sample t = Raised KeyError t.
Proof.
  intros Hno. unfold train_multi_task.val_batch, train_multi_task.getitem.
  rewrite bind_eq.
  destruct (not_has_images sample Hno) as [Hr|Hs].
  - rewrite Hr. reflexivity.
  - destruct (sample !! "real") as [x|]; [|reflexivity].
    unfold ret at 1. rewrite bind_eq, Hs. reflexivity.
Qed.

Lemma unet_val_batch_KeyError (acc : list Q * list Q) (sample : Sample)
    (u : train_unet.trainer) :
  ~ has_images sample ->
  train_unet.val_batch acc sample u = Raised KeyError u.
Proof.
  intros Hno. unfold train_unet.val_batch, train_unet.getitem.
  rewrite bind_eq.
  destruct (not_has_images sample Hno) as [Hr|Hs].
  - rewrite Hr. reflexivity.
  - destruct (sample !! "real") as [x|]; [|reflexivity].
    unfold ret at 1. rewrite bind_eq, Hs. reflexivity.
Qed.

(** X9.  On an empty validation set [val_all] raises [ZeroDivisionError]
    in both trainers, at the average.  By then the model is back in
    training mode; nothing was logged and [ssim] and [MSE] are as before;
    the multi-task trainer has already overwritten [_last_ssim]. *)
Theorem val_all_empty (e : nat) (loaders : list (list Sample))
    (t : train_multi_task.trainer) (u : train_unet.trainer) :
  concat loaders = [] ->
  train_multi_task.val_all e loaders t =
    Raised ZeroDivisionError
      (train_multi_task.set_training true
         (train_multi_task.set_last_ssim (train_multi_task.ssim t) t)) /\
  train_unet.val_all e [] u =
    Raised ZeroDivisionError (train_unet.set_training true u).
Proof.
  intros Hnil. split.
  - unfold train_multi_task.val_all. rewrite Hnil. reflexivity.
  - reflexivity.
Qed.

(** X10.  When a validation batch lacks an image, [val_all] raises
    [KeyError] in both trainers after one forward pass for each batch
    before it, and the model is left in evaluation mode: nothing restores
    the training mode on this path.  [ssim] and [MSE] are as before. *)
Theorem val_all_missing_image (e : nat) (loaders : list (list Sample))
    (good rest : list Sample) (bad : Sample)
    (t : train_multi_task.trainer) (u : train_unet.trainer) :
  concat loaders = good ++ bad :: rest ->
  Forall has_images good ->
  ~ has_images bad ->
  (exists t',
     train_multi_task.val_all e loaders t = Raised KeyError t' /\
     train_multi_task.training t' = false /\
     train_multi_task.ssim t' = train_multi_task.ssim t /\
     train_multi_task.MSE t' = train_multi_task.MSE t /\
     train_multi_task.trace t' =
       train_multi_task.trace t ++ replicate (length good) (EvForward Val false)) /\
  (exists u',
     train_unet.val_all e (good ++ bad :: rest) u = Raised KeyError u' /\
     train_unet.training u' = false /\
     train_unet.ssim u' = train_unet.ssim u /\
     train_unet.MSE u' = train_unet.MSE u /\
     train_unet.trace u' =
       train_unet.trace u ++ replicate (length good) (EvForward Val false)).
Proof.
  intros Hsplit Hgood Hbad. split.
  - unfold train_multi_task.val_all.
    rewrite bind_eq. unfold modify at 1. rewrite bind_eq. unfold modify at 1.
    rewrite bind_eq, Hsplit, multi_val_batches_app, bind_eq.
    rewrite (val_batches_Done _ _ _ Hgood). simpl.
    rewrite bind_eq, multi_val_batch_KeyError by done.
    eexists. split; [reflexivity|]. simpl. done.
  - unfold train_unet.val_all.
    rewrite bind_eq. unfold modify at 1.
    rewrite bind_eq, unet_val_batches_app, bind_eq.
    rewrite (unet_val_batches_Done _ _ _ Hgood). simpl.
    rewrite bind_eq, unet_val_batch_KeyError by done.
    eexists. split; [reflexivity|]. simpl. done.
Qed.

End ValidationEdges.

(** ** Runs on data that is all there *)

Section MultiTaskTotal.
Import train_multi_task.
Context `{Framework}.

Lemma train_step_returns (t : trainer) (sample : Sample) :
  has_images sample ->
  exists t',
    train_step sample t = Done tt t' /\ ctl t' = ctl t /\
    length (running_loss t') = S (length (running_loss t)).
Proof.
  intros [[im_real Hr] [im_sim Hs]].
  destruct (discriminator t) as [d|] eqn:Hd.
  - rewrite (train_step_gan t sample d _ _ Hd Hr Hs). cbv zeta.
    eexists. split; [reflexivity|]. split; [reflexivity|].
    simpl. rewrite length_app. simpl. lia.
  - rewrite (multi_train_step_supervised t sample _ _ Hd Hr Hs). cbv zeta.
    eexists. split; [reflexivity|]. split; [reflexivity|].
    simpl. rewrite length_app. simpl. lia.
Qed.

Lemma train_loop_returns (steps : list (list Sample)) (t : trainer) :
  Forall step_ok steps ->
  exists t',
    for_each steps
      (fun samples => sample <- lift (concat_samples samples) ;; train_step sample) t
    = Done tt t' /\
    ctl t' = ctl t /\
    length (running_loss t') = (length (running_loss t) + length steps)%nat.
Proof.
  revert t. induction steps as [|samples steps IH]; intros t Hall.
  - exists t. simpl. split; [done|]. split; [done|]. lia.
  - apply Forall_cons in Hall as [(sample & Hcat & Himg) Hall].
    destruct (train_step_returns t sample Himg) as (t1 & Hstep & Hc1 & Hl1).
    destruct (IH t1 Hall) as (t' & Hloop & Hc & Hl).
    exists t'. simpl. rewrite bind_eq, bind_eq, Hcat. simpl.
    rewrite Hstep, Hloop. split; [done|]. split; [congruence|].
    rewrite Hl, Hl1. simpl. lia.
Qed.

(** The learning-rate check changes the index and the scheduler only. *)
Lemma check_to_lower_learning_rate_frame (t : trainer) :
  match check_to_lower_learning_rate t with
  | Done _ t' => t' = set_scheduler (scheduler t') (set_step_num (step_num t') t)
  | Raised _ t' => t' = t
  end.
Proof.
  unfold check_to_lower_learning_rate, index, bind, get, modify, ret, raise.
  destruct (step_lr !! step_num t) as [thr|]; [|done].
  destruct (Qltb thr (ssim t)).
  - destruct (_ !! _) as [lim|] eqn:Hlim.
    + destruct (lim <? _)%nat; simpl; by destruct t.
    + exfalso. apply lookup_ge_None in Hlim.
      unfold step_epochs in Hlim. cbn [length] in Hlim. lia.
  - destruct (_ !! _) as [lim|] eqn:Hlim.
    + destruct (lim <? _)%nat; simpl; by destruct t.
    + exfalso. apply lookup_ge_None in Hlim.
      unfold step_epochs in Hlim. cbn [length] in Hlim. lia.
Qed.

Lemma check_to_lower_learning_rate_eq (t : trainer) :
  (step_num t < length step_lr)%nat ->
  exists threshold limit,
    step_lr !! step_num t = Some threshold /\
    step_epochs (epochs t)
      !! Nat.min 2 (step_num t + Nat.b2n (Qltb threshold (ssim t))) = Some limit /\
    check_to_lower_learning_rate t =
    Done tt
      (set_scheduler
         (scheduler t + Nat.b2n (Qltb threshold (ssim t))
          + Nat.b2n (limit <? epoch t))
         (set_step_num (step_num t + Nat.b2n (Qltb threshold (ssim t))) t)).
Proof.
  intros Hn.
  destruct (check_to_lower_learning_rate_spec t Hn)
    as (thr & lim & t' & Hthr & Hrun & Hsn & Hlim & Hsc & _).
  pose proof (check_to_lower_learning_rate_frame t) as Hframe.
  rewrite Hrun in Hframe. rewrite Hsn, Hsc in Hframe.
  exists thr, lim. split; [done|]. split.
  - rewrite <- Hsn. exact Hlim.
  - rewrite Hrun. f_equal. exact Hframe.
Qed.

(** An index that did not end the epoch by [break] is still inside the
    list: the last threshold is 1, above the cutoff. *)
Lemma staged_index_no_break (n : nat) (threshold s : Q) :
  step_lr !! n = Some threshold ->
  Qltb (9999 # 10000) s = false ->
  (n + Nat.b2n (Qltb threshold s) < length step_lr)%nat.
Proof.
  intros Hthr Hs. assert (n < 5)%nat as Hn.
  { apply lookup_lt_Some in Hthr. exact Hthr. }
  apply Qltb_ge in Hs.
  destruct (Qltb threshold s) eqn:Hb; simpl; [|lia].
  apply Qltb_lt in Hb.
  destruct n as [|[|[|[|[|n]]]]]; simpl; try lia.
  injection Hthr as <-. lra.
Qed.

Section Body.
Variable train_loaders : nat -> list (list Sample).
Variable val_loaders : nat -> list (list Sample).

(** The end of the loop body, from an index inside the list. *)
Lemma multi_epoch_tail_returns (t : trainer) :
  (step_num t < length step_lr)%nat ->
  exists threshold limit,
    step_lr !! step_num t = Some threshold /\
    step_epochs (epochs t)
      !! Nat.min 2 (step_num t + Nat.b2n (Qltb threshold (ssim t))) = Some limit /\
    (check_to_lower_learning_rate ;;;
     t <- get ;; ret (Qltb (9999 # 10000) (ssim t))) t =
    Done (Qltb (9999 # 10000) (ssim t))
      (set_scheduler
         (scheduler t + Nat.b2n (Qltb threshold (ssim t))
          + Nat.b2n (limit <? epoch t))
         (set_step_num (step_num t + Nat.b2n (Qltb threshold (ssim t))) t)).
Proof.
  intros Hn.
  destruct (check_to_lower_learning_rate_eq t Hn) as (thr & lim & Hthr & Hlim & Hrun).
  exists thr, lim. split; [done|]. split; [done|].
  rewrite bind_eq, Hrun. reflexivity.
Qed.

(** One epoch on good data, from an index inside the list. *)
Lemma multi_epoch_body_returns (e : nat) (t0 : trainer) :
  (0 < val_every t0)%nat ->
  Forall step_ok (zip_star (train_loaders e)) ->
  ((e mod val_every t0 = 0)%nat ->
   concat (val_loaders e) <> [] /\ Forall has_images (concat (val_loaders e))) ->
  (step_num t0 < length step_lr)%nat ->
  exists brk t threshold limit,
    epoch_body train_loaders val_loaders e t0 = Done brk t /\
    brk = Qltb (9999 # 10000) (ssim t) /\
    val_every t = val_every t0 /\ epochs t = epochs t0 /\
    step_lr !! step_num t0 = Some threshold /\
    step_num t = (step_num t0 + Nat.b2n (Qltb threshold (ssim t)))%nat /\
    step_epochs (epochs t0) !! Nat.min 2 (step_num t) = Some limit /\
    scheduler t = (scheduler t0 + Nat.b2n (Qltb threshold (ssim t))
                   + Nat.b2n (limit <? e))%nat /\
    length (running_loss t) = length (zip_star (train_loaders e)) /\
    ((e mod val_every t0 <> 0)%nat -> ssim t = ssim t0) /\
    ((e mod val_every t0 = 0)%nat ->
     exists m,
       ssim t = Qsum (batch_ssim m false <$> concat (val_loaders e))
                / inject_Z (Z.of_nat (length (concat (val_loaders e)))) /\
       In (EvLogStats (e + 1) (mean (running_loss t)) (MSE t) (ssim t)) (trace t)).
Proof.
  intros Hv Hsteps Hval Hn. unfold epoch_body.
  rewrite bind_eq. unfold emit at 1, modify at 1.
  rewrite bind_eq. unfold modify at 1.
  rewrite bind_eq. unfold modify at 1.
  set (t1 := set_running_loss [] (set_epoch e (set_trace (trace t0 ++ [EvEpoch e]) t0))).
  rewrite bind_eq.
  destruct (train_loop_returns (zip_star (train_loaders e)) t1 Hsteps)
    as (t2 & Hloop & Hc2 & Hl2).
  rewrite Hloop. unfold ctl, knobs in Hc2.
  injection Hc2 as Hm2 Hs2 Hls2 Hep2 Hsn2 Hsc2 He2 Hv2.
  cbn [training ssim _last_ssim epochs step_num scheduler epoch val_every
       running_loss length t1 set_running_loss set_epoch set_trace] in *.
  rewrite bind_eq. unfold get at 1. rewrite bind_eq, He2, Hv2.
  unfold pymod. destruct (val_every t0) as [|v] eqn:Hvv; [lia|].
  unfold ret at 1. rewrite bind_eq.
  destruct (e mod S v =? 0)%nat eqn:Hmod.
  - apply Nat.eqb_eq in Hmod. destruct (Hval Hmod) as [Hne Hall].
    rewrite bind_eq, (val_all_Done (e + 1) (val_loaders e) t2 Hne Hall). cbv zeta.
    rewrite maybe_save_model_eq.
    match goal with
    | |- context [bind check_to_lower_learning_rate _ ?t] => set (t4 := t)
    end.
    set (s := Qsum (batch_ssim (model t2) false <$> concat (val_loaders e))
              / inject_Z (Z.of_nat (length (concat (val_loaders e))))) in *.
    assert (ssim t4 = s /\ step_num t4 = step_num t0 /\ epochs t4 = epochs t0 /\
            scheduler t4 = scheduler t0 /\ epoch t4 = e /\ val_every t4 = S v /\
            running_loss t4 = running_loss t2 /\
            In (EvLogStats (e + 1) (mean (running_loss t2)) (MSE t4) s) (trace t4))
      as (Hs4 & Hsn4 & Hep4 & Hsc4 & He4 & Hv4 & Hrl4 & Hlog).
    { subst t4. destruct (Qltb _ _); simpl; repeat split; try done;
        rewrite ?in_app_iff; simpl; tauto. }
    clearbody t4.
    destruct (multi_epoch_tail_returns t4) as (thr & lim & Hthr & Hlim & Hrun).
    { by rewrite Hsn4. }
    rewrite Hrun. rewrite Hs4, Hsn4, Hep4, Hsc4, He4 in *.
    eexists _, _, thr, lim. split; [reflexivity|].
    cbn [training ssim _last_ssim epochs step_num scheduler epoch val_every
         running_loss MSE trace set_scheduler set_step_num].
    rewrite Hs4, Hv4, Hep4, Hrl4.
    repeat split; try done; try lia.
    intros _. exists (model t2). split; [done|]. exact Hlog.
  - apply Nat.eqb_neq in Hmod. unfold ret at 1.
    destruct (multi_epoch_tail_returns t2) as (thr & lim & Hthr & Hlim & Hrun).
    { by rewrite Hsn2. }
    rewrite Hrun. rewrite Hs2, Hsn2, Hep2, Hsc2, He2 in *.
    eexists _, _, thr, lim. split; [reflexivity|].
    cbn [training ssim _last_ssim epochs step_num scheduler epoch val_every
         running_loss MSE trace set_scheduler set_step_num].
    rewrite Hs2, Hv2, Hep2.
    repeat split; try done; lia.
Qed.

End Body.
End MultiTaskTotal.

Section MultiTaskRunTotal.
Import train_multi_task.
Context `{Framework}.
Variable train_loaders : nat -> list (list Sample).
Variable val_loaders : nat -> list (list Sample).
Hypothesis train_ok : forall e, Forall step_ok (zip_star (train_loaders e)).
Hypothesis val_ok :
  forall e, concat (val_loaders e) <> [] /\
            Forall has_images (concat (val_loaders e)).

Lemma multi_epoch_loop_returns (m : nat) :
  forall (k : nat) (t0 : trainer),
    (0 < val_every t0)%nat ->
    (step_num t0 < length step_lr)%nat ->
    exists t, epoch_loop train_loaders val_loaders (seq k m) t0 = Done tt t.
Proof.
  induction m as [|m IH]; intros k t0 Hv Hn.
  - exists t0. reflexivity.
  - destruct (multi_epoch_body_returns train_loaders val_loaders k t0 Hv
                (train_ok k) (fun _ => val_ok k) Hn)
      as (brk & t & thr & lim & Hrun & Hbrk & Hv' & _ & Hthr & Hsn & _).
    simpl. rewrite bind_eq, Hrun. destruct brk.
    + exists t. reflexivity.
    + apply IH.
      * by rewrite Hv'.
      * rewrite Hsn. by apply staged_index_no_break.
Qed.

Lemma multi_start_returns (every : nat) (t0 : trainer) :
  (0 < every)%nat ->
  exists t, start train_loaders val_loaders every t0 = Done tt t.
Proof.
  intros Hv. unfold start, setup.
  rewrite bind_eq. unfold modify at 1. rewrite bind_eq. unfold modify at 1.
  rewrite bind_eq. unfold get at 1.
  apply multi_epoch_loop_returns; simpl; lia.
Qed.

End MultiTaskRunTotal.

Section UNetRunTotal.
Import train_unet.
Context `{Framework}.
Variable train_loader : nat -> list Sample.
Variable val_loader : nat -> list Sample.
Hypothesis train_images : forall e, Forall has_images (train_loader e).
Hypothesis val_images :
  forall e, val_loader e <> [] /\ Forall has_images (val_loader e).

Lemma unet_epoch_loop_returns (m : nat) :
  forall (k n : nat) (bound : option nat) (u0 : trainer),
    training u0 = true ->
    (0 < val_every u0)%nat -> (0 < save_model_every u0)%nat ->
    (n < length step_lr)%nat ->
    exists r u,
      epoch_loop train_loader val_loader (seq k m) n bound u0 = Done r u /\
      (is_Some bound \/ (0 < m)%nat -> is_Some r).
Proof.
  induction m as [|m IH]; intros k n bound u0 Hm Hv Hsv Hn.
  - exists bound, u0. split; [reflexivity|]. intros [?|?]; [done|lia].
  - simpl. rewrite bind_eq.
    pose proof (unet_epoch_body_outcome train_loader val_loader k n u0 Hm) as Hbody.
    destruct (epoch_body train_loader val_loader k n u0) as [[brk n'] u|ex u].
    + destruct Hbody as (Hm' & Hbrk & Hv' & Hsv' & _ & _ & (thr & Hthr & Hn') & _).
      simpl in Hbrk, Hn'. simpl. destruct brk.
      * exists (Some k), u. split; [reflexivity|]. eauto.
      * destruct (IH (S k) n' (Some k) u) as (r & u' & Hrun & Hsome).
        { done. } { by rewrite Hv'. } { by rewrite Hsv'. }
        { rewrite Hn'. by apply staged_index_no_break. }
        exists r, u'. split; [done|]. intros _. apply Hsome. left. eauto.
    + exfalso. destruct Hbody as [_ Hcause].
      destruct Hcause as [?|[?|[Hno|[[_ [Hnil|Hno]]|?]]]]; try lia.
      * by apply Hno.
      * by destruct (val_images k).
      * apply Hno. by destruct (val_images k).
Qed.

Lemma unet_start_returns (save_every every : nat) (u0 : trainer) :
  (0 < every)%nat -> (0 < save_every)%nat -> (0 < epochs u0)%nat ->
  exists u, start train_loader val_loader save_every every u0 = Done tt u.
Proof.
  intros Hv Hsv Hepochs. unfold start, setup.
  rewrite bind_eq. unfold modify at 1. rewrite bind_eq. unfold modify at 1.
  rewrite bind_eq. unfold modify at 1. rewrite bind_eq. unfold get at 1.
  rewrite bind_eq.
  match goal with
  | |- context [epoch_loop _ _ (seq 0 ?m) ?n ?b ?u] =>
      destruct (unet_epoch_loop_returns m 0 n b u) as (r & u1 & Hrun & Hsome)
  end; try done.
  { simpl. lia. }
  rewrite Hrun. destruct Hsome as [e ->]; [right; simpl; lia|].
  eexists. reflexivity.
Qed.

End UNetRunTotal.

Section StartReturns.
Context `{Framework}.

(** X11.  On data that is all there, [start] of either trainer returns,
    whatever values the metric gives: the index into [step_lr] cannot leave
    the list, because it passes the last threshold, 1, only in an epoch
    that ends by the early exit.  (The supervised trainer needs one epoch
    for its final save.) *)
Theorem start_returns
    (train_loaders val_loaders : nat -> list (list Sample))
    (train_loader val_loader : nat -> list Sample)
    (val_every save_model_every : nat)
    (t0 : train_multi_task.trainer) (u0 : train_unet.trainer) :
  (0 < val_every)%nat -> (0 < save_model_every)%nat ->
  (0 < train_unet.epochs u0)%nat ->
  (forall e, Forall step_ok (train_multi_task.zip_star (train_loaders e))) ->
  (forall e, concat (val_loaders e) <> [] /\
             Forall has_images (concat (val_loaders e))) ->
  (forall e, Forall has_images (train_loader e)) ->
  (forall e, val_loader e <> [] /\ Forall has_images (val_loader e)) ->
  (exists t,
     train_multi_task.start train_loaders val_loaders val_every t0 = Done tt t) /\
  (exists u,
     train_unet.start train_loader val_loader save_model_every val_every u0
     = Done tt u).
Proof.
  intros Hv Hsv Hepochs Htrain Hval Htrain' Hval'. split.
  - by apply multi_start_returns.
  - by apply unet_start_returns.
Qed.

End StartReturns.

(** ** A score that stagnates, the losses of an epoch, the order of epochs *)

Section Stagnation.
Import train_multi_task.
Context `{Framework}.
Variable train_loaders : nat -> list (list Sample).
Variable val_loaders : nat -> list (list Sample).
Hypothesis train_ok : forall e, Forall step_ok (zip_star (train_loaders e)).
Hypothesis val_ok :
  forall e, concat (val_loaders e) <> [] /\
            Forall has_images (concat (val_loaders e)).
Hypothesis SSIM_low : forall x y, SSIM x y <= 95 # 100.

Lemma Qsum_le_scaled (c : Q) (l : list Q) :
  Forall (fun x => x <= c) l -> Qsum l <= c * inject_Z (Z.of_nat (length l)).
Proof.
  induction 1 as [|x l Hx _ IH].
  - simpl. rewrite Qmult_0_r. apply Qle_refl.
  - change (Qsum (x :: l)) with (x + Qsum l).
    rewrite length_cons, Nat2Z.inj_succ, <- Z.add_1_l, inject_Z_plus.
    change (inject_Z 1) with 1. lra.
Qed.

Lemma average_le (c : Q) (l : list Q) :
  l <> [] -> Forall (fun x => x <= c) l ->
  Qsum l / inject_Z (Z.of_nat (length l)) <= c.
Proof.
  intros Hne Hall. apply Qle_shift_div_r.
  - destruct l; [done|]. rewrite length_cons. change 0 with (inject_Z 0).
    rewrite <- Zlt_Qlt. lia.
  - by apply Qsum_le_scaled.
Qed.

Lemma stagnating_loop (m : nat) :
  forall (k : nat) (t0 : trainer),
    (0 < val_every t0)%nat -> step_num t0 = 0%nat -> ssim t0 <= 95 # 100 ->
    exists t,
      epoch_loop train_loaders val_loaders (seq k m) t0 = Done tt t /\
      step_num t = 0%nat /\
      scheduler t = (scheduler t0 + ((k + m - 51) - (k - 51)))%nat.
Proof.
  induction m as [|m IH]; intros k t0 Hv Hsn Hs.
  - exists t0. split; [reflexivity|]. split; [done|]. lia.
  - destruct (multi_epoch_body_returns train_loaders val_loaders k t0 Hv
                (train_ok k) (fun _ => val_ok k))
      as (brk & t & thr & lim & Hrun & Hbrk & Hv' & _ & Hthr & Hsn' & Hlim
          & Hsc & _ & Hstale & Hfresh).
    { rewrite Hsn. simpl. lia. }
    assert (ssim t <= 95 # 100) as Hs'.
    { destruct (decide (k mod val_every t0 = 0)%nat) as [Hmod|Hmod].
      - destruct (Hfresh Hmod) as (mdl & -> & _).
        rewrite <- (length_fmap (batch_ssim mdl false)).
        apply average_le.
        + intros Hnil%fmap_nil_inv. by destruct (val_ok k).
        + apply Forall_fmap, Forall_forall. intros b _. apply SSIM_low.
      - by rewrite (Hstale Hmod). }
    rewrite Hsn in Hthr. injection Hthr as <-.
    assert (Qltb (95 # 100) (ssim t) = false) as Hno by (by apply Qltb_ge).
    rewrite Hno in Hsn', Hsc. rewrite Hsn in Hsn'. simpl in Hsn', Hsc.
    rewrite Hsn' in Hlim. injection Hlim as <-.
    assert (brk = false) as ->.
    { rewrite Hbrk. apply Qltb_ge. lra. }
    destruct (IH (S k) t) as (t' & Hloop & Hsn'' & Hsc'').
    { by rewrite Hv'. } { done. } { done. }
    exists t'. simpl. rewrite bind_eq, Hrun. split; [exact Hloop|].
    split; [done|]. rewrite Hsc'', Hsc.
    destruct (50 <? k)%nat eqn:Hk; simpl.
    + apply Nat.ltb_lt in Hk. lia.
    + apply Nat.ltb_ge in Hk. lia.
Qed.

Lemma stagnating_start (every : nat) (t0 : trainer) :
  (0 < every)%nat ->
  exists t,
    start train_loaders val_loaders every t0 = Done tt t /\
    step_num t = 0%nat /\ scheduler t = (epochs t0 - 51)%nat.
Proof.
  intros Hv. unfold start, setup.
  rewrite bind_eq. unfold modify at 1. rewrite bind_eq. unfold modify at 1.
  rewrite bind_eq. unfold get at 1.
  match goal with
  | |- context [epoch_loop _ _ (seq 0 ?m) ?t] =>
      destruct (stagnating_loop m 0 t) as (t' & Hrun & Hsn & Hsc)
  end; try done.
  exists t'. split; [exact Hrun|]. split; [done|]. rewrite Hsc. simpl. lia.
Qed.

End Stagnation.

Section EpochFacts.
Context `{Framework}.

(** X12.  When every validation batch scores at most 0.95, the threshold
    index of the multi-task trainer stays at 0 and the scheduler takes a
    decay step in every epoch after epoch 50, not once: a run of [epochs]
    epochs ends with the learning rate multiplied [epochs - 51] times by
    [lr_decay]. *)
Theorem learning_rate_decays_every_epoch
    (train_loaders val_loaders : nat -> list (list Sample))
    (val_every : nat) (t0 : train_multi_task.trainer) :
  (0 < val_every)%nat ->
  (forall e, Forall step_ok (train_multi_task.zip_star (train_loaders e))) ->
  (forall e, concat (val_loaders e) <> [] /\
             Forall has_images (concat (val_loaders e))) ->
  (forall x y, SSIM x y <= 95 # 100) ->
  exists t,
    train_multi_task.start train_loaders val_loaders val_every t0 = Done tt t /\
    train_multi_task.step_num t = 0%nat /\
    train_multi_task.scheduler t = (train_multi_task.epochs t0 - 51)%nat.
Proof.
  intros Hv Htrain Hval Hlow. by apply stagnating_start.
Qed.

(** X13.  After an epoch of the multi-task trainer on data that is all
    there, [running_loss] holds exactly one loss for each training step of
    that epoch, as many as the shortest task loader has batches: the
    losses of earlier epochs and the initial entry of [setup] are gone, and
    the mean training loss logged by the validation of that epoch is the
    mean over these. *)
Theorem epoch_running_loss
    (train_loaders val_loaders : nat -> list (list Sample)) (e : nat)
    (t0 : train_multi_task.trainer) :
  (0 < train_multi_task.val_every t0)%nat ->
  Forall step_ok (train_multi_task.zip_star (train_loaders e)) ->
  concat (val_loaders e) <> [] ->
  Forall has_images (concat (val_loaders e)) ->
  (train_multi_task.step_num t0 < length step_lr)%nat ->
  exists brk t,
    train_multi_task.epoch_body train_loaders val_loaders e t0 = Done brk t /\
    length (train_multi_task.running_loss t) = shortest (train_loaders e) /\
    ((e mod train_multi_task.val_every t0 = 0)%nat ->
     In (EvLogStats (e + 1) (mean (train_multi_task.running_loss t))
           (train_multi_task.MSE t) (train_multi_task.ssim t))
        (train_multi_task.trace t)).
Proof.
  intros Hv Hsteps Hne Hall Hn.
  destruct (multi_epoch_body_returns train_loaders val_loaders e t0 Hv Hsteps
              (fun _ => conj Hne Hall) Hn)
    as (brk & t & thr & lim & Hrun & _ & _ & _ & _ & _ & _ & _ & Hlen & _ & Hlog).
  exists brk, t. split; [exact Hrun|]. split.
  - rewrite Hlen. apply zip_star_length.
  - intros Hmod. by destruct (Hlog Hmod) as (m & _ & ?).
Qed.

End EpochFacts.

(** ** The order of the epochs *)

Section EpochOrder.
Context `{Framework}.

Lemma epochs_started_app (tr tr' : list event) :
  epochs_started (tr ++ tr') = epochs_started tr ++ epochs_started tr'.
Proof. apply flat_map_app. Qed.

Lemma epochs_started_none (evs : list event) :
  Forall (fun ev => is_epoch ev = false) evs -> epochs_started evs = [].
Proof.
  induction 1 as [|ev evs Hev _ IH]; [done|].
  destruct ev; try done; exact IH.
Qed.

Lemma epochs_started_body (tr evs : list event) (k : nat) (P : event -> Prop) :
  (forall ev, P ev -> is_epoch ev = false) ->
  epochs_started tr = seq 0 k -> Forall P evs ->
  epochs_started (tr ++ EvEpoch k :: evs) = seq 0 (S k).
Proof.
  intros HP Htr Hevs.
  rewrite epochs_started_app, Htr, seq_S. simpl. f_equal.
  rewrite epochs_started_none; [done|].
  eapply Forall_impl; [exact Hevs|]. exact HP.
Qed.

Lemma multi_epochs_in_order
    (train_loaders val_loaders : nat -> list (list Sample)) (m : nat) :
  forall (k : nat) (t0 : train_multi_task.trainer),
    train_multi_task.training t0 = true ->
    epochs_started (train_multi_task.trace t0) = seq 0 k ->
    exists k',
      (k <= k' <= k + m)%nat /\
      epochs_started
        (train_multi_task.trace
           (final_state
              (train_multi_task.epoch_loop train_loaders val_loaders (seq k m) t0)))
      = seq 0 k'.
Proof.
  induction m as [|m IH]; intros k t0 Hmode Htr.
  - exists k. split; [lia|]. exact Htr.
  - simpl. rewrite bind_eq.
    pose proof (epoch_body_outcome train_loaders val_loaders k t0 Hmode) as Hbody.
    destruct (train_multi_task.epoch_body train_loaders val_loaders k t0)
      as [brk t|ex t].
    + destruct Hbody as (Hmode' & _ & _ & _ & evs & Htr' & Hevs & _).
      assert (epochs_started (train_multi_task.trace t) = seq 0 (S k)) as Hk.
      { rewrite Htr'. eapply epochs_started_body; [|exact Htr|exact Hevs].
        by intros ev [? _]. }
      destruct brk.
      * exists (S k). split; [lia|]. exact Hk.
      * destruct (IH (S k) t Hmode' Hk) as (k' & Hle & Hk').
        exists k'. split; [lia|]. exact Hk'.
    + destruct Hbody as (evs & Htr' & Hevs).
      exists (S k). split; [lia|]. simpl. rewrite Htr'.
      eapply epochs_started_body; [|exact Htr|exact Hevs].
      by intros ev [? _].
Qed.

Lemma unet_epochs_in_order (train_loader val_loader : nat -> list Sample)
    (m : nat) :
  forall (k n : nat) (bound : option nat) (t0 : train_unet.trainer),
    train_unet.training t0 = true ->
    epochs_started (train_unet.trace t0) = seq 0 k ->
    exists k',
      (k <= k' <= k + m)%nat /\
      epochs_started
        (train_unet.trace
           (final_state
              (train_unet.epoch_loop train_loader val_loader (seq k m) n bound t0)))
      = seq 0 k'.
Proof.
  induction m as [|m IH]; intros k n bound t0 Hmode Htr.
  - exists k. split; [lia|]. exact Htr.
  - simpl. rewrite bind_eq.
    pose proof (unet_epoch_body_outcome train_loader val_loader k n t0 Hmode)
      as Hbody.
    destruct (train_unet.epoch_body train_loader val_loader k n t0)
      as [[brk n'] t|ex t].
    + destruct Hbody as (Hmode' & _ & _ & _ & _ & (evs & Htr' & Hevs) & _).
      assert (epochs_started (train_unet.trace t) = seq 0 (S k)) as Hk.
      { rewrite Htr'. eapply epochs_started_body; [|exact Htr|exact Hevs].
        by intros ev [? _]. }
      destruct brk; simpl.
      * exists (S k). split; [lia|]. exact Hk.
      * destruct (IH (S k) n' (Some k) t Hmode' Hk) as (k' & Hle & Hk').
        exists k'. split; [lia|]. exact Hk'.
    + destruct Hbody as ((evs & Htr' & Hevs) & _).
      exists (S k). split; [lia|]. simpl. rewrite Htr'.
      eapply epochs_started_body; [|exact Htr|exact Hevs].
      by intros ev [? _].
Qed.

(** X14.  In every run of [start], of either trainer, the epochs started
    are 0, 1, 2, ... in order, none skipped and none repeated, and at most
    [epochs] of them; this holds as well for a run that ends by the early
    exit or by an exception. *)
Theorem epochs_in_order
    (train_loaders val_loaders : nat -> list (list Sample))
    (train_loader val_loader : nat -> list Sample)
    (val_every save_model_every : nat)
    (t0 : train_multi_task.trainer) (u0 : train_unet.trainer) :
  train_multi_task.trace t0 = [] ->
  train_unet.trace u0 = [] ->
  (exists k,
     (k <= train_multi_task.epochs t0)%nat /\
     epochs_started
       (train_multi_task.trace
          (final_state
             (train_multi_task.start train_loaders val_loaders val_every t0)))
     = seq 0 k) /\
  (exists k,
     (k <= train_unet.epochs u0)%nat /\
     epochs_started
       (train_unet.trace
          (final_state
             (train_unet.start train_loader val_loader save_model_every
                val_every u0)))
     = seq 0 k).
Proof.
  intros Ht Hu. split.
  - unfold train_multi_task.start, train_multi_task.setup.
    rewrite bind_eq. unfold modify at 1. rewrite bind_eq. unfold modify at 1.
    rewrite bind_eq. unfold get at 1.
    match goal with
    | |- context [train_multi_task.epoch_loop _ _ (seq 0 ?m) ?t] =>
        destruct (multi_epochs_in_order train_loaders val_loaders m 0 t)
          as (k & Hle & Hk)
    end.
    + reflexivity.
    + simpl. by rewrite Ht.
    + exists k. split; [simpl in Hle; lia|]. exact Hk.
  - unfold train_unet.start, train_unet.setup.
    rewrite bind_eq. unfold modify at 1. rewrite bind_eq. unfold modify at 1.
    rewrite bind_eq. unfold modify at 1. rewrite bind_eq. unfold get at 1.
    rewrite bind_eq.
    match goal with
    | |- context [train_unet.epoch_loop _ _ (seq 0 ?m) ?n ?b ?t] =>
        destruct (unet_epochs_in_order train_loader val_loader m 0 n b t)
          as (k & Hle & Hk);
        [reflexivity | simpl; by rewrite Hu |];
        destruct (train_unet.epoch_loop train_loader val_loader (seq 0 m) n b t)
          as [bound t1|ex t1]
    end.
    + exists k. split; [simpl in Hle; lia|].
      destruct bound as [e|]; simpl in *.
      * rewrite epochs_started_app, Hk. simpl. apply app_nil_r.
      * exact Hk.
    + exists k. split; [simpl in Hle; lia|]. exact Hk.
Qed.

End EpochOrder.

(** ** The score of the test script *)

Section TestScore.

Lemma Qsum_sub (x y : list Q) :
  length x = length y -> Qsum (sub x y) == Qsum x - Qsum y.
Proof.
  revert y. induction x as [|a x IH]; intros [|b y] Hlen; try done.
  - injection Hlen as Hlen.
    change (Qsum (sub (a :: x) (b :: y))) with ((a - b) + Qsum (sub x y)).
    change (Qsum (a :: x)) with (a + Qsum x).
    change (Qsum (b :: y)) with (b + Qsum y).
    rewrite (IH y Hlen). ring.
Qed.

Lemma length_sub (x y : list Q) :
  length x = length y -> length (sub x y) = length x.
Proof. intros Hlen. unfold sub. rewrite length_zip_with. lia. Qed.

(** Arrays of one shape are subtracted entry by entry. *)
Lemma chunks_spec {A} (n k : nat) :
  forall l : list A,
    length l = (k * n)%nat ->
    Forall (fun c => length c = n) (numpy.chunks n k l) /\
    concat (numpy.chunks n k l) = l.
Proof.
  induction k as [|k IH]; intros l Hl; simpl in *.
  - split; [constructor|]. symmetry. by apply nil_length_inv.
  - destruct (IH (drop n l)) as [Hall Hcat].
    { rewrite length_drop. lia. }
    split.
    + constructor; [|exact Hall]. rewrite length_take. lia.
    + rewrite Hcat. apply take_drop.
Qed.

Lemma map_fixes {A} (f : A -> A) (l : list A) :
  Forall (fun x => f x = x) l -> map f l = l.
Proof. induction 1 as [|x l Hx _ IH]; simpl; congruence. Qed.

Lemma stretch_same {A} (s : list nat) :
  forall l : list A, length l = numpy.size s -> numpy.stretch s s l = l.
Proof.
  induction s as [|d s IH]; intros l Hl; [done|].
  simpl. rewrite Nat.eqb_refl.
  destruct (chunks_spec (numpy.size s) d l Hl) as [Hall Hcat].
  rewrite map_fixes; [exact Hcat|].
  eapply Forall_impl; [exact Hall|]. intros c Hc. by apply IH.
Qed.

Lemma broadcast_dims_same (s : list nat) : numpy.broadcast_dims s s = Ok s.
Proof.
  induction s as [|d s IH]; [done|]. simpl. rewrite IH. simpl.
  by rewrite Nat.eqb_refl.
Qed.

Lemma pad_same (s : list nat) : numpy.pad (length s) s = s.
Proof. unfold numpy.pad. by rewrite Nat.sub_diag. Qed.

Lemma broadcast_shapes_same (s : list nat) : numpy.broadcast_shapes s s = Ok s.
Proof.
  unfold numpy.broadcast_shapes. rewrite Nat.max_id, pad_same.
  apply broadcast_dims_same.
Qed.

Lemma broadcast_to_same {A} (s : list nat) (l : list A) :
  length l = numpy.size s -> numpy.broadcast_to s s l = l.
Proof.
  intros Hl. unfold numpy.broadcast_to. rewrite pad_same. by apply stretch_same.
Qed.

Lemma length_values (a : numpy.ndarray) :
  well_formed a -> length (numpy.values a) = numpy.size (numpy.shape a).
Proof.
  destruct a as [s d|s d]; simpl.
  - intros [Hl _]. by rewrite length_map.
  - done.
Qed.

Lemma subtract_same_shape (x y : numpy.ndarray) :
  well_formed x -> well_formed y -> numpy.shape x = numpy.shape y ->
  numpy.subtract x y =
  Ok (match x, y with
      | numpy.uint8 s dx, numpy.uint8 _ dy =>
          numpy.uint8 s (zip_with (fun a b => ((a - b) mod 256)%Z) dx dy)
      | _, _ =>
          numpy.float64 (numpy.shape x)
            (zip_with Qminus (numpy.values x) (numpy.values y))
      end).
Proof.
  intros Hx Hy Hs. unfold numpy.subtract.
  rewrite <- Hs, broadcast_shapes_same. cbn [rbind].
  pose proof (length_values x Hx) as Hlx.
  pose proof (length_values y Hy) as Hly. rewrite <- Hs in Hly.
  destruct x as [sx dx|sx dx], y as [sy dy|sy dy]; simpl in Hs; subst sy;
    cbn [numpy.shape] in *.
  - destruct Hx as [Hdx _], Hy as [Hdy _].
    by rewrite !broadcast_to_same.
  - by rewrite !broadcast_to_same.
  - by rewrite !broadcast_to_same.
  - by rewrite !broadcast_to_same.
Qed.

Lemma below_cons (a b : Z) (g s : list Z) :
  below (a :: g) (b :: s) = ((if (a <? b)%Z then 1 else 0) + below g s)%nat.
Proof. unfold below. simpl. by destruct (a <? b)%Z. Qed.

(** Bytes subtracted modulo 256: every entry below the target adds 256. *)
Lemma wrapped_sum (g s : list Z) :
  length g = length s ->
  Forall (fun x => (0 <= x < 256)%Z) g ->
  Forall (fun x => (0 <= x < 256)%Z) s ->
  foldr Z.add 0%Z (zip_with (fun a b => ((a - b) mod 256)%Z) g s)
  = (foldr Z.add 0 g - foldr Z.add 0 s + 256 * Z.of_nat (below g s))%Z.
Proof.
  revert s. induction g as [|a g IH]; intros [|b s] Hlen Hg Hs; try done.
  injection Hlen as Hlen.
  apply Forall_cons in Hg as [Ha Hg]. apply Forall_cons in Hs as [Hb Hs].
  specialize (IH s Hlen Hg Hs).
  cbn [zip_with foldr]. rewrite IH, below_cons.
  destruct (a <? b)%Z eqn:Hab.
  - apply Z.ltb_lt in Hab.
    assert ((a - b) mod 256 = a - b + 256)%Z as ->.
    { symmetry. apply Z.mod_unique with (q := (-1)%Z); lia. }
    lia.
  - apply Z.ltb_ge in Hab.
    rewrite Z.mod_small by lia. lia.
Qed.

Lemma Qsum_inject_Z (l : list Z) :
  Qsum (map inject_Z l) == inject_Z (foldr Z.add 0%Z l).
Proof.
  induction l as [|a l IH]; [reflexivity|].
  change (Qsum (map inject_Z (a :: l))) with (inject_Z a + Qsum (map inject_Z l)).
  cbn [foldr]. rewrite IH, inject_Z_plus. reflexivity.
Qed.

Lemma Qsum_nonneg (l : list Q) : Forall (fun x => 0 <= x) l -> 0 <= Qsum l.
Proof.
  induction 1 as [|x l Hx _ IH]; [apply Qle_refl|].
  change (Qsum (x :: l)) with (x + Qsum l). lra.
Qed.

Lemma mean_nonneg (l : list Q) : Forall (fun x => 0 <= x) l -> 0 <= mean l.
Proof.
  intros Hall. unfold mean. destruct l as [|x l]; [discriminate|].
  apply Qle_shift_div_l.
  - rewrite length_cons. change 0 with (inject_Z 0). rewrite <- Zlt_Qlt. lia.
  - rewrite Qmult_0_l. by apply Qsum_nonneg.
Qed.

(** X15.  The score of [get_mse] for a generated image and a target of one
    shape that is not empty.  With floats on either side it is the mean of the generated
    image minus the mean of the target: signed, and errors of opposite sign
    cancel.  With bytes on both sides the differences wrap modulo 256:
    every entry where the generated image is below the target counts 256
    more, so the score is that difference of means plus 256 times the share
    of such entries, and it is never negative. *)
Theorem get_mse_score (generator : tensor -> tensor) (im_real_pt : tensor)
    (image_sim : numpy.ndarray) (to_numpy : tensor -> numpy.ndarray) :
  well_formed (to_numpy (generator im_real_pt)) ->
  well_formed image_sim ->
  numpy.shape (to_numpy (generator im_real_pt)) = numpy.shape image_sim ->
  (0 < numpy.size (numpy.shape image_sim))%nat ->
  exists score,
    test_gan.get_mse generator im_real_pt image_sim to_numpy
      = Ok (score, generator im_real_pt) /\
    match to_numpy (generator im_real_pt), image_sim with
    | numpy.uint8 _ g, numpy.uint8 _ s =>
        score == mean (map inject_Z g) - mean (map inject_Z s)
                 + 256 * (inject_Z (Z.of_nat (below g s))
                          / inject_Z (Z.of_nat (length g))) /\
        0 <= score
    | generated, target =>
        score == mean (numpy.values generated) - mean (numpy.values target)
    end.
Proof.
  intros Hg Hs Hshape _. unfold test_gan.get_mse. cbv zeta.
  rewrite (subtract_same_shape _ _ Hg Hs Hshape). cbn [rbind].
  eexists. split; [reflexivity|].
  pose proof (length_values _ Hg) as Hlg.
  pose proof (length_values _ Hs) as Hls.
  rewrite <- Hshape, <- Hlg in Hls.
  assert (forall x y : list Q,
            length y = length x -> mean (sub x y) == mean x - mean y) as Hfloat.
  { intros x y Hlen. unfold mean.
    rewrite (length_sub x y), Hlen by done. rewrite (Qsum_sub x y) by done.
    unfold Qdiv. ring. }
  destruct (to_numpy (generator im_real_pt)) as [sg g|sg g],
    image_sim as [ss s|ss s]; cbn [numpy.values] in *;
    try (unfold numpy.mean; cbn [numpy.values]; by apply Hfloat).
  destruct Hg as [_ Hg], Hs as [_ Hs]. rewrite !length_map in Hls.
  unfold numpy.mean. cbn [numpy.values]. split.
  - unfold mean. rewrite !length_map, length_zip_with, Hls, Nat.min_id.
    rewrite !Qsum_inject_Z, wrapped_sum by done.
    rewrite <- Z.add_opp_r, !inject_Z_plus, inject_Z_opp, inject_Z_mult.
    change (inject_Z 256) with 256. unfold Qdiv. ring.
  - apply mean_nonneg, Forall_forall.
    intros q (z & -> & Hz)%(list_elem_of_fmap_1 inject_Z).
    change 0 with (inject_Z 0). rewrite <- Zle_Qle.
    apply list_elem_of_lookup in Hz as [i Hi].
    apply lookup_zip_with_Some in Hi as (a & b & -> & _ & _).
    apply Z.mod_pos_bound. lia.
Qed.

End TestScore.

(** ** The further properties on the one-pixel data *)

Section FurtherInstances.

Lemma real_only_lacks_sim : ~ has_images real_only.
Proof. intros [_ [x Hx]]. vm_compute in Hx. discriminate Hx. Defined.

Lemma toy_step_ok (e : nat) :
  Forall step_ok (train_multi_task.zip_star (toy_train_loaders e)).
Proof.
  repeat constructor. eexists. split; [reflexivity|].
  split; eexists; reflexivity.
Defined.

Lemma toy_low_SSIM (x y : tensor) : @SSIM toy_low x y <= 95 # 100.
Proof. simpl. unfold Qle. simpl. lia. Defined.

Lemma train_step_without_discriminator_witness :
  match @train_multi_task.train_step toy (pixel_batch (1 # 2))
          toy_multi_no_discriminator,
        @train_unet.train_step toy (pixel_batch (1 # 2)) toy_unet with
  | Done _ t', Done _ u' =>
      same_generator t' u' /\ train_multi_task.discriminator t' = None /\
      length (train_unet.running_loss u') = 1%nat
  | Raised e t', Raised e' u' =>
      e = KeyError /\ e' = KeyError /\ t' = toy_multi_no_discriminator /\
      u' = toy_unet
  | _, _ => False
  end.
Proof.
  apply (@train_step_without_discriminator toy toy_multi_no_discriminator
           toy_unet (pixel_batch (1 # 2))).
  - reflexivity.
  - repeat split; reflexivity.
Defined.

Lemma train_step_missing_image_witness :
  @train_multi_task.train_step toy real_only toy_multi
    = Raised KeyError toy_multi /\
  @train_unet.train_step toy real_only toy_unet = Raised KeyError toy_unet.
Proof.
  apply (@train_step_missing_image toy toy_multi toy_unet real_only).
  right. reflexivity.
Defined.

Lemma val_all_empty_witness :
  @train_multi_task.val_all toy 1 [[]; []] toy_multi =
    Raised ZeroDivisionError
      (train_multi_task.set_training true
         (train_multi_task.set_last_ssim (train_multi_task.ssim toy_multi)
            toy_multi)) /\
  @train_unet.val_all toy 1 [] toy_unet =
    Raised ZeroDivisionError (train_unet.set_training true toy_unet).
Proof.
  apply (@val_all_empty toy 1 [[]; []] toy_multi toy_unet). reflexivity.
Defined.

Lemma val_all_missing_image_witness :
  (exists t',
     @train_multi_task.val_all toy 1
       [[pixel_batch (9 # 10)]; [real_only; pixel_batch (1 # 2)]] toy_multi
     = Raised KeyError t' /\
     train_multi_task.training t' = false /\
     train_multi_task.trace t' = [EvForward Val false]) /\
  (exists u',
     @train_unet.val_all toy 1
       [pixel_batch (9 # 10); real_only; pixel_batch (1 # 2)] toy_unet
     = Raised KeyError u' /\
     train_unet.training u' = false /\
     train_unet.trace u' = [EvForward Val false]).
Proof.
  destruct (@val_all_missing_image toy 1
              [[pixel_batch (9 # 10)]; [real_only; pixel_batch (1 # 2)]]
              [pixel_batch (9 # 10)] [pixel_batch (1 # 2)] real_only
              toy_multi toy_unet)
    as [(t' & Ht & Hmode & _ & _ & Htr) (u' & Hu & Hmode' & _ & _ & Htr')].
  - reflexivity.
  - repeat constructor; apply toy_has_images.
  - exact real_only_lacks_sim.
  - split.
    + exists t'. split; [exact Ht|]. split; [exact Hmode|exact Htr].
    + exists u'. split; [exact Hu|]. split; [exact Hmode'|exact Htr'].
Defined.

Lemma start_returns_witness :
  (exists t,
     @train_multi_task.start toy toy_train_loaders toy_val_loaders 1 toy_multi
     = Done tt t) /\
  (exists u,
     @train_unet.start toy toy_train_loader toy_val_loader 10 1 toy_unet
     = Done tt u).
Proof.
  apply (@start_returns toy toy_train_loaders toy_val_loaders toy_train_loader
           toy_val_loader 1 10 toy_multi toy_unet).
  - lia.
  - lia.
  - simpl. lia.
  - exact toy_step_ok.
  - intros e. split; [discriminate|]. repeat constructor; apply toy_has_images.
  - intros e. repeat constructor; apply toy_has_images.
  - intros e. split; [discriminate|]. repeat constructor; apply toy_has_images.
Defined.

Lemma learning_rate_decays_every_epoch_witness :
  exists t,
    @train_multi_task.start toy_low toy_train_loaders toy_val_loaders 1
      toy_low_multi = Done tt t /\
    train_multi_task.step_num t = 0%nat /\
    train_multi_task.scheduler t = 9%nat.
Proof.
  apply (@learning_rate_decays_every_epoch toy_low toy_train_loaders
           toy_val_loaders 1 toy_low_multi).
  - lia.
  - exact toy_step_ok.
  - intros e. split; [discriminate|]. repeat constructor; apply toy_has_images.
  - exact toy_low_SSIM.
Defined.

Lemma epoch_running_loss_witness :
  exists brk t,
    @train_multi_task.epoch_body toy toy_train_loaders toy_val_loaders 0
      toy_multi = Done brk t /\
    length (train_multi_task.running_loss t) = 1%nat.
Proof.
  destruct (@epoch_running_loss toy toy_train_loaders toy_val_loaders 0
              toy_multi) as (brk & t & Hrun & Hlen & _).
  - simpl. lia.
  - exact (toy_step_ok 0).
  - discriminate.
  - repeat constructor; apply toy_has_images.
  - simpl. lia.
  - exists brk, t. split; [exact Hrun|exact Hlen].
Defined.

Lemma epochs_in_order_witness :
  (exists k,
     (k <= 10)%nat /\
     epochs_started
       (train_multi_task.trace
          (final_state
             (@train_multi_task.start toy toy_train_loaders toy_val_loaders 1
                toy_multi)))
     = seq 0 k) /\
  (exists k,
     (k <= 10)%nat /\
     epochs_started
       (train_unet.trace
          (final_state
             (@train_unet.start toy toy_train_loader toy_val_loader 10 1
                toy_unet)))
     = seq 0 k).
Proof.
  apply (@epochs_in_order toy toy_train_loaders toy_val_loaders
           toy_train_loader toy_val_loader 1 10 toy_multi toy_unet);
    reflexivity.
Defined.

Lemma get_mse_score_witness :
  exists score,
    test_gan.get_mse (fun x => x) [[1]] (numpy.uint8 [1%nat] [3%Z]) flat_uint8
      = Ok (score, [[1]]) /\
    score == 254.
Proof.
  destruct (get_mse_score (fun x => x) [[1]] (numpy.uint8 [1%nat] [3%Z])
              flat_uint8) as (score & Hrun & Hscore).
  - split; [reflexivity|].
    change (Forall (fun x => (0 <= x < 256)%Z) [1%Z]).
    constructor; [lia | constructor].
  - split; [reflexivity|]. constructor; [lia | constructor].
  - reflexivity.
  - simpl. lia.
  - exists score. split; [exact Hrun|].
    destruct Hscore as [Hscore _]. rewrite Hscore. reflexivity.
Defined.

End FurtherInstances.
